(** * SD card driver over SPI: model of [sd/definitions.go] and [sd/card.go]

    The Go package [sd] is embedded function by function.  Unsigned Go
    integers are values of [Z] with every wrap-around written out
    ([u8], [u16], [u32], [u64]); byte slices and arrays are [list Z];
    a Go [error] is an [option error] with [None] for [nil]; a run-time
    panic of a pure function is [None] of its [option] result.  The
    methods of [SPICard] run in a state monad over the session, the state
    of the collaborators and the trace of what went over the pins; the
    loops that wait for a deadline take fuel. *)

From Stdlib Require Import ZArith List Bool Lia.
From Stdlib Require String.
Import ListNotations.
Local Open Scope Z_scope.

(** ** Machine integers *)

Definition u8 (x : Z) : Z := x mod 256.
Definition u16 (x : Z) : Z := x mod 65536.
Definition u32 (x : Z) : Z := x mod 4294967296.
Definition u64 (x : Z) : Z := x mod 18446744073709551616.

(** Conversion of an integer to [int64] (two's complement). *)
Definition i64 (x : Z) : Z :=
  (x + 9223372036854775808) mod 18446744073709551616 - 9223372036854775808.

Definition is_byte (b : Z) : Prop := 0 <= b < 256.
Definition bytes (l : list Z) : Prop := Forall is_byte l.

(** [l[i] = v] on a slice: the index is in range wherever the driver
    stores, out of range the list is left as it is. *)
Fixpoint store (i : nat) (v : Z) (l : list Z) : list Z :=
  match l, i with
  | [], _ => []
  | _ :: t, O => v :: t
  | h :: t, S j => h :: store j v t
  end.

(** ** Card kinds *)

Definition CardKind := Z.
Definition TypeSD1 : CardKind := 1.
Definition TypeSD2 : CardKind := 2.
Definition TypeSDHC : CardKind := 3.

(** ** Errors *)

Inductive error : Type :=
| errNoSDCard
| errCardNotSupported
| errCmd8
| errCmdOCR
| errCmdBlkLen
| errAcmdAppCond
| errWaitStartBlock
| errNeed512
| errWrite
| errWriteTimeout
| errOOB
| errNoblocks
| ErrShortBuffer
| response1Err (status : Z)
| errTransport (code : nat).

Definition makeResponseError (status : Z) : error := response1Err status.

(** ** Checksums *)

Definition crc7_table : list Z := [
  0x00; 0x12; 0x24; 0x36; 0x48; 0x5a; 0x6c; 0x7e;
  0x90; 0x82; 0xb4; 0xa6; 0xd8; 0xca; 0xfc; 0xee;
  0x32; 0x20; 0x16; 0x04; 0x7a; 0x68; 0x5e; 0x4c;
  0xa2; 0xb0; 0x86; 0x94; 0xea; 0xf8; 0xce; 0xdc;
  0x64; 0x76; 0x40; 0x52; 0x2c; 0x3e; 0x08; 0x1a;
  0xf4; 0xe6; 0xd0; 0xc2; 0xbc; 0xae; 0x98; 0x8a;
  0x56; 0x44; 0x72; 0x60; 0x1e; 0x0c; 0x3a; 0x28;
  0xc6; 0xd4; 0xe2; 0xf0; 0x8e; 0x9c; 0xaa; 0xb8;
  0xc8; 0xda; 0xec; 0xfe; 0x80; 0x92; 0xa4; 0xb6;
  0x58; 0x4a; 0x7c; 0x6e; 0x10; 0x02; 0x34; 0x26;
  0xfa; 0xe8; 0xde; 0xcc; 0xb2; 0xa0; 0x96; 0x84;
  0x6a; 0x78; 0x4e; 0x5c; 0x22; 0x30; 0x06; 0x14;
  0xac; 0xbe; 0x88; 0x9a; 0xe4; 0xf6; 0xc0; 0xd2;
  0x3c; 0x2e; 0x18; 0x0a; 0x74; 0x66; 0x50; 0x42;
  0x9e; 0x8c; 0xba; 0xa8; 0xd6; 0xc4; 0xf2; 0xe0;
  0x0e; 0x1c; 0x2a; 0x38; 0x46; 0x54; 0x62; 0x70;
  0x82; 0x90; 0xa6; 0xb4; 0xca; 0xd8; 0xee; 0xfc;
  0x12; 0x00; 0x36; 0x24; 0x5a; 0x48; 0x7e; 0x6c;
  0xb0; 0xa2; 0x94; 0x86; 0xf8; 0xea; 0xdc; 0xce;
  0x20; 0x32; 0x04; 0x16; 0x68; 0x7a; 0x4c; 0x5e;
  0xe6; 0xf4; 0xc2; 0xd0; 0xae; 0xbc; 0x8a; 0x98;
  0x76; 0x64; 0x52; 0x40; 0x3e; 0x2c; 0x1a; 0x08;
  0xd4; 0xc6; 0xf0; 0xe2; 0x9c; 0x8e; 0xb8; 0xaa;
  0x44; 0x56; 0x60; 0x72; 0x0c; 0x1e; 0x28; 0x3a;
  0x4a; 0x58; 0x6e; 0x7c; 0x02; 0x10; 0x26; 0x34;
  0xda; 0xc8; 0xfe; 0xec; 0x92; 0x80; 0xb6; 0xa4;
  0x78; 0x6a; 0x5c; 0x4e; 0x30; 0x22; 0x14; 0x06;
  0xe8; 0xfa; 0xcc; 0xde; 0xa0; 0xb2; 0x84; 0x96;
  0x2e; 0x3c; 0x0a; 0x18; 0x66; 0x74; 0x42; 0x50;
  0xbe; 0xac; 0x9a; 0x88; 0xf6; 0xe4; 0xd2; 0xc0;
  0x1c; 0x0e; 0x38; 0x2a; 0x54; 0x46; 0x70; 0x62;
  0x8c; 0x9e; 0xa8; 0xba; 0xc4; 0xd6; 0xe0; 0xf2
].

(** [CRC7]: [for _, b := range data { crc = crc7_table[crc^b] }]. *)
Definition crc7_step (crc b : Z) : Z :=
  nth (Z.to_nat (Z.lxor crc b)) crc7_table 0.

Definition CRC7 (data : list Z) : Z := fold_left crc7_step data 0.

(** Reference CRC7, from the words of the specification: the 7-bit
    remainder under the generator x^7 + x^3 + 1, message bits taken most
    significant first, register initially zero. *)
Definition crc7_ref_bit (crc : Z) (b : bool) : Z :=
  let top := xorb (Z.testbit crc 6) b in
  let s := Z.land (Z.shiftl crc 1) 127 in
  if top then Z.lxor s 9 else s.

Definition crc7_ref_byte (crc b : Z) : Z :=
  fold_left (fun c i => crc7_ref_bit c (Z.testbit b i)) [7; 6; 5; 4; 3; 2; 1; 0] crc.

Definition crc7_ref (data : list Z) : Z := fold_left crc7_ref_byte data 0.

(** [CRC16], CRC-16-CCITT, bit serial. *)
Definition crc16_bit (crc : Z) : Z :=
  if Z.eqb (Z.land crc 32768) 0 then u16 (Z.shiftl crc 1)
  else Z.lxor (u16 (Z.shiftl crc 1)) 4129.

Definition crc16_step (crc b : Z) : Z :=
  let c := Z.lxor crc (u16 (Z.shiftl b 8)) in
  crc16_bit (crc16_bit (crc16_bit (crc16_bit
    (crc16_bit (crc16_bit (crc16_bit (crc16_bit c))))))).

Definition CRC16 (buf : list Z) : Z := fold_left crc16_step buf 0.

(** ** Registers *)

Record CID : Type := mkCID {
  ManufacturerID : Z;
  OEMApplicationID : Z;
  prodName : list Z;
  productRev : Z;
  ProductSerialNumber : Z;
  date : list Z
}.

Definition CID_zero : CID := mkCID 0 0 [0; 0; 0; 0; 0] 0 0 [0; 0].

Definition at_ (b : list Z) (i : nat) : Z := nth i b 0.

Definition DecodeCID (b : list Z) : CID * option error :=
  if (length b <? 16)%nat then (CID_zero, Some ErrShortBuffer)
  else
    (mkCID (at_ b 0)
           (Z.lor (Z.shiftl (at_ b 1) 8) (at_ b 2))
           [at_ b 3; at_ b 4; at_ b 5; at_ b 6; at_ b 7]
           (at_ b 8)
           (Z.lor (Z.lor (Z.lor (Z.shiftl (at_ b 9) 24) (Z.shiftl (at_ b 10) 16))
                         (Z.shiftl (at_ b 11) 8)) (at_ b 12))
           [at_ b 13; at_ b 14],
     None).

(** The CSD register: [data [16]byte]. *)
Record CSD : Type := mkCSD { data : list Z }.

Definition CSD_zero : CSD := mkCSD (repeat 0 16).

Definition wf_CSD (c : CSD) : Prop := length (data c) = 16%nat /\ bytes (data c).

Record CSDv1 : Type := mkCSDv1 { v1_CSD : CSD }.
Record CSDv2 : Type := mkCSDv2 { v2_CSD : CSD }.

(** [copy(csd.data[:], b)]: the first 16 bytes of [b]. *)
Definition DecodeCSD (b : list Z) : CSD * option error :=
  if (length b <? 16)%nat then (CSD_zero, Some ErrShortBuffer)
  else (mkCSD (firstn 16 b), None).

Definition CSDStructure (c : CSD) : Z := Z.shiftr (at_ (data c) 0) 6.

(** [MustV1] and [MustV2] panic on the other structure version. *)
Definition MustV1 (c : CSD) : option CSDv1 :=
  if Z.eqb (CSDStructure c) 0 then Some (mkCSDv1 c) else None.

Definition MustV2 (c : CSD) : option CSDv2 :=
  if Z.eqb (CSDStructure c) 1 then Some (mkCSDv2 c) else None.

Definition ReadBlockLen (c : CSD) : Z :=
  u16 (Z.shiftl 1 (Z.land (at_ (data c) 5) 15)).

Definition CSD_CRC7 (c : CSD) : Z := Z.land (at_ (data c) 15) 127.

(** [got := CRC7(c.data[:15]); return got|(1<<7) == c.data[15]] *)
Definition IsValid (c : CSD) : bool :=
  let got := CRC7 (firstn 15 (data c)) in
  Z.eqb (Z.lor got (Z.shiftl 1 7)) (at_ (data c) 15).

Definition CSDv2_csize (c : CSDv2) : Z :=
  let d := data (v2_CSD c) in
  Z.lor (Z.lor (u32 (Z.shiftl (Z.shiftr (at_ d 7) 2) 16))
               (u32 (Z.shiftl (at_ d 8) 8)))
        (at_ d 9).

Definition CSDv2_DeviceCapacity (c : CSDv2) : Z :=
  u64 (CSDv2_csize c * 512000).

Definition CSDv1_csize (c : CSDv1) : Z :=
  let d := data (v1_CSD c) in
  Z.lor (Z.lor (Z.shiftr (at_ d 8) 6)
               (u16 (Z.shiftl (at_ d 7) 2)))
        (u16 (Z.shiftl (Z.land (at_ d 6) 3) 10)).

Definition CSDv1_csizemult (c : CSDv1) : Z :=
  let d := data (v1_CSD c) in
  Z.lor (u8 (Z.shiftl (Z.land (at_ d 9) 3) 1)) (Z.shiftr (at_ d 10) 7).

Definition CSDv1_mult (c : CSDv1) : Z :=
  u16 (Z.shiftl 1 (u8 (2 + CSDv1_csizemult c))).

Definition CSDv1_DeviceCapacity (c : CSDv1) : Z :=
  let mult := CSDv1_mult c in
  let csize := CSDv1_csize c in
  let blklen := ReadBlockLen (v1_CSD c) in
  let blockNR := u32 (u16 (csize + 1) * mult) in
  u32 (blockNR * blklen).

(** [CSD.DeviceCapacity]: the switch on the structure version; [None] is
    the panic of [MustV1] or [MustV2]. *)
Definition DeviceCapacity (c : CSD) : option Z :=
  if Z.eqb (CSDStructure c) 0 then
    match MustV1 c with
    | Some v1 => Some (CSDv1_DeviceCapacity v1)
    | None => None
    end
  else if Z.eqb (CSDStructure c) 1 then
    match MustV2 c with
    | Some v2 => Some (CSDv2_DeviceCapacity v2)
    | None => None
    end
  else Some 0.

Definition NumberOfBlocks (c : CSD) : option Z :=
  let rblocks := ReadBlockLen c in
  if Z.eqb rblocks 0 then Some 0
  else match DeviceCapacity c with
       | Some cap => Some (cap / rblocks)
       | None => None
       end.

(** ** Log-scale table *)

Definition log10table : list Z := [1; 10; 100; 1000; 10000; 100000; 1000000].

(** Indexing a Go array: [None] is the out-of-range panic. *)
Definition index (tbl : list Z) (i : Z) : option Z :=
  if (0 <=? i) && (i <? Z.of_nat (length tbl)) then nth_error tbl (Z.to_nat i)
  else None.

Definition RateKilobits (t : Z) : option Z :=
  match index log10table (Z.land t 7) with
  | Some v => Some (100 * v)
  | None => None
  end.

Definition AccessTime (t : Z) : option Z :=
  match index log10table (Z.land t 7) with
  | Some v => Some (v * 1)
  | None => None
  end.

(** ** R1 response flags *)

Definition _R1_IDLE_STATE : Z := 1.
Definition _R1_ERASE_RESET : Z := 2.
Definition _R1_ILLEGAL_COMMAND : Z := 4.
Definition _R1_COM_CRC_ERROR : Z := 8.
Definition _R1_ERASE_SEQUENCE_ERROR : Z := 16.
Definition _R1_ADDRESS_ERROR : Z := 32.
Definition _R1_PARAMETER_ERROR : Z := 64.

Definition IsIdle (r : Z) : bool := negb (Z.eqb (Z.land r _R1_IDLE_STATE) 0).
Definition IllegalCmdError (r : Z) : bool :=
  negb (Z.eqb (Z.land r _R1_ILLEGAL_COMMAND) 0).

(** ** Command indices *)

Definition CMD0_GO_IDLE_STATE : Z := 0.
Definition CMD8_SEND_IF_COND : Z := 8.
Definition CMD9_SEND_CSD : Z := 9.
Definition CMD10_SEND_CID : Z := 10.
Definition CMD16_SET_BLOCKLEN : Z := 16.
Definition CMD17_READ_SINGLE_BLOCK : Z := 17.
Definition CMD24_WRITE_BLOCK : Z := 24.
Definition CMD55_APP_CMD : Z := 55.
Definition CMD58_READ_OCR : Z := 58.
Definition ACMD41_SD_APP_OP_COND : Z := 41.

(** [putCmd]: panics on a destination shorter than 6 bytes. *)
Definition PutUint32 (dst : list Z) (off : nat) (v : Z) : list Z :=
  store (off + 3) (u8 v)
    (store (off + 2) (u8 (Z.shiftr v 8))
      (store (off + 1) (u8 (Z.shiftr v 16))
        (store off (u8 (Z.shiftr v 24)) dst))).

Definition putCmd (dst : list Z) (cmd arg : Z) : option (list Z) :=
  if (length dst <? 6)%nat then None
  else
    let d1 := store 0 (Z.lor 64 cmd) dst in
    let d2 := PutUint32 d1 1 arg in
    Some (store 5 (Z.lor (u8 (Z.shiftl (CRC7 (firstn 5 d2)) 1)) 1) d2).

(** ** The collaborators

    The SPI bus ([drivers.SPI]), the chip-select pin, the clock and the
    scheduler are outside the driver.  They are deterministic oracles over
    a state [E] of their own.  [bus_Tx w r] receives the bytes to write
    and the read slice ([None] for [nil]) and answers with the bytes it
    left in the read slice and its error; [bus_Transfer] exchanges one
    byte; [time_Now] reads the clock, in nanoseconds. *)

Record Collab (E : Type) : Type := mkCollab {
  bus_Tx : list Z -> option (list Z) -> E -> (list Z * option error) * E;
  bus_Transfer : Z -> E -> (Z * option error) * E;
  cs_pin : bool -> E -> E;
  time_Now : E -> Z * E;
  Gosched : E -> E
}.

Arguments bus_Tx {E} _ _ _ _.
Arguments bus_Transfer {E} _ _ _.
Arguments cs_pin {E} _ _ _.
Arguments time_Now {E} _ _.
Arguments Gosched {E} _ _.

(** What the driver did on the pins, in order: the level it gave to the
    chip-select pin ([csEnable(true)] calls [cs(false)], low selects the
    card), a [Tx] with the bytes written and the length of the read slice
    ([None] for [nil]), a [Transfer] with the byte written. *)
Inductive event : Type :=
| EvCS (level : bool)
| EvTx (w : list Z) (r : option nat)
| EvTransfer (b : Z).

Record SPICard : Type := mkSPICard {
  bufcmd : list Z;
  buf : list Z;
  bufTok : Z;
  kind : CardKind;
  cid : CID;
  csd : CSD;
  lastCRC : Z;
  timers : Z * Z;
  numblocks : Z
}.

(** [NewSPICard]: every field at its zero value. *)
Definition NewSPICard : SPICard :=
  mkSPICard (repeat 0 6) (repeat 0 512) 0 0 CID_zero CSD_zero 0 (0, 0) 0.

Definition Second : Z := 1000000000.
Definition Millisecond : Z := 1000000.

(** What the transport left in a read slice: as many bytes as the slice
    holds, the rest of the slice as it was. *)
Definition received (old rx : list Z) : list Z :=
  firstn (length old) (map u8 rx ++ skipn (length rx) old).

Section Driver.

Context {E : Type} (io : Collab E).

Record World : Type := mkWorld {
  card : SPICard;
  env : E;
  trace : list event
}.

(** A run of driver code ends with a value and a world, panics, or is
    still inside a deadline loop when the fuel is spent. *)
Inductive outcome (A : Type) : Type :=
| Ret (a : A) (w : World)
| Panic
| Spent.

Arguments Ret {A} _ _.
Arguments Panic {A}.
Arguments Spent {A}.

Definition M (A : Type) : Type := World -> outcome A.

Definition ret {A} (a : A) : M A := fun w => Ret a w.

Definition bind {A B} (m : M A) (k : A -> M B) : M B :=
  fun w => match m w with
           | Ret a w' => k a w'
           | Panic => Panic
           | Spent => Spent
           end.

Notation "x <- m ;; k" := (bind m (fun x => k))
  (at level 61, m at next level, right associativity).
Notation "' p <- m ;; k" := (bind m (fun x => let p := x in k))
  (at level 61, p pattern, m at next level, right associativity).
Notation "m ;;; k" := (bind m (fun _ => k))
  (at level 61, right associativity).

Definition get_card : M SPICard := fun w => Ret (card w) w.

Definition set_card (f : SPICard -> SPICard) : M unit :=
  fun w => Ret tt (mkWorld (f (card w)) (env w) (trace w)).

Definition or_panic {A} (o : option A) : M A :=
  fun w => match o with Some a => Ret a w | None => Panic end.

(** *** Field updates *)

Definition with_bufcmd (v : list Z) (d : SPICard) : SPICard :=
  mkSPICard v (buf d) (bufTok d) (kind d) (cid d) (csd d) (lastCRC d)
            (timers d) (numblocks d).
Definition with_buf (v : list Z) (d : SPICard) : SPICard :=
  mkSPICard (bufcmd d) v (bufTok d) (kind d) (cid d) (csd d) (lastCRC d)
            (timers d) (numblocks d).
Definition with_bufTok (v : Z) (d : SPICard) : SPICard :=
  mkSPICard (bufcmd d) (buf d) v (kind d) (cid d) (csd d) (lastCRC d)
            (timers d) (numblocks d).
Definition with_kind (v : CardKind) (d : SPICard) : SPICard :=
  mkSPICard (bufcmd d) (buf d) (bufTok d) v (cid d) (csd d) (lastCRC d)
            (timers d) (numblocks d).
Definition with_cid (v : CID) (d : SPICard) : SPICard :=
  mkSPICard (bufcmd d) (buf d) (bufTok d) (kind d) v (csd d) (lastCRC d)
            (timers d) (numblocks d).
Definition with_csd (v : CSD) (d : SPICard) : SPICard :=
  mkSPICard (bufcmd d) (buf d) (bufTok d) (kind d) (cid d) v (lastCRC d)
            (timers d) (numblocks d).
Definition with_lastCRC (v : Z) (d : SPICard) : SPICard :=
  mkSPICard (bufcmd d) (buf d) (bufTok d) (kind d) (cid d) (csd d) v
            (timers d) (numblocks d).
Definition with_timers (v : Z * Z) (d : SPICard) : SPICard :=
  mkSPICard (bufcmd d) (buf d) (bufTok d) (kind d) (cid d) (csd d) (lastCRC d)
            v (numblocks d).
Definition with_numblocks (v : Z) (d : SPICard) : SPICard :=
  mkSPICard (bufcmd d) (buf d) (bufTok d) (kind d) (cid d) (csd d) (lastCRC d)
            (timers d) v.

(** *** Calls to the collaborators *)

(** [c.cs(!b)] *)
Definition csEnable (b : bool) : M unit :=
  fun w => Ret tt (mkWorld (card w) (cs_pin io (negb b) (env w))
                           (trace w ++ [EvCS (negb b)])).

(** [d.bus.Tx(w, r)]: the new content of [r] and the error. *)
Definition Tx (wr : list Z) (r : option (list Z)) : M (list Z * option error) :=
  fun w =>
    let '((rx, err), e') := bus_Tx io wr r (env w) in
    let r' := match r with Some old => received old rx | None => [] end in
    Ret (r', err)
        (mkWorld (card w) e' (trace w ++ [EvTx wr (option_map (@length Z) r)])).

(** [d.bus.Transfer(b)] *)
Definition Transfer (b : Z) : M (Z * option error) :=
  fun w =>
    let '((rx, err), e') := bus_Transfer io b (env w) in
    Ret (u8 rx, err) (mkWorld (card w) e' (trace w ++ [EvTransfer b])).

Definition Now : M Z :=
  fun w => let '(t, e') := time_Now io (env w) in
           Ret t (mkWorld (card w) e' (trace w)).

Definition yield : M unit :=
  fun w => Ret tt (mkWorld (card w) (Gosched io (env w)) (trace w)).

(** *** Deadline timers: [d.timers[0]] and [d.timers[1]] *)

Definition setTimeout (i : bool) (timeout : Z) : M unit :=
  t <- Now ;;
  set_card (fun d => with_timers
                       (if i then (fst (timers d), t + timeout)
                        else (t + timeout, snd (timers d))) d).

(** [time.Since(t.deadline) >= 0] *)
Definition expired (i : bool) : M bool :=
  d <- get_card ;;
  t <- Now ;;
  ret (0 <=? t - (if i then snd (timers d) else fst (timers d))).

(** *** [waitNotBusy] *)

Fixpoint waitNotBusy_loop (fuel : nat) : M (option error) :=
  match fuel with
  | O => fun _ => Spent
  | S f =>
      ex <- expired true ;;
      if ex then ret None
      else
        '(r, err) <- Transfer 255 ;;
        match err with
        | Some e => ret (Some e)
        | None =>
            if Z.eqb r 255 then ret None
            else yield ;;; waitNotBusy_loop f
        end
  end.

Definition waitNotBusy (fuel : nat) (timeout : Z) : M (option error) :=
  setTimeout true timeout ;;; waitNotBusy_loop fuel.

(** *** [waitStartBlock] *)

Fixpoint waitStartBlock_loop (fuel : nat) (status : Z) : M (Z * option error) :=
  match fuel with
  | O => fun _ => Spent
  | S f =>
      ex <- expired false ;;
      if ex then ret (status, None)
      else
        '(st, err) <- Transfer 255 ;;
        match err with
        | Some e => csEnable false ;;; ret (st, Some e)
        | None =>
            if negb (Z.eqb st 255) then ret (st, None)
            else yield ;;; waitStartBlock_loop f st
        end
  end.

Definition waitStartBlock (fuel : nat) : M (option error) :=
  setTimeout false (300 * Millisecond) ;;;
  '(status, err) <- waitStartBlock_loop fuel 255 ;;
  match err with
  | Some e => ret (Some e)
  | None =>
      if negb (Z.eqb status 254) then
        csEnable false ;;; ret (Some errWaitStartBlock)
      else ret None
  end.

(** *** [cmd] *)

(** The response poll: [for i := 0; i < 0xFFFF; i++]. *)
Fixpoint cmd_poll (n : nat) : M (option Z) :=
  match n with
  | O => ret None
  | S m =>
      d <- get_card ;;
      '(r, _) <- Tx (firstn 1 (bufcmd d)) (Some [bufTok d]) ;;
      set_card (with_bufTok (nth 0 r (bufTok d))) ;;;
      let response := nth 0 r (bufTok d) in
      if Z.eqb (Z.land response 128) 0 then ret (Some response)
      else cmd_poll m
  end.

(** [cmd] up to the point where the frame is built: chip select and the
    wait for a card that is still busy, whose result is dropped. *)
Definition cmd_ready (fuel : nat) (c : Z) : M unit :=
  csEnable true ;;;
  if negb (Z.eqb c 12) then
    _ <- waitNotBusy fuel (300 * Millisecond) ;; ret tt
  else ret tt.

(** [cmd] once the frame is out: the byte skipped after a stop command,
    the response poll and its timeout. *)
Definition cmd_response (c : Z) : M (Z * option error) :=
  (if Z.eqb c 12 then _ <- Transfer 255 ;; ret tt else ret tt) ;;;
  set_card (fun d => with_bufcmd (store 0 255 (bufcmd d)) d) ;;;
  r <- cmd_poll (Z.to_nat 65535) ;;
  match r with
  | Some response => ret (response, None)
  | None =>
      csEnable false ;;;
      _ <- Transfer 255 ;;
      ret (255, None)
  end.

(** [cmd] in between: the frame and its transmission. *)
Definition cmd_exchange (c arg crc : Z) : M (Z * option error) :=
  d <- get_card ;;
  b <- or_panic (putCmd (firstn 6 (bufcmd d)) c arg) ;;
  let frame := store 5 crc b in
  set_card (with_bufcmd (frame ++ skipn 6 (bufcmd d))) ;;;
  '(_, err) <- Tx frame None ;;
  match err with
  | Some e => ret (0, Some e)
  | None => cmd_response c
  end.

Definition cmd (fuel : nat) (c arg crc : Z) : M (Z * option error) :=
  cmd_ready fuel c ;;; cmd_exchange c arg crc.

Definition appCmd (fuel : nat) (c arg : Z) : M (Z * option error) :=
  '(status, err) <- cmd fuel CMD55_APP_CMD 0 255 ;;
  match err with
  | Some e => ret (status, Some e)
  | None => cmd fuel c arg 255
  end.

Definition cmdEnsure0Status (fuel : nat) (c arg crc : Z) : M (option error) :=
  '(status, err) <- cmd fuel c arg crc ;;
  match err with
  | Some e => ret (Some e)
  | None =>
      if negb (Z.eqb status 0) then ret (Some (makeResponseError status))
      else ret None
  end.

(** *** Register reads *)

(** [for i := uint16(0); i < 16; i++ { r, err := Transfer(0xFF); ...; dst[i] = r }]
    with [dst = d.buf[off:]]. *)
Fixpoint readRegister_bytes (n : nat) (off : nat) : M (option error) :=
  match n with
  | O => ret None
  | S m =>
      '(r, err) <- Transfer 255 ;;
      match err with
      | Some e => ret (Some e)
      | None =>
          set_card (fun d => with_buf (store off r (buf d)) d) ;;;
          readRegister_bytes m (S off)
      end
  end.

Definition readRegister (fuel : nat) (c : Z) (off : nat) : M (option error) :=
  e <- cmdEnsure0Status fuel c 0 255 ;;
  match e with
  | Some e => ret (Some e)
  | None =>
      e <- waitStartBlock fuel ;;
      match e with
      | Some e => ret (Some e)
      | None =>
          e <- readRegister_bytes 16 off ;;
          match e with
          | Some e => ret (Some e)
          | None =>
              _ <- Transfer 255 ;;
              _ <- Transfer 255 ;;
              csEnable false ;;;
              ret None
          end
      end
  end.

Definition readCID (fuel : nat) : M (CID * option error) :=
  d <- get_card ;;
  let off := (length (buf d) - 16)%nat in
  e <- readRegister fuel CMD10_SEND_CID off ;;
  match e with
  | Some e => ret (CID_zero, Some e)
  | None => d <- get_card ;; ret (DecodeCID (skipn off (buf d)))
  end.

Definition readCSD (fuel : nat) : M (CSD * option error) :=
  d <- get_card ;;
  let off := (length (buf d) - 16)%nat in
  e <- readRegister fuel CMD9_SEND_CSD off ;;
  match e with
  | Some e => ret (CSD_zero, Some e)
  | None => d <- get_card ;; ret (DecodeCSD (skipn off (buf d)))
  end.

(** *** [Init] *)

(** The go-idle loop: the error of [cmd], or whether the card went idle. *)
Fixpoint Init_idle_loop (fuel loops : nat) : M (option error * bool) :=
  match loops with
  | O => fun _ => Spent
  | S l =>
      ex <- expired false ;;
      if ex then ret (None, false)
      else
        '(result, err) <- cmd fuel CMD0_GO_IDLE_STATE 0 149 ;;
        match err with
        | Some e => ret (Some e, false)
        | None =>
            if Z.eqb result _R1_IDLE_STATE then ret (None, true)
            else Init_idle_loop fuel l
        end
  end.

(** [for i := lo; i < hi; i++ { status, err = d.bus.Transfer(0xFF); ... }] *)
Fixpoint Init_r7_bytes (n : nat) (status : Z) : M (Z * option error) :=
  match n with
  | O => ret (status, None)
  | S m =>
      '(st, err) <- Transfer 255 ;;
      match err with
      | Some e => ret (st, Some e)
      | None => Init_r7_bytes m st
      end
  end.

(** The operating-condition loop: the last [r1] and the error of [appCmd]. *)
Fixpoint Init_opcond_loop (fuel loops : nat) (arg r1 : Z) : M (Z * option error) :=
  match loops with
  | O => fun _ => Spent
  | S l =>
      ex <- expired false ;;
      if ex then ret (r1, None)
      else
        '(r, err) <- appCmd fuel ACMD41_SD_APP_OP_COND arg ;;
        match err with
        | Some e => ret (r, Some e)
        | None =>
            if Z.eqb r 0 then ret (r, None)
            else Init_opcond_loop fuel l arg r
        end
  end.

Definition MaxUint32 : Z := 4294967295.

(** The end of [Init]: the block count of the CSD just read. *)
Definition Init_count : M (option error) :=
  d <- get_card ;;
  nb <- or_panic (NumberOfBlocks (csd d)) ;;
  if MaxUint32 <? nb then ret (Some errCardNotSupported)
  else if Z.eqb nb 0 then ret (Some errNoblocks)
  else set_card (with_numblocks (i64 nb)) ;;; ret None.

(** From the block length command to the end. *)
Definition Init_registers (fuel : nat) : M (option error) :=
  e <- cmdEnsure0Status fuel CMD16_SET_BLOCKLEN 512 255 ;;
  match e with
  | Some e => ret (Some e)
  | None =>
      '(c, err) <- readCID fuel ;;
      set_card (with_cid c) ;;;
      match err with
      | Some e => ret (Some e)
      | None =>
          '(c, err) <- readCSD fuel ;;
          set_card (with_csd c) ;;;
          match err with
          | Some e => ret (Some e)
          | None => Init_count
          end
      end
  end.

(** From the operating-condition negotiation to the end. *)
Definition Init_negotiate (fuel : nat) (r1 : Z) : M (option error) :=
  d <- get_card ;;
  let arg := if Z.eqb (kind d) TypeSD2 then 1073741824 else 0 in
  setTimeout false (2 * Second) ;;;
  '(r1, err) <- Init_opcond_loop fuel fuel arg r1 ;;
  match err with
  | Some e => ret (Some e)
  | None =>
      if negb (Z.eqb r1 0) then ret (Some (makeResponseError r1))
      else
        d <- get_card ;;
        if Z.eqb (kind d) TypeSD2 then
          e <- cmdEnsure0Status fuel CMD58_READ_OCR 0 255 ;;
          match e with
          | Some e => ret (Some e)
          | None =>
              '(statusb, err) <- Transfer 255 ;;
              match err with
              | Some e => ret (Some e)
              | None =>
                  (if Z.eqb (Z.land statusb 192) 192
                   then set_card (with_kind TypeSDHC) else ret tt) ;;;
                  _ <- Transfer 255 ;;
                  _ <- Transfer 255 ;;
                  _ <- Transfer 255 ;;
                  Init_registers fuel
              end
          end
        else Init_registers fuel
  end.

(** The body of [Init] between [defer d.csEnable(false)] and the returns. *)
Definition Init_body (fuel : nat) : M (option error) :=
  csEnable true ;;;
  d <- get_card ;;
  _ <- Tx (firstn 10 (buf d)) None ;;
  csEnable false ;;;
  _ <- Tx (buf d) None ;;
  setTimeout false (2 * Second) ;;;
  '(err, ok) <- Init_idle_loop fuel fuel ;;
  match err with
  | Some e => ret (Some e)
  | None =>
      if negb ok then ret (Some errNoSDCard)
      else
        '(r1, err) <- cmd fuel CMD8_SEND_IF_COND 426 135 ;;
        match err with
        | Some e => ret (Some e)
        | None =>
            if IllegalCmdError r1 then
              set_card (with_kind TypeSD1) ;;; ret (Some errCardNotSupported)
            else
              '(status, err) <- Init_r7_bytes 3 0 ;;
              match err with
              | Some e => ret (Some e)
              | None =>
                  if negb (Z.eqb (Z.land status 15) 1)
                  then ret (Some (makeResponseError status))
                  else
                    '(status, err) <- Init_r7_bytes 1 status ;;
                    match err with
                    | Some e => ret (Some e)
                    | None =>
                        if negb (Z.eqb status 170)
                        then ret (Some (makeResponseError status))
                        else
                          set_card (with_kind TypeSD2) ;;;
                          Init_negotiate fuel r1
                    end
              end
        end
  end.

Definition Init (fuel : nat) : M (option error) :=
  set_card (fun d => with_buf (repeat 255 (length (buf d))) d) ;;;
  r <- Init_body fuel ;;
  csEnable false ;;;
  ret r.

(** *** Block transfers *)

(** The address sent to the card: [block <<= 9] unless the card is SDHC,
    then [uint32(block)]. *)
Definition block_address (k : CardKind) (block : Z) : Z :=
  u32 (if negb (Z.eqb k TypeSDHC) then i64 (Z.shiftl block 9) else block).

(** [ReadBlock]: the error and the destination slice after the call. *)
Definition ReadBlock (fuel : nat) (block : Z) (dst : list Z)
  : M (option error * list Z) :=
  d <- get_card ;;
  if negb (Nat.eqb (length dst) 512) then ret (Some errNeed512, dst)
  else if numblocks d <=? block then ret (Some errOOB, dst)
  else
    e <- cmdEnsure0Status fuel CMD17_READ_SINGLE_BLOCK
           (block_address (kind d) block) 255 ;;
    match e with
    | Some e => ret (Some e, dst)
    | None =>
        r <- (e <- waitStartBlock fuel ;;
              match e with
              | Some e => ret (Some e, dst)
              | None =>
                  d <- get_card ;;
                  '(dst', err) <- Tx (buf d) (Some dst) ;;
                  match err with
                  | Some e => ret (Some e, dst')
                  | None =>
                      '(hi, _) <- Transfer 255 ;;
                      '(lo, _) <- Transfer 255 ;;
                      set_card (with_lastCRC (Z.lor (u16 (Z.shiftl hi 8)) lo)) ;;;
                      ret (None, dst')
                  end
              end) ;;
        csEnable false ;;;
        ret r
    end.

(** The end of [WriteBlock]:
    [err = d.waitNotBusy(600 * time.Millisecond); if err != nil { return errWriteTimeout }]. *)
Definition WriteBlock_busy (fuel : nat) : M (option error) :=
  err <- waitNotBusy fuel (600 * Millisecond) ;;
  match err with
  | Some _ => ret (Some errWriteTimeout)
  | None => ret None
  end.

Definition WriteBlock (fuel : nat) (block : Z) (src : list Z) : M (option error) :=
  d <- get_card ;;
  if negb (Nat.eqb (length src) 512) then ret (Some errNeed512)
  else if numblocks d <=? block then ret (Some errOOB)
  else
    e <- cmdEnsure0Status fuel CMD24_WRITE_BLOCK
           (block_address (kind d) block) 255 ;;
    match e with
    | Some e => ret (Some e)
    | None =>
        r <- (_ <- Transfer 254 ;;
              '(_, err) <- Tx (firstn 512 src) None ;;
              match err with
              | Some e => ret (Some e)
              | None =>
                  _ <- Transfer 255 ;;
                  _ <- Transfer 255 ;;
                  '(r, err) <- Transfer 255 ;;
                  match err with
                  | Some e => ret (Some e)
                  | None =>
                      if negb (Z.eqb (Z.land r 31) 5) then ret (Some errWrite)
                      else WriteBlock_busy fuel
                  end
              end) ;;
        csEnable false ;;;
        ret r
    end.

End Driver.

Arguments Ret {E A} _ _.
Arguments Panic {E A}.
Arguments Spent {E A}.
Arguments mkWorld {E} _ _ _.
Arguments card {E} _.
Arguments env {E} _.
Arguments trace {E} _.

(** ** A scripted card

    A concrete collaborator for running the driver: every byte clocked
    on the bus takes [tick] nanoseconds and is answered by the next entry
    of a script, an answer byte with the error the transport reports for
    that exchange; once the script is used up the line reads [rest_].  A
    yield to the scheduler takes [pause] nanoseconds. *)
Module Sim.

Record t : Type := mk {
  script : list (Z * option error);
  rest_ : Z;
  clock : Z;
  tick : Z;
  pause : Z
}.

Definition exchange1 (s : t) : (Z * option error) * t :=
  match script s with
  | [] => ((rest_ s, None), mk [] (rest_ s) (clock s + tick s) (tick s) (pause s))
  | r :: tl => (r, mk tl (rest_ s) (clock s + tick s) (tick s) (pause s))
  end.

Fixpoint exchange (n : nat) (s : t) : (list Z * option error) * t :=
  match n with
  | O => (([], None), s)
  | S m =>
      let '((b, e), s1) := exchange1 s in
      let '((bs, e'), s2) := exchange m s1 in
      ((b :: bs, match e with Some x => Some x | None => e' end), s2)
  end.

Definition io : Collab t :=
  mkCollab t
    (fun w _ s => exchange (length w) s)
    (fun _ s => exchange1 s)
    (fun _ s => s)
    (fun s => (clock s, s))
    (fun s => mk (script s) (rest_ s) (clock s + pause s) (tick s) (pause s)).

Definition ok (l : list Z) : list (Z * option error) :=
  map (fun b => (b, None)) l.

(** The card's side of one command: ready, six frame bytes, the R1 byte. *)
Definition answer (r1 : Z) : list Z := [255] ++ repeat 255 6 ++ [r1].

(** A bus at 400 kHz (20 microseconds a byte) and a scheduler that comes
    back after a millisecond. *)
Definition world (d : SPICard) (sc : list (Z * option error)) (rest : Z)
  : World (E := t) :=
  mkWorld d (mk sc rest 0 20000 1000000) [].

End Sim.

(** ** A bus with no card

    The data line is pulled up: every byte reads 0xFF and the transport
    reports no error.  The state is the clock. *)
Module Floating.

Definition tick : Z := 20000.

Definition io : Collab Z :=
  mkCollab Z
    (fun w _ s => ((repeat 255 (length w), None), s + tick * Z.of_nat (length w)))
    (fun _ s => ((255, None), s + tick))
    (fun _ s => s)
    (fun s => (s, s))
    (fun s => s).

Definition world (d : SPICard) : World (E := Z) := mkWorld d 0 [].

End Floating.

(** ** Specification-side definitions *)

(** The validity of a CSD image in the words of the specification: the
    CRC7 of bytes 0..14 equals bits 7:1 of byte 15, and bit 0 of byte 15
    is set. *)
Definition IsValid_spec (c : CSD) : bool :=
  Z.eqb (crc7_ref (firstn 15 (data c))) (Z.shiftr (at_ (data c) 15) 1)
  && Z.testbit (at_ (data c) 15) 0.

(** One bit of one byte of an image inverted: bit [j] of byte [i]. *)
Definition flip_bit (l : list Z) (i : nat) (j : Z) : list Z :=
  store i (Z.lxor (at_ l i) (Z.shiftl 1 j)) l.

(** What a change [m] of one byte does to the [CRC7] of a message that
    goes on for [k] more bytes. *)
Definition syndrome (k : nat) (m : Z) : Z :=
  fold_left crc7_step (repeat 0 k) (crc7_step 0 m).

(** The fields of the version 1 capacity formula, as the register layout
    names them. *)
Definition C_SIZE (c : CSD) : Z :=
  (at_ (data c) 6 mod 4) * 1024 + at_ (data c) 7 * 4 + at_ (data c) 8 / 64.

Definition C_SIZE_MULT (c : CSD) : Z :=
  (at_ (data c) 9 mod 4) * 2 + at_ (data c) 10 / 128.

Definition READ_BL_LEN (c : CSD) : Z := at_ (data c) 5 mod 16.

Definition capacity_v1_formula (c : CSD) : Z :=
  (C_SIZE c + 1) * 2 ^ (2 + C_SIZE_MULT c) * 2 ^ READ_BL_LEN c.

(** The six bytes of a command frame whose last byte is [crc]. *)
Definition frame (c arg crc : Z) : list Z :=
  [Z.lor 64 c; u8 (Z.shiftr arg 24); u8 (Z.shiftr arg 16);
   u8 (Z.shiftr arg 8); u8 arg; crc].

(** A transmission with no read slice, as a command frame is sent. *)
Definition is_frame (ev : event) : bool :=
  match ev with
  | EvTx _ None => true
  | _ => false
  end.

(** ** Assertions on runs *)

(** [post P m Q]: a run of [m] from a world in [P] that returns, returns
    a value and a world in [Q]. *)
Definition post {E A : Type} (P : @World E -> Prop) (m : @M E A)
  (Q : A -> @World E -> Prop) : Prop :=
  forall w, P w ->
  match m w with
  | Ret a w' => Q a w'
  | Panic => True
  | Spent => True
  end.

(** An assertion on the session alone. *)
Definition on_card {E : Type} (I : SPICard -> Prop) : @World E -> Prop :=
  fun w => I (card w).

(** A world whose trace is [t0] followed by events none of which is the
    transmission of a frame. *)
Definition quiet {E : Type} (t0 : list event) : @World E -> Prop :=
  fun w => exists l, trace w = t0 ++ l /\ forallb (fun ev => negb (is_frame ev)) l = true.

(** The identity of the card as the session records it. *)
Definition same_identity (k : CardKind) (n : Z) (d : SPICard) : Prop :=
  kind d = k /\ numblocks d = n.

Definition same_numblocks (n : Z) (d : SPICard) : Prop := numblocks d = n.

Definition v2_kind (d : SPICard) : Prop :=
  kind d = TypeSD2 \/ kind d = TypeSDHC.

(** What a successful [Init] leaves in the session. *)
Definition initialized (d : SPICard) : Prop :=
  v2_kind d
  /\ NumberOfBlocks (csd d) = Some (numblocks d)
  /\ 0 < numblocks d <= MaxUint32.

Definition any_card (d : SPICard) : Prop := True.

(** ** Well-formed sessions and the response poll *)

(** The array types of [SPICard]: [bufcmd [6]byte] and [buf [512]byte]. *)
Definition wf_card (d : SPICard) : Prop :=
  length (bufcmd d) = 6%nat /\ length (buf d) = 512%nat.

(** The bytes that [n] successive polls of [cmd] leave in the token
    slice, from the token [tok] and the collaborator state [e]: what
    arrives from the transport while [cmd] waits for a response. *)
Fixpoint poll_tokens {E : Type} (io : Collab E) (n : nat) (tok : Z) (e : E)
  : list Z :=
  match n with
  | O => []
  | S m =>
      let '((rx, _), e') := bus_Tx io [255] (Some [tok]) e in
      let t := nth 0 (received [tok] rx) tok in
      t :: poll_tokens io m t e'
  end.

(** The collaborator state in which the poll of [cmd] starts, from the
    state [e] in which the frame is handed to the bus. *)
Definition poll_start {E : Type} (io : Collab E) (c arg crc : Z) (e : E) : E :=
  let e1 := snd (bus_Tx io (frame c arg crc) None e) in
  if Z.eqb c 12 then snd (bus_Transfer io 255 e1) else e1.

(** No byte with a clear top bit arrives within the polling bound. *)
Definition no_response {E : Type} (io : Collab E) (c arg crc tok : Z) (e : E)
  : bool :=
  forallb (fun t => negb (Z.eqb (Z.land t 128) 0))
          (poll_tokens io (Z.to_nat 65535) tok (poll_start io c arg crc e)).

(** A transport that reports no error on a single-byte exchange. *)
Definition Transfer_never_fails {E : Type} (io : Collab E) : Prop :=
  forall b e, snd (fst (bus_Transfer io b e)) = None.

(** ** Test data and decidable checks *)

(** A session after a successful [Init] on a high-capacity card. *)
Definition card_ready : SPICard :=
  with_numblocks 7529000 (with_kind TypeSDHC (with_buf (repeat 255 512) NewSPICard)).

Definition block_512 : list Z := repeat 0 512.

(** The card's side of a block write that is accepted (data response
    0xE5), after which the card answers [after] and then stays busy. *)
Definition write_script (after : list (Z * option error)) : list (Z * option error) :=
  Sim.ok (Sim.answer 0 ++ [255] ++ repeat 255 512 ++ [255; 255] ++ [0xE5]) ++ after.

(** The card's side of an [Init] that ends at CMD8 with an illegal
    command flag: a version 1 card. *)
Definition init_v1_script : list (Z * option error) :=
  Sim.ok (repeat 255 522 ++ Sim.answer 1 ++ Sim.answer 5).

(** The card's side of a successful [Init] of a high-capacity card. *)
Definition csd_v2_img : list Z :=
  [0x40; 0x0E; 0x00; 0x32; 0x5B; 0x59; 0x00; 0x00;
   0x1D; 0x69; 0x7F; 0x80; 0x0A; 0x40; 0x00; 0x8B].

Definition init_sdhc_script : list (Z * option error) :=
  Sim.ok (repeat 255 522 ++ Sim.answer 1
          ++ Sim.answer 1 ++ [0; 0; 1; 0xAA]
          ++ Sim.answer 1 ++ Sim.answer 0
          ++ Sim.answer 0 ++ [0xC0; 0xFF; 0x80; 0]
          ++ Sim.answer 0
          ++ Sim.answer 0 ++ [0xFE] ++ repeat 3 16 ++ [0; 0]
          ++ Sim.answer 0 ++ [0xFE] ++ csd_v2_img ++ [0; 0]).

(** What is left of a run for inspection. *)
Definition result {E A : Type} (o : @outcome E A) : option A :=
  match o with
  | Ret a _ => Some a
  | _ => None
  end.

Definition final {E A : Type} (o : @outcome E A) : option (@World E) :=
  match o with
  | Ret _ w => Some w
  | _ => None
  end.


Definition range (n : nat) : list Z := map Z.of_nat (seq 0 n).

Definition bytesb (l : list Z) : bool :=
  forallb (fun b => (0 <=? b) && (b <? 256)) l.

(** A version 1 CSD image with a correct trailer: byte 15 is the CRC7 of
    bytes 0..14 in bits 7:1 and the reserved bit. *)
Definition csd_v1_img : CSD :=
  mkCSD [0x00; 0x26; 0x00; 0x32; 0x5F; 0x59; 0x83; 0xC8;
         0xAD; 0xDB; 0xCF; 0xFF; 0xD2; 0x40; 0x40; 0xA5].

(** A version 1 image with C_SIZE = 4095, C_SIZE_MULT = 7 and
    READ_BL_LEN = 11. *)
Definition csd_v1_4G : CSD :=
  mkCSD [0x00; 0x26; 0x00; 0x32; 0x5F; 0x5B; 0x83; 0xFF;
         0xFF; 0xFF; 0xFF; 0xFF; 0xD2; 0x40; 0x40; 0x01].


(** ** The remaining accessors of [sd/definitions.go] *)

(** [bytes.IndexByte(b, c)]: the index of the first [c] in [b], -1 when
    there is none. *)
Fixpoint IndexByte (b : list Z) (c : Z) : Z :=
  match b with
  | [] => -1
  | x :: t =>
      if Z.eqb x c then 0
      else let r := IndexByte t c in if r <? 0 then -1 else r + 1
  end.

Definition upToNull (buf : list Z) : list Z :=
  let nullIdx := IndexByte buf 0 in
  if nullIdx <? 0 then buf else firstn (Z.to_nat nullIdx) buf.

(** [CID.ProductName]: the bytes of the Go string. *)
Definition ProductName (c : CID) : list Z := upToNull (prodName c).

Definition ProductRevision (c : CID) : Z * Z :=
  (Z.shiftr (productRev c) 4, Z.land (productRev c) 15).

Definition RawCopy (c : CSD) : list Z := data c.

Definition CSD_TAAC (c : CSD) : Z := at_ (data c) 1.
Definition CSD_NSAC (c : CSD) : Z := at_ (data c) 2.
Definition CSD_TransferSpeed (c : CSD) : Z := at_ (data c) 3.

(** [uint16(c.data[4])<<4 | uint16(c.data[5]&0xf0)>>4] *)
Definition CommandClasses (c : CSD) : Z :=
  Z.lor (u16 (Z.shiftl (at_ (data c) 4) 4))
        (Z.shiftr (Z.land (at_ (data c) 5) 240) 4).

Definition bit_set (b : Z) (mask : Z) : bool := negb (Z.eqb (Z.land b mask) 0).

Definition AllowsReadBlockPartial (c : CSD) : bool := bit_set (at_ (data c) 6) 128.
Definition AllowsWriteBlockMisalignment (c : CSD) : bool := bit_set (at_ (data c) 6) 64.
Definition AllowsReadBlockMisalignment (c : CSD) : bool := bit_set (at_ (data c) 6) 32.
Definition ImplementsDSR (c : CSD) : bool := bit_set (at_ (data c) 6) 16.

(** [1 + ((c.data[10]&0b11_1111)<<1 | (c.data[11] >> 7))], in [uint8]. *)
Definition EraseSectorSizeInBlocks (c : CSD) : Z :=
  u8 (1 + Z.lor (u8 (Z.shiftl (Z.land (at_ (data c) 10) 63) 1))
                (Z.shiftr (at_ (data c) 11) 7)).

Definition EraseBlockEnabled (c : CSD) : bool :=
  negb (Z.eqb (Z.land (Z.shiftr (at_ (data c) 10) 6) 1) 0).

Definition ReadToWriteFactor (c : CSD) : Z :=
  Z.land (Z.shiftr (at_ (data c) 12) 2) 7.

(** [1 + (c.data[11] & 0b111_1111)], in [uint8]. *)
Definition WriteProtectGroupSizeInSectors (c : CSD) : Z :=
  u8 (1 + Z.land (at_ (data c) 11) 127).

(** [1 << ((c.data[12]&0b11)<<2 | (c.data[13] >> 6))], in [uint16] with a
    [uint8] shift count. *)
Definition WriteBlockLength (c : CSD) : Z :=
  u16 (Z.shiftl 1 (Z.lor (u8 (Z.shiftl (Z.land (at_ (data c) 12) 3) 2))
                         (Z.shiftr (at_ (data c) 13) 6))).

Definition WriteGroupEnabled (c : CSD) : bool := bit_set (at_ (data c) 12) 128.
Definition AllowsWritePartial (c : CSD) : bool := bit_set (at_ (data c) 13) 32.

(** [FileFormat(c.data[14]>>2) & 0b11] *)
Definition FileFormat (c : CSD) : Z := Z.land (Z.shiftr (at_ (data c) 14) 2) 3.

Definition TmpWriteProtected (c : CSD) : bool := bit_set (at_ (data c) 14) 16.
Definition PermWriteProtected (c : CSD) : bool := bit_set (at_ (data c) 14) 32.
Definition IsCopy (c : CSD) : bool := bit_set (at_ (data c) 14) 64.
Definition FileFormatGroup (c : CSD) : bool := bit_set (at_ (data c) 14) 128.

Definition VddReadCurrent (c : CSDv1) : Z * Z :=
  let d := data (v1_CSD c) in
  (Z.land (Z.shiftr (at_ d 8) 3) 7, Z.land (at_ d 8) 7).

Definition VddWriteCurrent (c : CSDv1) : Z * Z :=
  let d := data (v1_CSD c) in
  (Z.shiftr (at_ d 9) 5, Z.land (Z.shiftr (at_ d 9) 3) 7).

Definition CRCError (r : Z) : bool := negb (Z.eqb (Z.land r _R1_COM_CRC_ERROR) 0).
Definition EraseReset (r : Z) : bool := negb (Z.eqb (Z.land r _R1_ERASE_RESET) 0).
Definition EraseSeqError (r : Z) : bool :=
  negb (Z.eqb (Z.land r _R1_ERASE_SEQUENCE_ERROR) 0).
Definition AddressError (r : Z) : bool := negb (Z.eqb (Z.land r _R1_ADDRESS_ERROR) 0).
Definition ParamError (r : Z) : bool := negb (Z.eqb (Z.land r _R1_PARAMETER_ERROR) 0).

(** *** Text *)
Module Text.

Import Stdlib.Strings.String.
Local Open Scope string_scope.

(** [FileFormat.String] *)
Definition FileFormat_String (ff : Z) : string :=
  if Z.eqb ff 0 then "partition"
  else if Z.eqb ff 1 then "DOS/FAT"
  else if Z.eqb ff 2 then "UFF"
  else if Z.eqb ff 3 then "unknown"
  else "<invalid format>".

(** [b[:len(b)-1]] *)
Definition drop_last (b : string) : string := substring 0 (length b - 1) b.

(** [response1.appendf] *)
Definition appendf (r : Z) (b : string) : string :=
  let b := b ++ "[" in
  let b := if IsIdle r then b ++ "idle," else b in
  let b := if EraseReset r then b ++ "erase-rst," else b in
  let b := if EraseSeqError r then b ++ "erase-seq," else b in
  let b := if CRCError r then b ++ "crc-err," else b in
  let b := if AddressError r then b ++ "addr-err," else b in
  let b := if ParamError r then b ++ "param-err," else b in
  let b := if IllegalCmdError r then b ++ "illegal-cmd," else b in
  let b := if (1 <? length b)%nat then drop_last b else b in
  b ++ "]".

(** [response1.Response]: [appendf] on an empty slice. *)
Definition Response (r : Z) : string := appendf r "".

(** [response1Err.Error]: the first statement returns. *)
Definition Error (status : Z) : string := Response status.

(** The names of the flags set in [r], in the order [appendf] tests them. *)
Definition flag_names (r : Z) : list string :=
  (if Z.testbit r 0 then ["idle"] else [])
  ++ (if Z.testbit r 1 then ["erase-rst"] else [])
  ++ (if Z.testbit r 4 then ["erase-seq"] else [])
  ++ (if Z.testbit r 3 then ["crc-err"] else [])
  ++ (if Z.testbit r 5 then ["addr-err"] else [])
  ++ (if Z.testbit r 6 then ["param-err"] else [])
  ++ (if Z.testbit r 2 then ["illegal-cmd"] else []).

End Text.

(** *** The accessors of the session *)

Definition LastReadCRC (d : SPICard) : Z := lastCRC d.
Definition SPICard_NumberOfBlocks (d : SPICard) : Z := u64 (numblocks d).
Definition SPICard_CID (d : SPICard) : CID := cid d.
Definition SPICard_CSD (d : SPICard) : CSD := csd d.


(** The integers from [s] on, [n] of them. *)
Fixpoint zseq (s : Z) (n : nat) : list Z :=
  match n with
  | O => []
  | S m => s :: zseq (s + 1) m
  end.

(** *** Assertions on the scratch buffer and the last CRC *)

Definition same_lastCRC (x : Z) (d : SPICard) : Prop := lastCRC d = x.

(** What the block transfers leave alone. *)
Definition same_registers (d0 d : SPICard) : Prop :=
  kind d = kind d0 /\ numblocks d = numblocks d0 /\ cid d = cid d0
  /\ csd d = csd d0 /\ buf d = buf d0.

(** The scratch buffer while [Init] runs: 512 bytes, the first 496 of
    them 0xFF. *)
Definition scratch_ok (d : SPICard) : Prop :=
  length (buf d) = 512%nat /\ bytes (buf d)
  /\ firstn 496 (buf d) = repeat 255 496.

(** The CSD that was read last lies in the last 16 bytes of the scratch
    buffer. *)
Definition csd_in_scratch (d : SPICard) : Prop :=
  wf_CSD (csd d) /\ buf d = repeat 255 496 ++ data (csd d).

(** The card's side of a block read that is accepted: one idle byte, the
    start token, the block and its two CRC bytes. *)
Definition read_script (blk : list Z) (hi lo : Z) : list (Z * option error) :=
  Sim.ok (Sim.answer 0 ++ [255; 254] ++ blk ++ [hi; lo]).

(** *** The transmissions of [Init] *)

(** The transmission of a command frame. *)
Definition sent_frame (c arg crc : Z) : event := EvTx (frame c arg crc) None.

(** A world of card kind [k] whose trace is [t0] followed by events among
    which the transmissions with no read slice are [fs], in this order. *)
Definition progress {E : Type} (k : CardKind) (t0 fs : list event)
  : @World E -> Prop :=
  fun w => kind (card w) = k
           /\ exists l, trace w = t0 ++ l /\ filter is_frame l = fs.

(** What an [Init] that succeeds transmits: the two runs of dummy bytes,
    [k] times CMD0, CMD8, [m] times CMD55 and ACMD41 with the
    high-capacity bit, then CMD58, CMD16, CMD10 and CMD9. *)
Definition Init_frames (k m : nat) : list event :=
  [EvTx (repeat 255 10) None; EvTx (repeat 255 512) None]
  ++ repeat (sent_frame CMD0_GO_IDLE_STATE 0 149) k
  ++ [sent_frame CMD8_SEND_IF_COND 426 135]
  ++ concat (repeat [sent_frame CMD55_APP_CMD 0 255;
                     sent_frame ACMD41_SD_APP_OP_COND 1073741824 255] m)
  ++ [sent_frame CMD58_READ_OCR 0 255; sent_frame CMD16_SET_BLOCKLEN 512 255;
      sent_frame CMD10_SEND_CID 0 255; sent_frame CMD9_SEND_CSD 0 255].

(** Whether two R1 status bytes get the same answer from each of the
    seven flag methods. *)
Definition same_flags (r1 r2 : Z) : bool :=
  Bool.eqb (IsIdle r1) (IsIdle r2)
  && Bool.eqb (IllegalCmdError r1) (IllegalCmdError r2)
  && Bool.eqb (CRCError r1) (CRCError r2)
  && Bool.eqb (EraseReset r1) (EraseReset r2)
  && Bool.eqb (EraseSeqError r1) (EraseSeqError r2)
  && Bool.eqb (AddressError r1) (AddressError r2)
  && Bool.eqb (ParamError r1) (ParamError r2).
(** ** Exhaustive checks over bytes *)

Lemma in_range (n : nat) (x : Z) : 0 <= x < Z.of_nat n -> In x (range n).
Proof.
  intros H. unfold range. apply in_map_iff.
  exists (Z.to_nat x). split; [lia|]. apply in_seq. lia.
Qed.

Lemma forall_range (P : Z -> bool) (n : nat) :
  forallb P (range n) = true ->
  forall x, 0 <= x < Z.of_nat n -> P x = true.
Proof.
  intros H x Hx. rewrite forallb_forall in H. apply H, in_range, Hx.
Qed.

Lemma forall_range2 (P : Z -> Z -> bool) (n m : nat) :
  forallb (fun x => forallb (P x) (range m)) (range n) = true ->
  forall x y, 0 <= x < Z.of_nat n -> 0 <= y < Z.of_nat m -> P x y = true.
Proof.
  intros H x y Hx Hy.
  apply (forall_range (P x) m); [|exact Hy].
  apply (forall_range (fun x => forallb (P x) (range m)) n H x Hx).
Qed.

Lemma bytes_at (l : list Z) (i : nat) : bytes l -> is_byte (at_ l i).
Proof.
  intros H. unfold at_. destruct (Nat.lt_ge_cases i (length l)) as [Hi|Hi].
  - unfold bytes in H. rewrite Forall_forall in H. apply H, nth_In, Hi.
  - rewrite nth_overflow by exact Hi. unfold is_byte. lia.
Qed.

Lemma bytes_firstn (n : nat) (l : list Z) : bytes l -> bytes (firstn n l).
Proof.
  unfold bytes. revert n. induction l as [|a l IH]; intros n H.
  - destruct n; constructor.
  - destruct n as [|n]; simpl; [constructor|].
    inversion H; subst. constructor; [assumption | apply IH; assumption].
Qed.

(** ** The checksum engine *)

Lemma crc7_step_ref (r b : Z) :
  0 <= r < 128 -> is_byte b ->
  crc7_step (2 * r) b = 2 * crc7_ref_byte r b /\ 0 <= crc7_ref_byte r b < 128.
Proof.
  intros Hr Hb.
  pose (P := fun r b =>
               Z.eqb (crc7_step (2 * r) b) (2 * crc7_ref_byte r b)
               && (0 <=? crc7_ref_byte r b) && (crc7_ref_byte r b <? 128)).
  assert (H : P r b = true).
  { apply (forall_range2 P 128 256); [vm_compute; reflexivity | exact Hr | exact Hb]. }
  unfold P in H. apply andb_prop in H as [H H3]. apply andb_prop in H as [H1 H2].
  apply Z.eqb_eq in H1. apply Z.leb_le in H2. apply Z.ltb_lt in H3. lia.
Qed.

Lemma CRC7_fold_ref (l : list Z) :
  bytes l -> forall r, 0 <= r < 128 ->
  fold_left crc7_step l (2 * r) = 2 * fold_left crc7_ref_byte l r
  /\ 0 <= fold_left crc7_ref_byte l r < 128.
Proof.
  induction 1 as [|b l Hb Hl IH]; intros r Hr; cbn [fold_left].
  - lia.
  - destruct (crc7_step_ref r b Hr Hb) as [-> Hrange]. apply IH, Hrange.
Qed.

(** The table-driven [CRC7] is the reference CRC7 moved up by one bit:
    the 7-bit remainder sits in bits 7:1 of the byte it returns. *)
Lemma CRC7_left_aligned (l : list Z) :
  bytes l -> CRC7 l = 2 * crc7_ref l /\ 0 <= crc7_ref l < 128.
Proof.
  intros H. unfold CRC7, crc7_ref. apply (CRC7_fold_ref l H 0). lia.
Qed.

(** [IsValid] accepts exactly the images whose last byte is the
    left-aligned CRC7 with bit 7 forced to one. *)
Lemma IsValid_char (c : CSD) :
  IsValid c = true <->
  at_ (data c) 15 = Z.lor (CRC7 (firstn 15 (data c))) 128.
Proof.
  unfold IsValid. change (Z.shiftl 1 7) with 128. rewrite Z.eqb_eq.
  split; intros H; symmetry; exact H.
Qed.

(** An image that [IsValid] accepts has a clear reserved bit. *)
Lemma IsValid_always1_clear (c : CSD) :
  wf_CSD c -> IsValid c = true -> Z.testbit (at_ (data c) 15) 0 = false.
Proof.
  intros [_ Hb] H. apply IsValid_char in H. rewrite H.
  destruct (CRC7_left_aligned (firstn 15 (data c)) (bytes_firstn 15 _ Hb)) as [-> _].
  rewrite Z.lor_spec, Z.testbit_even_0. reflexivity.
Qed.

(** Every image that is valid in the words of the specification is
    rejected by [IsValid]. *)
Lemma IsValid_rejects_spec_valid (c : CSD) :
  wf_CSD c -> IsValid_spec c = true -> IsValid c = false.
Proof.
  intros Hwf Hs. unfold IsValid_spec in Hs. apply andb_prop in Hs as [_ Hbit].
  destruct (IsValid c) eqn:Hv; [|reflexivity].
  rewrite (IsValid_always1_clear c Hwf Hv) in Hbit. discriminate.
Qed.

(** C1, on the code: [IsValid] does not decide the condition of the
    claim.  The image [csd_v1_img] carries the CRC7 of bytes 0..14 (0x52)
    in bits 7:1 of byte 15 and has bit 0 of byte 15 set, and [IsValid]
    returns false on it; the image with byte 15 replaced by 0xA4, whose
    reserved bit is clear, is accepted. *)
Theorem IsValid_rejects_correct_trailer :
  crc7_ref (firstn 15 (data csd_v1_img)) = 0x52
  /\ Z.shiftr (at_ (data csd_v1_img) 15) 1 = 0x52
  /\ Z.testbit (at_ (data csd_v1_img) 15) 0 = true
  /\ IsValid_spec csd_v1_img = true
  /\ IsValid csd_v1_img = false
  /\ IsValid (mkCSD (firstn 15 (data csd_v1_img) ++ [0xA4])) = true.
Proof. vm_compute. repeat split; reflexivity. Qed.

(** *** Single-bit errors *)

Lemma crc7_step_linear (a b : Z) :
  is_byte a -> is_byte b ->
  crc7_step 0 (Z.lxor a b) = Z.lxor (crc7_step 0 a) (crc7_step 0 b)
  /\ is_byte (Z.lxor a b) /\ is_byte (crc7_step 0 a).
Proof.
  intros Ha Hb.
  pose (P := fun a b =>
               Z.eqb (crc7_step 0 (Z.lxor a b))
                     (Z.lxor (crc7_step 0 a) (crc7_step 0 b))
               && ((0 <=? Z.lxor a b) && (Z.lxor a b <? 256))
               && ((0 <=? crc7_step 0 a) && (crc7_step 0 a <? 256))).
  assert (H : P a b = true).
  { apply (forall_range2 P 256 256); [vm_compute; reflexivity | exact Ha | exact Hb]. }
  unfold P in H. apply andb_prop in H as [H H3]. apply andb_prop in H as [H1 H2].
  apply andb_prop in H2 as [H2 H2']. apply andb_prop in H3 as [H3 H3'].
  apply Z.eqb_eq in H1. apply Z.leb_le in H2, H3. apply Z.ltb_lt in H2', H3'.
  unfold is_byte. auto.
Qed.

Lemma crc7_step_table (s b : Z) : crc7_step s b = crc7_step 0 (Z.lxor s b).
Proof. unfold crc7_step. rewrite Z.lxor_0_l. reflexivity. Qed.

Lemma crc7_step_byte (s b : Z) : is_byte s -> is_byte b -> is_byte (crc7_step s b).
Proof.
  intros Hs Hb. rewrite crc7_step_table.
  destruct (crc7_step_linear s b Hs Hb) as [_ [Hx _]].
  apply (crc7_step_linear (Z.lxor s b) 0 Hx). unfold is_byte. lia.
Qed.

(** A change of the message byte and a change of the state both pass
    through a step as the table entry of the change. *)
Lemma crc7_step_change (s b m : Z) :
  is_byte s -> is_byte b -> is_byte m ->
  crc7_step s (Z.lxor b m) = Z.lxor (crc7_step s b) (crc7_step 0 m)
  /\ crc7_step (Z.lxor s m) b = Z.lxor (crc7_step s b) (crc7_step 0 m).
Proof.
  intros Hs Hb Hm.
  destruct (crc7_step_linear s b Hs Hb) as [_ [Hsb _]].
  destruct (crc7_step_linear (Z.lxor s b) m Hsb Hm) as [Hl _].
  rewrite (crc7_step_table s (Z.lxor b m)), (crc7_step_table (Z.lxor s m) b),
    (crc7_step_table s b).
  split.
  - rewrite <- Z.lxor_assoc. exact Hl.
  - rewrite <- Hl. f_equal.
    rewrite !Z.lxor_assoc. rewrite (Z.lxor_comm m b). reflexivity.
Qed.

Lemma syndrome_byte (k : nat) (m : Z) : is_byte m -> is_byte (syndrome k m).
Proof.
  unfold syndrome. intros Hm.
  assert (H0 : is_byte 0) by (unfold is_byte; lia).
  generalize (crc7_step_byte 0 m H0 Hm). generalize (crc7_step 0 m).
  induction k as [|k IH]; intros d Hd; cbn [repeat fold_left]; [exact Hd|].
  apply IH, crc7_step_byte; assumption.
Qed.

Lemma fold_crc7_state (l : list Z) :
  bytes l -> forall s d, is_byte s -> is_byte d ->
  fold_left crc7_step l (Z.lxor s d) =
  Z.lxor (fold_left crc7_step l s) (fold_left crc7_step (repeat 0 (length l)) d).
Proof.
  assert (H0 : is_byte 0) by (unfold is_byte; lia).
  induction 1 as [|b l Hb Hl IH]; intros s d Hs Hd;
    cbn [fold_left length repeat]; [reflexivity|].
  destruct (crc7_step_change s b d Hs Hb Hd) as [_ ->].
  rewrite IH; [|apply crc7_step_byte; assumption
               |apply crc7_step_byte; assumption].
  f_equal. f_equal. rewrite (crc7_step_table d 0), Z.lxor_0_r. reflexivity.
Qed.

Lemma fold_crc7_store (l : list Z) :
  bytes l -> forall i m s, (i < length l)%nat -> is_byte m -> is_byte s ->
  fold_left crc7_step (store i (Z.lxor (at_ l i) m) l) s =
  Z.lxor (fold_left crc7_step l s) (syndrome (length l - S i) m).
Proof.
  induction 1 as [|b l Hb Hl IH]; intros i m s Hi Hm Hs;
    cbn [length] in Hi; [lia|].
  destruct i as [|i].
  - unfold at_. cbn [store nth fold_left length].
    destruct (crc7_step_change s b m Hs Hb Hm) as [-> _].
    assert (H0 : is_byte 0) by (unfold is_byte; lia).
    rewrite fold_crc7_state;
      [|exact Hl | apply crc7_step_byte; assumption
       |apply crc7_step_byte; assumption].
    replace (S (length l) - 1)%nat with (length l) by lia. reflexivity.
  - unfold at_ in *. cbn [store nth fold_left length].
    rewrite IH; [|lia | exact Hm | apply crc7_step_byte; assumption].
    replace (S (length l) - S (S i))%nat with (length l - S i)%nat by lia.
    reflexivity.
Qed.

Lemma firstn_store (n i : nat) (v : Z) (l : list Z) :
  (i < n)%nat -> firstn n (store i v l) = store i v (firstn n l).
Proof.
  revert n i. induction l as [|h t IH]; intros n i Hi.
  - destruct n, i; reflexivity.
  - destruct n as [|n]; [lia|]. destruct i as [|i]; cbn; [reflexivity|].
    rewrite IH by lia. reflexivity.
Qed.

Lemma at_firstn (n i : nat) (l : list Z) :
  (i < n)%nat -> at_ (firstn n l) i = at_ l i.
Proof.
  unfold at_. revert n i. induction l as [|h t IH]; intros n i Hi.
  - destruct n, i; reflexivity.
  - destruct n as [|n]; [lia|]. destruct i as [|i]; cbn; [reflexivity|].
    apply IH. lia.
Qed.

Lemma at_store_other (i k : nat) (v : Z) (l : list Z) :
  i <> k -> at_ (store i v l) k = at_ l k.
Proof.
  unfold at_. revert i k. induction l as [|h t IH]; intros i k Hik.
  - destruct i; reflexivity.
  - destruct i as [|i], k as [|k]; cbn; try reflexivity; try lia.
    apply IH. lia.
Qed.

Lemma syndrome_detected (k : nat) (j x : Z) :
  (k < 15)%nat -> 0 <= j < 8 -> is_byte x ->
  Z.lor (Z.lxor x (syndrome k (Z.shiftl 1 j))) 128 <> Z.lor x 128.
Proof.
  intros Hk Hj Hx.
  pose (P := fun k x =>
               forallb (fun j =>
                 negb (Z.eqb (Z.lor (Z.lxor x (syndrome (Z.to_nat k) (Z.shiftl 1 j))) 128)
                             (Z.lor x 128))) (range 8)).
  assert (H : P (Z.of_nat k) x = true).
  { apply (forall_range2 P 15 256); [vm_compute; reflexivity | lia | exact Hx]. }
  unfold P in H. rewrite Nat2Z.id in H.
  pose (Q := fun j =>
               negb (Z.eqb (Z.lor (Z.lxor x (syndrome k (Z.shiftl 1 j))) 128)
                           (Z.lor x 128))).
  pose proof (forall_range Q 8 H j Hj) as Hq. unfold Q in Hq.
  apply negb_true_iff, Z.eqb_neq in Hq. exact Hq.
Qed.

(** The second half of C1 on the code: an image that [IsValid] accepts
    is rejected after any one bit of bytes 0..14 is inverted. *)
Lemma IsValid_detects_bit_flip (c : CSD) (i : nat) (j : Z) :
  wf_CSD c -> (i < 15)%nat -> 0 <= j < 8 ->
  IsValid c = true -> IsValid (mkCSD (flip_bit (data c) i j)) = false.
Proof.
  intros [Hlen Hb] Hi Hj Hv. apply IsValid_char in Hv.
  destruct (IsValid (mkCSD (flip_bit (data c) i j))) eqn:Hf; [|reflexivity].
  exfalso. apply IsValid_char in Hf. cbn [data] in Hf. unfold flip_bit in Hf.
  rewrite at_store_other in Hf by lia.
  rewrite firstn_store in Hf by exact Hi.
  rewrite <- (at_firstn 15 i) in Hf by exact Hi.
  assert (H0 : is_byte 0) by (unfold is_byte; lia).
  assert (Hm : is_byte (Z.shiftl 1 j)).
  { pose (P := fun j => (0 <=? Z.shiftl 1 j) && (Z.shiftl 1 j <? 256)).
    assert (H : P j = true).
    { apply (forall_range P 8); [vm_compute; reflexivity | exact Hj]. }
    unfold P in H. apply andb_prop in H as [H1 H2].
    apply Z.leb_le in H1. apply Z.ltb_lt in H2. split; assumption. }
  assert (Hl15 : length (firstn 15 (data c)) = 15%nat).
  { rewrite length_firstn. lia. }
  unfold CRC7 in Hf at 1.
  rewrite (fold_crc7_store _ (bytes_firstn 15 _ Hb) i _ 0) in Hf;
    [|lia | exact Hm | exact H0].
  fold (CRC7 (firstn 15 (data c))) in Hf. rewrite Hv in Hf.
  destruct (CRC7_left_aligned _ (bytes_firstn 15 _ Hb)) as [Hc Hr].
  symmetry in Hf. revert Hf. rewrite Hl15.
  apply syndrome_detected; [lia | exact Hj |].
  rewrite Hc. unfold is_byte. lia.
Qed.

(** C5, on the code: on the go-idle command body [CRC7] returns 0x94, the
    reference CRC 0x4A moved up by one bit, and the trailing byte that
    [putCmd] builds from it as [CRC7<<1|1] is 0x29, not 0x95. *)
Theorem CRC7_go_idle_trailer :
  crc7_ref [0x40; 0; 0; 0; 0] = 0x4A
  /\ CRC7 [0x40; 0; 0; 0; 0] = 0x94
  /\ putCmd (repeat 0 6) CMD0_GO_IDLE_STATE 0 = Some [0x40; 0; 0; 0; 0; 0x29]
  /\ Z.lor (CRC7 [0x40; 0; 0; 0; 0]) 1 = 0x95.
Proof. vm_compute. repeat split; reflexivity. Qed.

(** ** The log-scale table *)

Lemma index_log10table (i : Z) :
  0 <= i < 7 -> index log10table i = Some (10 ^ i).
Proof.
  intros H.
  pose (P := fun i => match index log10table i with
                      | Some v => Z.eqb v (10 ^ i)
                      | None => false
                      end).
  assert (Hc : P i = true).
  { apply (forall_range P 7); [vm_compute; reflexivity | exact H]. }
  unfold P in Hc. destruct (index log10table i); [|discriminate].
  apply Z.eqb_eq in Hc. congruence.
Qed.

(** Where the unit code is not 7 the rate and the access time are the
    powers of ten of the claim. *)
Lemma RateKilobits_in_table (t : Z) :
  is_byte t -> Z.land t 7 <> 7 ->
  RateKilobits t = Some (100 * 10 ^ Z.land t 7)
  /\ AccessTime t = Some (10 ^ Z.land t 7).
Proof.
  intros Ht H7.
  assert (Hr : 0 <= Z.land t 7 < 8).
  { change 7 with (Z.ones 3). rewrite Z.land_ones by lia.
    apply Z.mod_pos_bound. lia. }
  unfold RateKilobits, AccessTime.
  rewrite index_log10table by lia. split; f_equal; lia.
Qed.

(** Where the unit code is 7 the lookup is out of range. *)
Lemma RateKilobits_panics (t : Z) :
  Z.land t 7 = 7 -> RateKilobits t = None /\ AccessTime t = None.
Proof.
  intros H. unfold RateKilobits, AccessTime. rewrite H. split; reflexivity.
Qed.

(** C7, on the code: the table has the seven entries 10^0 .. 10^6 and
    the mask lets eight codes through; on a byte whose low three bits are
    all set, here 0x07 and 0x0F (a TAAC time unit of 10 ms), the lookup
    indexes the table at 7 and panics. *)
Theorem log10table_index_out_of_range :
  length log10table = 7%nat
  /\ RateKilobits 0x07 = None
  /\ AccessTime 0x0F = None
  /\ RateKilobits 0x32 = Some 10000.
Proof. vm_compute. repeat split; reflexivity. Qed.

(** ** The version 1 capacity *)

Lemma CSDv1_csize_field (c : CSD) :
  wf_CSD c -> CSDv1_csize (mkCSDv1 c) = C_SIZE c /\ 0 <= C_SIZE c < 4096.
Proof.
  intros [_ Hb].
  pose proof (bytes_at _ 6 Hb) as H6. pose proof (bytes_at _ 7 Hb) as H7.
  pose proof (bytes_at _ 8 Hb) as H8.
  unfold CSDv1_csize, C_SIZE, is_byte in *. cbn [v1_CSD].
  set (b6 := at_ (data c) 6) in *. set (b7 := at_ (data c) 7) in *.
  set (b8 := at_ (data c) 8) in *.
  change 3 with (Z.ones 2). rewrite Z.land_ones by lia.
  rewrite Z.shiftr_div_pow2 by lia. change (2 ^ 2) with 4. change (2 ^ 6) with 64.
  assert (Hx : 0 <= b6 mod 4 < 4) by (apply Z.mod_pos_bound; lia).
  assert (Hy : 0 <= b8 / 64 < 4).
  { split; [apply Z.div_pos; lia | apply Z.div_lt_upper_bound; lia]. }
  set (x := b6 mod 4) in *. set (y := b8 / 64) in *.
  pose (P := fun x b7 =>
               forallb (fun y =>
                 Z.eqb (Z.lor (Z.lor y (u16 (Z.shiftl b7 2))) (u16 (Z.shiftl x 10)))
                       (x * 1024 + b7 * 4 + y)) (range 4)).
  assert (H : P x b7 = true).
  { apply (forall_range2 P 4 256); [vm_compute; reflexivity | lia | lia]. }
  unfold P in H.
  pose (Q := fun y =>
               Z.eqb (Z.lor (Z.lor y (u16 (Z.shiftl b7 2))) (u16 (Z.shiftl x 10)))
                     (x * 1024 + b7 * 4 + y)).
  pose proof (forall_range Q 4 H y Hy) as Hxy. unfold Q in Hxy.
  apply Z.eqb_eq in Hxy. rewrite Hxy. lia.
Qed.

Lemma CSDv1_csizemult_field (c : CSD) :
  wf_CSD c ->
  CSDv1_csizemult (mkCSDv1 c) = C_SIZE_MULT c /\ 0 <= C_SIZE_MULT c < 8.
Proof.
  intros [_ Hb].
  pose proof (bytes_at _ 9 Hb) as H9. pose proof (bytes_at _ 10 Hb) as H10.
  unfold CSDv1_csizemult, C_SIZE_MULT, is_byte in *. cbn [v1_CSD].
  set (b9 := at_ (data c) 9) in *. set (b10 := at_ (data c) 10) in *.
  change 3 with (Z.ones 2). rewrite Z.land_ones by lia.
  rewrite Z.shiftr_div_pow2 by lia. change (2 ^ 2) with 4. change (2 ^ 7) with 128.
  assert (Hx : 0 <= b9 mod 4 < 4) by (apply Z.mod_pos_bound; lia).
  assert (Hy : 0 <= b10 / 128 < 2).
  { split; [apply Z.div_pos; lia | apply Z.div_lt_upper_bound; lia]. }
  set (x := b9 mod 4) in *. set (y := b10 / 128) in *.
  pose (P := fun x y => Z.eqb (Z.lor (u8 (Z.shiftl x 1)) y) (x * 2 + y)).
  assert (H : P x y = true).
  { apply (forall_range2 P 4 2); [vm_compute; reflexivity | lia | lia]. }
  unfold P in H. apply Z.eqb_eq in H. rewrite H. lia.
Qed.

Lemma ReadBlockLen_field (c : CSD) :
  wf_CSD c -> ReadBlockLen c = 2 ^ READ_BL_LEN c /\ 0 <= READ_BL_LEN c < 16.
Proof.
  intros [_ Hb]. pose proof (bytes_at _ 5 Hb) as H5.
  unfold ReadBlockLen, READ_BL_LEN, is_byte in *.
  set (b5 := at_ (data c) 5) in *.
  change 15 with (Z.ones 4). rewrite Z.land_ones by lia. change (2 ^ 4) with 16.
  assert (Hx : 0 <= b5 mod 16 < 16) by (apply Z.mod_pos_bound; lia).
  split; [|exact Hx].
  set (x := b5 mod 16) in *.
  pose (P := fun x => Z.eqb (u16 (Z.shiftl 1 x)) (2 ^ x)).
  assert (H : P x = true).
  { apply (forall_range P 16); [vm_compute; reflexivity | exact Hx]. }
  unfold P in H. apply Z.eqb_eq in H. exact H.
Qed.

Lemma CSDv1_mult_field (c : CSD) :
  wf_CSD c -> CSDv1_mult (mkCSDv1 c) = 2 ^ (2 + C_SIZE_MULT c).
Proof.
  intros Hwf. destruct (CSDv1_csizemult_field c Hwf) as [Hm Hr].
  unfold CSDv1_mult. rewrite Hm.
  set (x := C_SIZE_MULT c) in *.
  pose (P := fun x => Z.eqb (u16 (Z.shiftl 1 (u8 (2 + x)))) (2 ^ (2 + x))).
  assert (H : P x = true).
  { apply (forall_range P 8); [vm_compute; reflexivity | exact Hr]. }
  unfold P in H. apply Z.eqb_eq in H. exact H.
Qed.

(** The 32-bit capacity of [CSDv1.DeviceCapacity] is the formula taken
    modulo 2^32. *)
Lemma CSDv1_DeviceCapacity_mod (c : CSD) :
  wf_CSD c ->
  CSDv1_DeviceCapacity (mkCSDv1 c) = capacity_v1_formula c mod 2 ^ 32.
Proof.
  intros Hwf.
  destruct (CSDv1_csize_field c Hwf) as [Hs Hsr].
  destruct (ReadBlockLen_field c Hwf) as [Hl Hlr].
  unfold CSDv1_DeviceCapacity, capacity_v1_formula. cbn [v1_CSD].
  rewrite Hs, Hl, (CSDv1_mult_field c Hwf).
  unfold u32, u16. change 4294967296 with (2 ^ 32).
  rewrite (Z.mod_small (C_SIZE c + 1)) by lia.
  rewrite Z.mul_mod_idemp_l by lia. reflexivity.
Qed.

Lemma bytesb_ok (l : list Z) : bytesb l = true -> bytes l.
Proof.
  unfold bytesb, bytes. rewrite forallb_forall, Forall_forall.
  intros H x Hx. specialize (H x Hx). apply andb_prop in H as [H1 H2].
  apply Z.leb_le in H1. apply Z.ltb_lt in H2. split; assumption.
Qed.

Lemma capacity_v1_formula_nonneg (c : CSD) :
  wf_CSD c -> 0 <= capacity_v1_formula c.
Proof.
  intros Hwf.
  destruct (CSDv1_csize_field c Hwf) as [_ Hs].
  destruct (CSDv1_csizemult_field c Hwf) as [_ Hm].
  destruct (ReadBlockLen_field c Hwf) as [_ Hl].
  unfold capacity_v1_formula.
  repeat apply Z.mul_nonneg_nonneg; try lia; apply Z.pow_nonneg; lia.
Qed.

(** C6, as amended: on a version 1 image the decoded capacity is the
    formula (C_SIZE+1) * 2^(2+C_SIZE_MULT) * 2^READ_BL_LEN reduced modulo
    2^32, the width of the result of [CSDv1.DeviceCapacity]; it is the
    formula itself whenever that is below 2^32. *)
Theorem DeviceCapacity_v1 (c : CSD) :
  wf_CSD c -> CSDStructure c = 0 ->
  DeviceCapacity c = Some (capacity_v1_formula c mod 2 ^ 32)
  /\ (capacity_v1_formula c < 2 ^ 32 ->
      DeviceCapacity c = Some (capacity_v1_formula c)).
Proof.
  intros Hwf Hs.
  assert (H : DeviceCapacity c = Some (capacity_v1_formula c mod 2 ^ 32)).
  { unfold DeviceCapacity, MustV1. rewrite Hs. cbn [Z.eqb].
    rewrite (CSDv1_DeviceCapacity_mod c Hwf). reflexivity. }
  split; [exact H|].
  intros Hlt. rewrite H, Z.mod_small; [reflexivity|].
  split; [apply capacity_v1_formula_nonneg, Hwf | exact Hlt].
Qed.

Lemma DeviceCapacity_v1_witness :
  DeviceCapacity csd_v1_img = Some (capacity_v1_formula csd_v1_img mod 2 ^ 32)
  /\ (capacity_v1_formula csd_v1_img < 2 ^ 32 ->
      DeviceCapacity csd_v1_img = Some (capacity_v1_formula csd_v1_img)).
Proof.
  apply (DeviceCapacity_v1 csd_v1_img).
  - split; [reflexivity | apply bytesb_ok; reflexivity].
  - reflexivity.
Defined.

(** C6 as stated fails: on [csd_v1_4G] the formula is 2^32 and the
    decoded capacity is 0. *)
Lemma DeviceCapacity_v1_wraps :
  length (data csd_v1_4G) = 16%nat
  /\ CSDStructure csd_v1_4G = 0
  /\ (C_SIZE csd_v1_4G, C_SIZE_MULT csd_v1_4G, READ_BL_LEN csd_v1_4G) = (4095, 7, 11)
  /\ capacity_v1_formula csd_v1_4G = 4294967296
  /\ DeviceCapacity csd_v1_4G = Some 0
  /\ DeviceCapacity csd_v1_4G <> Some (capacity_v1_formula csd_v1_4G).
Proof. vm_compute. repeat split; try reflexivity. discriminate. Qed.

(** ** More on the checksum engine *)

(** X1: on every sequence of bytes the table-driven [CRC7] returns the
    7-bit remainder of the reference CRC7 (generator x^7 + x^3 + 1, zero
    initial value) in bits 7:1 of its byte, bit 0 clear. *)
Theorem CRC7_table_refines_reference (l : list Z) :
  bytes l -> CRC7 l = 2 * crc7_ref l /\ 0 <= crc7_ref l < 128.
Proof. exact (CRC7_left_aligned l). Qed.

Lemma CRC7_table_refines_reference_witness :
  CRC7 [0x48; 0; 0; 1; 0xAA] = 2 * crc7_ref [0x48; 0; 0; 1; 0xAA]
  /\ 0 <= crc7_ref [0x48; 0; 0; 1; 0xAA] < 128.
Proof.
  apply (CRC7_table_refines_reference [0x48; 0; 0; 1; 0xAA]).
  apply bytesb_ok. reflexivity.
Defined.

Lemma syndrome_nonzero (k : nat) (j : Z) :
  0 <= j < 8 -> syndrome k (Z.shiftl 1 j) <> 0.
Proof.
  intros Hj.
  pose (good := fun d => (0 <=? d) && (d <? 256) && negb (Z.eqb d 0) && Z.even d).
  assert (Hbase : good (crc7_step 0 (Z.shiftl 1 j)) = true).
  { pose (P := fun j => good (crc7_step 0 (Z.shiftl 1 j))).
    apply (forall_range P 8); [vm_compute; reflexivity | exact Hj]. }
  assert (Hstep : forall d, good d = true -> good (crc7_step d 0) = true).
  { intros d Hd.
    pose (P := fun d => implb (good d) (good (crc7_step d 0))).
    assert (H : P d = true).
    { apply (forall_range P 256); [vm_compute; reflexivity|].
      unfold good in Hd. apply andb_prop in Hd as [Hd _].
      apply andb_prop in Hd as [Hd _]. apply andb_prop in Hd as [H1 H2].
      apply Z.leb_le in H1. apply Z.ltb_lt in H2. lia. }
    unfold P in H. rewrite Hd in H. exact H. }
  assert (Hall : good (syndrome k (Z.shiftl 1 j)) = true).
  { unfold syndrome. revert Hbase. generalize (crc7_step 0 (Z.shiftl 1 j)).
    induction k as [|k IH]; intros d Hd; cbn [repeat fold_left]; [exact Hd|].
    apply IH, Hstep, Hd. }
  unfold good in Hall. apply andb_prop in Hall as [Hall _].
  apply andb_prop in Hall as [_ Hnz].
  apply negb_true_iff, Z.eqb_neq in Hnz. exact Hnz.
Qed.

Lemma shiftl_1_byte (j : Z) : 0 <= j < 8 -> is_byte (Z.shiftl 1 j).
Proof.
  intros Hj.
  pose (P := fun j => (0 <=? Z.shiftl 1 j) && (Z.shiftl 1 j <? 256)).
  assert (H : P j = true).
  { apply (forall_range P 8); [vm_compute; reflexivity | exact Hj]. }
  unfold P in H. apply andb_prop in H as [H1 H2].
  apply Z.leb_le in H1. apply Z.ltb_lt in H2. split; assumption.
Qed.

(** X2: [CRC7] detects every single-bit error: inverting one bit of one
    byte of a message of any length changes its [CRC7]. *)
Theorem CRC7_detects_single_bit (l : list Z) (i : nat) (j : Z) :
  bytes l -> (i < length l)%nat -> 0 <= j < 8 ->
  CRC7 (flip_bit l i j) <> CRC7 l.
Proof.
  intros Hb Hi Hj Heq.
  assert (H0 : is_byte 0) by (unfold is_byte; lia).
  unfold CRC7, flip_bit in Heq.
  rewrite (fold_crc7_store l Hb i _ 0 Hi (shiftl_1_byte j Hj) H0) in Heq.
  apply (syndrome_nonzero (length l - S i) j Hj).
  set (x := fold_left crc7_step l 0) in *.
  set (s := syndrome (length l - S i) (Z.shiftl 1 j)) in *.
  assert (Hs : Z.lxor x (Z.lxor x s) = s).
  { rewrite <- Z.lxor_assoc, Z.lxor_nilpotent, Z.lxor_0_l. reflexivity. }
  rewrite Heq, Z.lxor_nilpotent in Hs. symmetry. exact Hs.
Qed.

Lemma CRC7_detects_single_bit_witness :
  CRC7 (flip_bit [0x40; 0; 0; 0; 0] 3 5) <> CRC7 [0x40; 0; 0; 0; 0].
Proof.
  apply (CRC7_detects_single_bit [0x40; 0; 0; 0; 0] 3 5).
  - apply bytesb_ok. reflexivity.
  - simpl. lia.
  - lia.
Defined.

Lemma high_bit_u16 (a n : Z) : 0 <= a < 65536 -> 16 <= n -> Z.testbit a n = false.
Proof.
  intros Ha Hn. rewrite <- (Z.mod_small a (2 ^ 16)) by lia.
  apply Z.mod_pow2_bits_high. lia.
Qed.

Lemma lxor_u16 (a b : Z) :
  0 <= a < 65536 -> 0 <= b < 65536 -> 0 <= Z.lxor a b < 65536.
Proof.
  intros Ha Hb.
  assert (H : Z.lxor a b = Z.lxor a b mod 2 ^ 16).
  { apply Z.bits_inj'. intros n Hn.
    destruct (Z.lt_ge_cases n 16) as [Hlt|Hge].
    - rewrite Z.mod_pow2_bits_low by lia. reflexivity.
    - rewrite Z.mod_pow2_bits_high by lia.
      rewrite Z.lxor_spec, (high_bit_u16 a n Ha Hge), (high_bit_u16 b n Hb Hge).
      reflexivity. }
  rewrite H. apply Z.mod_pos_bound. lia.
Qed.

Lemma crc16_bit_range (c : Z) : 0 <= crc16_bit c < 65536.
Proof.
  unfold crc16_bit.
  assert (Hu : 0 <= u16 (Z.shiftl c 1) < 65536).
  { unfold u16. apply Z.mod_pos_bound. lia. }
  destruct (Z.land c 32768 =? 0); [exact Hu|].
  apply lxor_u16; [exact Hu | lia].
Qed.

Lemma crc16_step_range (c b : Z) : 0 <= crc16_step c b < 65536.
Proof. unfold crc16_step. apply crc16_bit_range. Qed.

Lemma CRC16_range (l : list Z) : 0 <= CRC16 l < 65536.
Proof.
  unfold CRC16.
  assert (H : forall c, 0 <= c < 65536 -> 0 <= fold_left crc16_step l c < 65536).
  { induction l as [|b l IH]; intros c Hc; cbn [fold_left]; [exact Hc|].
    apply IH, crc16_step_range. }
  apply H. lia.
Qed.

Lemma in_zseq (n : nat) : forall s x, s <= x < s + Z.of_nat n -> In x (zseq s n).
Proof.
  induction n as [|n IH]; intros s x Hx; [lia|].
  cbn [zseq]. destruct (Z.eq_dec s x) as [->|Hne]; [left; reflexivity|].
  right. apply IH. lia.
Qed.

Lemma forall_zseq (P : Z -> bool) (n : nat) :
  forallb P (zseq 0 n) = true ->
  forall x, 0 <= x < Z.of_nat n -> P x = true.
Proof.
  intros H x Hx. rewrite forallb_forall in H. apply H, in_zseq. lia.
Qed.

(** X3: a message followed by its [CRC16], high byte first, has the
    [CRC16] zero: the check a receiver of the 2-byte trailer would make. *)
Theorem CRC16_of_message_and_trailer (m : list Z) :
  CRC16 (m ++ [Z.shiftr (CRC16 m) 8; Z.land (CRC16 m) 255]) = 0.
Proof.
  pose proof (CRC16_range m) as Hr.
  unfold CRC16 in *. rewrite fold_left_app. cbn [fold_left].
  set (c := fold_left crc16_step m 0) in *.
  pose (P := fun c =>
               Z.eqb (crc16_step (crc16_step c (Z.shiftr c 8)) (Z.land c 255)) 0).
  assert (H : P c = true).
  { apply (forall_zseq P (Z.to_nat 65536)); [vm_compute; reflexivity | lia]. }
  unfold P in H. apply Z.eqb_eq in H. exact H.
Qed.

(** ** More on the register decoder *)

Lemma lor_low_add (hi lo n : Z) :
  0 <= n -> 0 <= lo < 2 ^ n -> Z.lor (hi * 2 ^ n) lo = hi * 2 ^ n + lo.
Proof.
  intros Hn Hlo.
  assert (H : Z.land (hi * 2 ^ n) lo = 0).
  { apply Z.bits_inj'. intros i Hi. rewrite Z.land_spec, Z.bits_0.
    destruct (Z.lt_ge_cases i n) as [Hlt|Hge].
    - rewrite Z.mul_pow2_bits_low by lia. reflexivity.
    - rewrite <- (Z.mod_small lo (2 ^ n)) by lia.
      rewrite Z.mod_pow2_bits_high by lia. apply andb_false_r. }
  rewrite <- Z.lxor_lor by exact H. symmetry. apply Z.add_nocarry_lxor, H.
Qed.

(** X4: [DecodeCID] refuses a slice shorter than 16 bytes with
    [io.ErrShortBuffer] and the zero CID; on 16 bytes or more it returns
    no error, the OEM id is the big-endian value of bytes 1..2 and the
    serial number the big-endian value of bytes 9..12, and the other
    fields are bytes 0, 3..7, 8 and 13..14. *)
Theorem DecodeCID_fields (b : list Z) :
  bytes b ->
  ((length b < 16)%nat -> DecodeCID b = (CID_zero, Some ErrShortBuffer))
  /\ ((16 <= length b)%nat ->
      snd (DecodeCID b) = None
      /\ ManufacturerID (fst (DecodeCID b)) = at_ b 0
      /\ OEMApplicationID (fst (DecodeCID b)) = at_ b 1 * 256 + at_ b 2
      /\ prodName (fst (DecodeCID b)) = [at_ b 3; at_ b 4; at_ b 5; at_ b 6; at_ b 7]
      /\ productRev (fst (DecodeCID b)) = at_ b 8
      /\ ProductSerialNumber (fst (DecodeCID b)) =
         at_ b 9 * 16777216 + at_ b 10 * 65536 + at_ b 11 * 256 + at_ b 12
      /\ date (fst (DecodeCID b)) = [at_ b 13; at_ b 14]
      /\ 0 <= OEMApplicationID (fst (DecodeCID b)) < 65536
      /\ 0 <= ProductSerialNumber (fst (DecodeCID b)) < 4294967296).
Proof.
  intros Hb. unfold DecodeCID. split; intros Hl.
  - apply Nat.ltb_lt in Hl. rewrite Hl. reflexivity.
  - apply Nat.ltb_ge in Hl. rewrite Hl. cbn [fst snd ManufacturerID
      OEMApplicationID prodName productRev ProductSerialNumber date].
    pose proof (bytes_at b 1 Hb) as H1. pose proof (bytes_at b 2 Hb) as H2.
    pose proof (bytes_at b 9 Hb) as H9. pose proof (bytes_at b 10 Hb) as H10.
    pose proof (bytes_at b 11 Hb) as H11. pose proof (bytes_at b 12 Hb) as H12.
    unfold is_byte in *.
    assert (Hoem : Z.lor (Z.shiftl (at_ b 1) 8) (at_ b 2) = at_ b 1 * 256 + at_ b 2).
    { rewrite Z.shiftl_mul_pow2 by lia.
      pose proof (lor_low_add (at_ b 1) (at_ b 2) 8) as E.
      change (2 ^ 8) with 256 in *. apply E; lia. }
    assert (Hser : Z.lor (Z.lor (Z.lor (Z.shiftl (at_ b 9) 24) (Z.shiftl (at_ b 10) 16))
                               (Z.shiftl (at_ b 11) 8)) (at_ b 12)
                   = at_ b 9 * 16777216 + at_ b 10 * 65536 + at_ b 11 * 256 + at_ b 12).
    { rewrite !Z.shiftl_mul_pow2 by lia.
      change (2 ^ 24) with 16777216. change (2 ^ 16) with 65536.
      change (2 ^ 8) with 256.
      pose proof (lor_low_add (at_ b 9) (at_ b 10 * 65536) 24) as E1.
      change (2 ^ 24) with 16777216 in E1. rewrite E1 by lia.
      pose proof (lor_low_add (at_ b 9 * 256 + at_ b 10) (at_ b 11 * 256) 16) as E2.
      change (2 ^ 16) with 65536 in E2.
      replace (at_ b 9 * 16777216 + at_ b 10 * 65536)
        with ((at_ b 9 * 256 + at_ b 10) * 65536) by lia.
      rewrite E2 by lia.
      pose proof (lor_low_add (at_ b 9 * 65536 + at_ b 10 * 256 + at_ b 11)
                    (at_ b 12) 8) as E3.
      change (2 ^ 8) with 256 in E3.
      replace ((at_ b 9 * 256 + at_ b 10) * 65536 + at_ b 11 * 256)
        with ((at_ b 9 * 65536 + at_ b 10 * 256 + at_ b 11) * 256) by lia.
      rewrite E3 by lia. lia. }
    rewrite Hoem, Hser. repeat split; try reflexivity; lia.
Qed.

Lemma DecodeCID_fields_witness :
  DecodeCID [1; 2; 3] = (CID_zero, Some ErrShortBuffer)
  /\ (snd (DecodeCID (data csd_v1_img)) = None
      /\ ManufacturerID (fst (DecodeCID (data csd_v1_img))) = at_ (data csd_v1_img) 0
      /\ OEMApplicationID (fst (DecodeCID (data csd_v1_img)))
         = at_ (data csd_v1_img) 1 * 256 + at_ (data csd_v1_img) 2
      /\ prodName (fst (DecodeCID (data csd_v1_img)))
         = [at_ (data csd_v1_img) 3; at_ (data csd_v1_img) 4; at_ (data csd_v1_img) 5;
            at_ (data csd_v1_img) 6; at_ (data csd_v1_img) 7]
      /\ productRev (fst (DecodeCID (data csd_v1_img))) = at_ (data csd_v1_img) 8
      /\ ProductSerialNumber (fst (DecodeCID (data csd_v1_img))) =
         at_ (data csd_v1_img) 9 * 16777216 + at_ (data csd_v1_img) 10 * 65536
         + at_ (data csd_v1_img) 11 * 256 + at_ (data csd_v1_img) 12
      /\ date (fst (DecodeCID (data csd_v1_img)))
         = [at_ (data csd_v1_img) 13; at_ (data csd_v1_img) 14]
      /\ 0 <= OEMApplicationID (fst (DecodeCID (data csd_v1_img))) < 65536
      /\ 0 <= ProductSerialNumber (fst (DecodeCID (data csd_v1_img))) < 4294967296).
Proof.
  split.
  - apply (proj1 (DecodeCID_fields [1; 2; 3] (bytesb_ok [1; 2; 3] eq_refl))).
    cbn [length]. lia.
  - apply (proj2 (DecodeCID_fields (data csd_v1_img) (bytesb_ok (data csd_v1_img) eq_refl))).
    simpl. lia.
Defined.

Lemma IndexByte_spec (c : Z) (b : list Z) :
  (IndexByte b c = -1 /\ ~ In c b)
  \/ (exists pre post,
        b = pre ++ c :: post /\ ~ In c pre
        /\ IndexByte b c = Z.of_nat (length pre)).
Proof.
  induction b as [|x t IH]; cbn [IndexByte].
  - left. split; [reflexivity | intros []].
  - destruct (Z.eqb_spec x c) as [->|Hne].
    + right. exists [], t. repeat split. intros [].
    + destruct IH as [[Hi Hn]|[pre [post [Hb [Hn Hi]]]]].
      * left. rewrite Hi. split; [reflexivity|].
        intros [H|H]; [congruence | exact (Hn H)].
      * right. exists (x :: pre), post. rewrite Hi.
        destruct (Z.ltb_spec (Z.of_nat (length pre)) 0) as [Hlt|Hge]; [lia|].
        repeat split.
        -- rewrite Hb. reflexivity.
        -- intros [H|H]; [congruence | exact (Hn H)].
        -- cbn [length]. lia.
Qed.

(** X5: [upToNull], and so [CID.ProductName], returns the longest prefix
    of the slice that holds no NUL: what follows it is nothing or starts
    with a NUL. *)
Theorem upToNull_longest_prefix (buf : list Z) :
  ~ In 0 (upToNull buf)
  /\ exists rest,
       buf = upToNull buf ++ rest
       /\ (rest = [] \/ exists t, rest = 0 :: t).
Proof.
  unfold upToNull.
  destruct (IndexByte_spec 0 buf) as [[Hi Hn]|[pre [post [Hb [Hn Hi]]]]].
  - rewrite Hi. cbn. split; [exact Hn|].
    exists []. rewrite app_nil_r. split; [reflexivity | left; reflexivity].
  - rewrite Hi.
    destruct (Z.ltb_spec (Z.of_nat (length pre)) 0) as [Hlt|Hge]; [lia|].
    rewrite Nat2Z.id, Hb.
    assert (Hf : firstn (length pre) (pre ++ 0 :: post) = pre).
    { rewrite firstn_app, Nat.sub_diag, firstn_all. cbn. apply app_nil_r. }
    rewrite Hf. split; [exact Hn|].
    exists (0 :: post). split; [reflexivity | right; exists post; reflexivity].
Qed.

(** X6: [CID.ProductRevision] splits the revision byte into its two
    nibbles without loss: n * 16 + m is the byte. *)
Theorem ProductRevision_nibbles (c : CID) :
  is_byte (productRev c) ->
  fst (ProductRevision c) * 16 + snd (ProductRevision c) = productRev c
  /\ 0 <= fst (ProductRevision c) < 16
  /\ 0 <= snd (ProductRevision c) < 16.
Proof.
  intros Hb. unfold ProductRevision. cbn [fst snd].
  set (r := productRev c) in *.
  pose (P := fun r =>
               Z.eqb (Z.shiftr r 4 * 16 + Z.land r 15) r
               && ((0 <=? Z.shiftr r 4) && (Z.shiftr r 4 <? 16))
               && ((0 <=? Z.land r 15) && (Z.land r 15 <? 16))).
  assert (H : P r = true).
  { apply (forall_range P 256); [vm_compute; reflexivity | exact Hb]. }
  unfold P in H. apply andb_prop in H as [H H3]. apply andb_prop in H as [H1 H2].
  apply andb_prop in H2 as [H2 H2']. apply andb_prop in H3 as [H3 H3'].
  apply Z.eqb_eq in H1. apply Z.leb_le in H2, H3. apply Z.ltb_lt in H2', H3'.
  auto.
Qed.

Lemma ProductRevision_nibbles_witness :
  fst (ProductRevision (fst (DecodeCID (data csd_v1_img)))) * 16
  + snd (ProductRevision (fst (DecodeCID (data csd_v1_img))))
  = productRev (fst (DecodeCID (data csd_v1_img)))
  /\ 0 <= fst (ProductRevision (fst (DecodeCID (data csd_v1_img)))) < 16
  /\ 0 <= snd (ProductRevision (fst (DecodeCID (data csd_v1_img)))) < 16.
Proof.
  apply (ProductRevision_nibbles (fst (DecodeCID (data csd_v1_img)))).
  vm_compute. split; [discriminate | reflexivity].
Defined.

Lemma bytes_firstn_length (n : nat) (l : list Z) :
  (n <= length l)%nat -> length (firstn n l) = n.
Proof. intros H. rewrite length_firstn. lia. Qed.

(** X7: [DecodeCSD] on 16 bytes or more returns no error and keeps the
    first 16 bytes; [RawCopy] gives them back, and decoding the copy again
    gives the same CSD. *)
Theorem DecodeCSD_RawCopy (b : list Z) :
  (16 <= length b)%nat -> bytes b ->
  snd (DecodeCSD b) = None
  /\ RawCopy (fst (DecodeCSD b)) = firstn 16 b
  /\ wf_CSD (fst (DecodeCSD b))
  /\ DecodeCSD (RawCopy (fst (DecodeCSD b))) = (fst (DecodeCSD b), None).
Proof.
  intros Hl Hb.
  assert (E : DecodeCSD b = (mkCSD (firstn 16 b), None)).
  { unfold DecodeCSD. apply Nat.ltb_ge in Hl. rewrite Hl. reflexivity. }
  rewrite E. cbn [fst snd]. unfold RawCopy. cbn [data].
  pose proof (bytes_firstn_length 16 b Hl) as H16.
  split; [reflexivity|]. split; [reflexivity|]. split.
  - split; [exact H16 | apply bytes_firstn, Hb].
  - unfold DecodeCSD. rewrite H16. cbn [Nat.ltb Nat.leb].
    rewrite firstn_all2 by lia. reflexivity.
Qed.

Lemma DecodeCSD_RawCopy_witness :
  snd (DecodeCSD (csd_v2_img ++ [0; 0])) = None
  /\ RawCopy (fst (DecodeCSD (csd_v2_img ++ [0; 0]))) = firstn 16 (csd_v2_img ++ [0; 0])
  /\ wf_CSD (fst (DecodeCSD (csd_v2_img ++ [0; 0])))
  /\ DecodeCSD (RawCopy (fst (DecodeCSD (csd_v2_img ++ [0; 0]))))
     = (fst (DecodeCSD (csd_v2_img ++ [0; 0])), None).
Proof.
  apply (DecodeCSD_RawCopy (csd_v2_img ++ [0; 0])).
  - simpl. lia.
  - apply bytesb_ok. reflexivity.
Defined.

Lemma DeviceCapacity_total (c : CSD) :
  exists cap, DeviceCapacity c = Some cap /\ 0 <= cap.
Proof.
  unfold DeviceCapacity, MustV1, MustV2.
  destruct (CSDStructure c =? 0).
  - eexists. split; [reflexivity|].
    unfold CSDv1_DeviceCapacity, u32. apply Z.mod_pos_bound. lia.
  - destruct (CSDStructure c =? 1).
    + eexists. split; [reflexivity|].
      unfold CSDv2_DeviceCapacity, u64. apply Z.mod_pos_bound. lia.
    + exists 0. split; [reflexivity | lia].
Qed.

Lemma NumberOfBlocks_div (c : CSD) :
  wf_CSD c ->
  exists cap,
    DeviceCapacity c = Some cap
    /\ 1 <= ReadBlockLen c <= 32768
    /\ NumberOfBlocks c = Some (cap / ReadBlockLen c)
    /\ 0 <= cap / ReadBlockLen c <= cap.
Proof.
  intros Hwf.
  destruct (DeviceCapacity_total c) as [cap [Hc Hpos]].
  destruct (ReadBlockLen_field c Hwf) as [Hl Hr].
  assert (Hlen : 1 <= ReadBlockLen c <= 32768).
  { rewrite Hl. change 32768 with (2 ^ 15). change 1 with (2 ^ 0) at 1.
    split; apply Z.pow_le_mono_r; lia. }
  exists cap. split; [exact Hc|]. split; [exact Hlen|].
  unfold NumberOfBlocks. rewrite Hc.
  destruct (Z.eqb_spec (ReadBlockLen c) 0) as [H0|_]; [lia|].
  split; [reflexivity|]. split.
  - apply Z.div_pos; lia.
  - apply Z.div_le_upper_bound; [lia|]. nia.
Qed.

(** X8: on a 16-byte image [CSD.DeviceCapacity] and [CSD.NumberOfBlocks]
    never panic, although [MustV1] and [MustV2] can; the read block
    length is a power of two from 1 to 32768, never 0, so the number of
    blocks is always the capacity divided by it. *)
Theorem NumberOfBlocks_is_capacity_by_block_length (c : CSD) :
  wf_CSD c ->
  exists cap,
    DeviceCapacity c = Some cap
    /\ 1 <= ReadBlockLen c <= 32768
    /\ NumberOfBlocks c = Some (cap / ReadBlockLen c)
    /\ 0 <= cap / ReadBlockLen c <= cap.
Proof.
  exact (NumberOfBlocks_div c).
Qed.

Lemma NumberOfBlocks_is_capacity_by_block_length_witness :
  exists cap,
    DeviceCapacity csd_v1_img = Some cap
    /\ 1 <= ReadBlockLen csd_v1_img <= 32768
    /\ NumberOfBlocks csd_v1_img = Some (cap / ReadBlockLen csd_v1_img)
    /\ 0 <= cap / ReadBlockLen csd_v1_img <= cap.
Proof.
  apply (NumberOfBlocks_is_capacity_by_block_length csd_v1_img).
  split; [reflexivity | apply bytesb_ok; reflexivity].
Defined.


Lemma CSDStructure_range (c : CSD) : wf_CSD c -> 0 <= CSDStructure c < 4.
Proof.
  intros [_ Hb]. pose proof (bytes_at _ 0 Hb) as H0.
  unfold CSDStructure, is_byte in *. rewrite Z.shiftr_div_pow2 by lia.
  change (2 ^ 6) with 64.
  split; [apply Z.div_pos; lia | apply Z.div_lt_upper_bound; lia].
Qed.



(** X10: the two CSD fields that straddle a byte boundary upward: the
    command classes are the 12-bit number made of byte 4 and the high
    nibble of byte 5, and the write block length is 2 to the 4-bit number
    made of the low two bits of byte 12 and the high two bits of byte 13;
    neither wraps in its Go type. *)
Theorem CSD_straddling_fields (c : CSD) :
  wf_CSD c ->
  CommandClasses c = at_ (data c) 4 * 16 + at_ (data c) 5 / 16
  /\ 0 <= CommandClasses c < 4096
  /\ WriteBlockLength c = 2 ^ ((at_ (data c) 12 mod 4) * 4 + at_ (data c) 13 / 64)
  /\ 1 <= WriteBlockLength c <= 32768.
Proof.
  intros [_ Hb].
  pose proof (bytes_at _ 4 Hb) as H4. pose proof (bytes_at _ 5 Hb) as H5.
  pose proof (bytes_at _ 12 Hb) as H12. pose proof (bytes_at _ 13 Hb) as H13.
  unfold CommandClasses, WriteBlockLength.
  set (b4 := at_ (data c) 4) in *. set (b5 := at_ (data c) 5) in *.
  set (b12 := at_ (data c) 12) in *. set (b13 := at_ (data c) 13) in *.
  pose (P := fun b4 b5 =>
               let v := Z.lor (u16 (Z.shiftl b4 4)) (Z.shiftr (Z.land b5 240) 4) in
               Z.eqb v (b4 * 16 + b5 / 16) && ((0 <=? v) && (v <? 4096))).
  assert (HP : P b4 b5 = true).
  { apply (forall_range2 P 256 256); [vm_compute; reflexivity | exact H4 | exact H5]. }
  pose (Q := fun b12 b13 =>
               let v := u16 (Z.shiftl 1 (Z.lor (u8 (Z.shiftl (Z.land b12 3) 2))
                                               (Z.shiftr b13 6))) in
               Z.eqb v (2 ^ ((b12 mod 4) * 4 + b13 / 64))
               && ((1 <=? v) && (v <=? 32768))).
  assert (HQ : Q b12 b13 = true).
  { apply (forall_range2 Q 256 256); [vm_compute; reflexivity | exact H12 | exact H13]. }
  unfold P in HP. unfold Q in HQ. cbv zeta in HP, HQ.
  apply andb_prop in HP as [HP1 HP2]. apply andb_prop in HP2 as [HP2 HP3].
  apply andb_prop in HQ as [HQ1 HQ2]. apply andb_prop in HQ2 as [HQ2 HQ3].
  apply Z.eqb_eq in HP1, HQ1. apply Z.leb_le in HP2, HQ2, HQ3.
  apply Z.ltb_lt in HP3.
  repeat split; assumption.
Qed.

Lemma CSD_straddling_fields_witness :
  CommandClasses csd_v1_img = at_ (data csd_v1_img) 4 * 16 + at_ (data csd_v1_img) 5 / 16
  /\ 0 <= CommandClasses csd_v1_img < 4096
  /\ WriteBlockLength csd_v1_img
     = 2 ^ ((at_ (data csd_v1_img) 12 mod 4) * 4 + at_ (data csd_v1_img) 13 / 64)
  /\ 1 <= WriteBlockLength csd_v1_img <= 32768.
Proof.
  apply (CSD_straddling_fields csd_v1_img).
  split; [reflexivity | apply bytesb_ok; reflexivity].
Defined.

(** X11: the two sizes the register stores less one: the erase sector
    size is 1 plus the 7-bit number made of the low six bits of byte 10
    and the top bit of byte 11, the write protect group size 1 plus the
    low seven bits of byte 11; both lie between 1 and 128, so the [uint8]
    addition never wraps to 0. *)
Theorem CSD_sizes_stored_less_one (c : CSD) :
  wf_CSD c ->
  EraseSectorSizeInBlocks c = 1 + (at_ (data c) 10 mod 64) * 2 + at_ (data c) 11 / 128
  /\ 1 <= EraseSectorSizeInBlocks c <= 128
  /\ WriteProtectGroupSizeInSectors c = 1 + at_ (data c) 11 mod 128
  /\ 1 <= WriteProtectGroupSizeInSectors c <= 128.
Proof.
  intros [_ Hb].
  pose proof (bytes_at _ 10 Hb) as H10. pose proof (bytes_at _ 11 Hb) as H11.
  unfold EraseSectorSizeInBlocks, WriteProtectGroupSizeInSectors.
  set (b10 := at_ (data c) 10) in *. set (b11 := at_ (data c) 11) in *.
  pose (P := fun b10 b11 =>
               let v := u8 (1 + Z.lor (u8 (Z.shiftl (Z.land b10 63) 1)) (Z.shiftr b11 7)) in
               let w := u8 (1 + Z.land b11 127) in
               Z.eqb v (1 + (b10 mod 64) * 2 + b11 / 128)
               && ((1 <=? v) && (v <=? 128))
               && (Z.eqb w (1 + b11 mod 128) && ((1 <=? w) && (w <=? 128)))).
  assert (HP : P b10 b11 = true).
  { apply (forall_range2 P 256 256); [vm_compute; reflexivity | exact H10 | exact H11]. }
  unfold P in HP. cbv zeta in HP.
  apply andb_prop in HP as [HP HW]. apply andb_prop in HP as [HP1 HP2].
  apply andb_prop in HP2 as [HP2 HP3]. apply andb_prop in HW as [HW1 HW2].
  apply andb_prop in HW2 as [HW2 HW3].
  apply Z.eqb_eq in HP1, HW1. apply Z.leb_le in HP2, HP3, HW2, HW3.
  repeat split; assumption.
Qed.

Lemma CSD_sizes_stored_less_one_witness :
  EraseSectorSizeInBlocks csd_v1_img
  = 1 + (at_ (data csd_v1_img) 10 mod 64) * 2 + at_ (data csd_v1_img) 11 / 128
  /\ 1 <= EraseSectorSizeInBlocks csd_v1_img <= 128
  /\ WriteProtectGroupSizeInSectors csd_v1_img = 1 + at_ (data csd_v1_img) 11 mod 128
  /\ 1 <= WriteProtectGroupSizeInSectors csd_v1_img <= 128.
Proof.
  apply (CSD_sizes_stored_less_one csd_v1_img).
  split; [reflexivity | apply bytesb_ok; reflexivity].
Defined.

(** ** Text *)
Module TextFacts.

Import Stdlib.Strings.String.

(** X12: the file format of a 16-byte image is bits 3:2 of byte 14, one
    of the four values that [FileFormat.String] names: the text is never
    the one of its default branch. *)
Theorem FileFormat_is_named (c : CSD) :
  wf_CSD c ->
  FileFormat c = (at_ (data c) 14 / 4) mod 4
  /\ In (Text.FileFormat_String (FileFormat c))
        ["partition"; "DOS/FAT"; "UFF"; "unknown"]%string.
Proof.
  intros [_ Hb]. pose proof (bytes_at _ 14 Hb) as H14.
  unfold FileFormat. set (b := at_ (data c) 14) in *.
  pose (P := fun b =>
               let v := Z.land (Z.shiftr b 2) 3 in
               Z.eqb v ((b / 4) mod 4) && ((0 <=? v) && (v <? 4))).
  assert (HP : P b = true).
  { apply (forall_range P 256); [vm_compute; reflexivity | exact H14]. }
  unfold P in HP. cbv zeta in HP.
  apply andb_prop in HP as [HP1 HP2]. apply andb_prop in HP2 as [HP2 HP3].
  apply Z.eqb_eq in HP1. apply Z.leb_le in HP2. apply Z.ltb_lt in HP3.
  split; [exact HP1|].
  set (v := Z.land (Z.shiftr b 2) 3) in *.
  assert (Hv : v = 0 \/ v = 1 \/ v = 2 \/ v = 3) by lia.
  destruct Hv as [-> | [-> | [-> | ->]]]; cbn; auto.
Qed.

Lemma FileFormat_is_named_witness :
  FileFormat csd_v1_img = (at_ (data csd_v1_img) 14 / 4) mod 4
  /\ In (Text.FileFormat_String (FileFormat csd_v1_img))
        ["partition"; "DOS/FAT"; "UFF"; "unknown"]%string.
Proof.
  apply (FileFormat_is_named csd_v1_img).
  split; [reflexivity | apply bytesb_ok; reflexivity].
Defined.

(** X13: the text of an R1 status, and so of a [response1Err], is the
    names of the flags set in bits 0..6, in the order idle, erase-rst,
    erase-seq, crc-err, addr-err, param-err, illegal-cmd, separated by
    commas and enclosed in brackets; bit 7 does not show. *)
Theorem Response_lists_set_flags (r : Z) :
  is_byte r ->
  Text.Error r = ("[" ++ concat "," (Text.flag_names r) ++ "]")%string
  /\ Text.Response (Z.land r 127) = Text.Response r.
Proof.
  intros Hr.
  pose (P := fun r =>
               eqb (Text.Error r) (("[" ++ concat "," (Text.flag_names r) ++ "]")%string)
               && eqb (Text.Response (Z.land r 127)) (Text.Response r)).
  assert (HP : P r = true).
  { apply (forall_range P 256); [vm_compute; reflexivity | exact Hr]. }
  unfold P in HP. apply andb_prop in HP as [H1 H2].
  apply eqb_eq in H1, H2. split; assumption.
Qed.

Lemma Response_lists_set_flags_witness :
  Text.Error 5 = ("[" ++ concat "," (Text.flag_names 5) ++ "]")%string
  /\ Text.Response (Z.land 5 127) = Text.Response 5.
Proof.
  apply (Response_lists_set_flags 5). unfold is_byte. lia.
Defined.

End TextFacts.

(** ** The command frame and the block address *)

Lemma u32_i64 (x : Z) : u32 (i64 x) = u32 x.
Proof. unfold u32, i64. Z.div_mod_to_equations. lia. Qed.

Lemma block_address_mod (k block : Z) :
  block_address k block
  = (if Z.eqb k TypeSDHC then block else 512 * block) mod 4294967296.
Proof.
  unfold block_address. destruct (Z.eqb k TypeSDHC); cbn [negb].
  - reflexivity.
  - rewrite u32_i64. unfold u32. rewrite Z.shiftl_mul_pow2 by lia.
    f_equal. change (2 ^ 9) with 512. lia.
Qed.

(** X25: the address that the block transfers put in the command.  On a
    high-capacity card it is the block index itself, for every index that
    fits 32 bits.  On any other kind it is 512 times the index as long as
    the index is below 2^23; from there on the product no longer fits the
    32-bit argument, and the indices [block] and [block + 2^23] are sent
    as the same address. *)
Theorem block_address_exact (k block : Z) :
  (k = TypeSDHC -> 0 <= block <= MaxUint32 -> block_address k block = block)
  /\ (k <> TypeSDHC -> 0 <= block < 8388608 ->
      block_address k block = 512 * block)
  /\ (k <> TypeSDHC ->
      block_address k (block + 8388608) = block_address k block).
Proof.
  rewrite !block_address_mod. split; [|split].
  - intros -> Hb. unfold MaxUint32 in Hb. rewrite Z.eqb_refl.
    apply Z.mod_small. lia.
  - intros Hk Hb. apply Z.eqb_neq in Hk. rewrite Hk. apply Z.mod_small. lia.
  - intros Hk. apply Z.eqb_neq in Hk. rewrite Hk.
    replace (512 * (block + 8388608)) with (512 * block + 1 * 4294967296) by lia.
    apply Z.mod_add. lia.
Qed.

Lemma block_address_exact_witness :
  block_address TypeSDHC 7528999 = 7528999
  /\ block_address TypeSD2 4096 = 512 * 4096
  /\ block_address TypeSD2 (1 + 8388608) = block_address TypeSD2 1.
Proof.
  split; [|split].
  - apply (proj1 (block_address_exact TypeSDHC 7528999)); [reflexivity|].
    unfold MaxUint32. lia.
  - apply (proj1 (proj2 (block_address_exact TypeSD2 4096))); [discriminate | lia].
  - apply (proj2 (proj2 (block_address_exact TypeSD2 1))). discriminate.
Defined.

Lemma command_bits (c : Z) :
  0 <= c < 64 -> Z.land (Z.lor 64 c) 63 = c /\ Z.shiftr (Z.lor 64 c) 6 = 1.
Proof.
  intros Hc.
  pose (P := fun c => (Z.land (Z.lor 64 c) 63 =? c) && (Z.shiftr (Z.lor 64 c) 6 =? 1)).
  assert (H : P c = true).
  { apply (forall_range P 64); [vm_compute; reflexivity | lia]. }
  unfold P in H. apply andb_prop in H as [H1 H2].
  split; apply Z.eqb_eq; assumption.
Qed.

Lemma big_endian_32 (v : Z) :
  0 <= v < 4294967296 ->
  u8 (Z.shiftr v 24) * 16777216 + u8 (Z.shiftr v 16) * 65536
  + u8 (Z.shiftr v 8) * 256 + u8 v = v.
Proof.
  intros Hv. unfold u8. rewrite !Z.shiftr_div_pow2 by lia.
  change (2 ^ 24) with 16777216. change (2 ^ 16) with 65536.
  change (2 ^ 8) with 256.
  Z.div_mod_to_equations. lia.
Qed.

(** X26: [putCmd] on a destination of six bytes or more writes the frame
    in place: the length and everything from byte 6 on are kept, byte 0
    has the bits 01 above the 6-bit command, and bytes 1 to 4 are the
    argument, most significant byte first, so that the command and the
    argument can be read back from the frame.  On a shorter destination
    it panics. *)
Theorem putCmd_layout (dst : list Z) (c arg : Z) :
  0 <= c < 64 -> 0 <= arg < 4294967296 ->
  ((length dst < 6)%nat -> putCmd dst c arg = None)
  /\ ((6 <= length dst)%nat ->
      exists b,
        putCmd dst c arg = Some b
        /\ length b = length dst /\ skipn 6 b = skipn 6 dst
        /\ Z.shiftr (at_ b 0) 6 = 1 /\ Z.land (at_ b 0) 63 = c
        /\ bytes (firstn 4 (skipn 1 b))
        /\ at_ b 1 * 16777216 + at_ b 2 * 65536 + at_ b 3 * 256 + at_ b 4 = arg).
Proof.
  intros Hc Ha. unfold putCmd. split; intros Hl.
  - apply Nat.ltb_lt in Hl. rewrite Hl. reflexivity.
  - destruct (Nat.ltb_spec (length dst) 6) as [Hlt|_]; [lia|].
    eexists. split; [reflexivity|].
    destruct dst as [|b0 [|b1 [|b2 [|b3 [|b4 [|b5 tl]]]]]];
      cbn [length] in Hl; try lia.
    unfold PutUint32, at_.
    cbn [store Nat.add nth skipn length firstn].
    destruct (command_bits c Hc) as [Hlow Hhigh].
    repeat split; try assumption.
    + unfold bytes. repeat constructor; apply Z.mod_pos_bound; lia.
    + apply big_endian_32, Ha.
Qed.

Lemma putCmd_layout_witness :
  putCmd [0; 0; 0; 0; 0] 17 7528999 = None
  /\ exists b,
       putCmd (repeat 0 6) 17 7528999 = Some b
       /\ length b = 6%nat /\ skipn 6 b = []
       /\ Z.shiftr (at_ b 0) 6 = 1 /\ Z.land (at_ b 0) 63 = 17
       /\ bytes (firstn 4 (skipn 1 b))
       /\ at_ b 1 * 16777216 + at_ b 2 * 65536 + at_ b 3 * 256 + at_ b 4 = 7528999.
Proof.
  split.
  - apply (proj1 (putCmd_layout [0; 0; 0; 0; 0] 17 7528999 ltac:(lia) ltac:(lia))).
    cbn [length]. lia.
  - apply (proj2 (putCmd_layout (repeat 0 6) 17 7528999 ltac:(lia) ltac:(lia))).
    cbn [repeat length]. lia.
Defined.

(** ** The flags of an R1 status *)

(** X29: the seven flag methods of an R1 status read the bits 0 to 6,
    one each: two status bytes get the same answer from all seven exactly
    when they agree on their low seven bits. *)
Theorem R1_flags_determine_status (r1 r2 : Z) :
  is_byte r1 -> is_byte r2 ->
  (same_flags r1 r2 = true <-> Z.land r1 127 = Z.land r2 127).
Proof.
  intros H1 H2.
  pose (P := fun r1 r2 =>
               Bool.eqb (same_flags r1 r2) (Z.eqb (Z.land r1 127) (Z.land r2 127))).
  assert (H : P r1 r2 = true).
  { apply (forall_range2 P 256 256);
      [vm_compute; reflexivity | exact H1 | exact H2]. }
  unfold P in H. apply Bool.eqb_prop in H. rewrite H. apply Z.eqb_eq.
Qed.

Lemma R1_flags_determine_status_witness :
  same_flags 0x85 0x05 = true <-> Z.land 0x85 127 = Z.land 0x05 127.
Proof.
  apply (R1_flags_determine_status 0x85 0x05); unfold is_byte; lia.
Defined.

(** ** Reasoning on runs *)

Section Runs.

Context {E : Type} (io : Collab E).

Lemma post_ret {A} (P : @World E -> Prop) (a : A) (Q : A -> @World E -> Prop) :
  (forall w, P w -> Q a w) -> post (E:=E) P (ret a) Q.
Proof. intros H w Hw. apply H, Hw. Qed.

Lemma post_bind {A B} (P : @World E -> Prop) (R : A -> @World E -> Prop)
  (Q : B -> @World E -> Prop) (m : M A) (k : A -> M B) :
  post P m R -> (forall a, post (R a) (k a) Q) -> post P (bind m k) Q.
Proof.
  intros Hm Hk w Hw. unfold bind. specialize (Hm w Hw).
  destruct (m w) as [a w'| |]; [|exact I|exact I]. apply (Hk a w' Hm).
Qed.

Lemma post_spent {A} (P : @World E -> Prop) (Q : A -> @World E -> Prop) :
  post (E:=E) P (fun _ => Spent) Q.
Proof. intros w _. exact I. Qed.

Lemma post_set_card (P : @World E -> Prop) (Q : unit -> @World E -> Prop) f :
  (forall w, P w -> Q tt (mkWorld (f (card w)) (env w) (trace w))) ->
  post (E:=E) P (set_card f) Q.
Proof. intros H w Hw. apply H, Hw. Qed.

Lemma get_card_keeps (P : @World E -> Prop) :
  post (E:=E) P get_card (fun _ => P).
Proof. intros w Hw. exact Hw. Qed.

Lemma or_panic_keeps {A} (P : @World E -> Prop) (o : option A) :
  post (E:=E) P (or_panic o) (fun _ => P).
Proof. intros w Hw. unfold or_panic. destruct o; [exact Hw | exact I]. Qed.

Create HintDb sd_card discriminated.

Hint Resolve get_card_keeps or_panic_keeps : sd_card.

(** One step through a run: the assertion is carried from call to call. *)
Ltac run_step :=
  lazymatch goal with
  | |- post ?P (bind _ _) _ =>
      apply (post_bind P (fun _ => P));
      [try solve [eauto with sd_card] | intros]
  | |- post _ (ret _) _ =>
      apply post_ret; intros ? ?; try assumption;
      try (let Hn := fresh in intro Hn; first [assumption | discriminate Hn])
  | |- post _ (fun _ => Spent) _ => apply post_spent
  | |- post _ (if ?b then _ else _) _ => destruct b
  | |- post _ (match ?x with _ => _ end) _ => destruct x
  end.

Ltac run := repeat run_step; auto with sd_card.

(** *** Assertions that the driver's calls keep

    The hypotheses say what an assertion [P] on worlds is insensitive to:
    events on the pins, the transmission of a frame, the passing of time,
    and a store to one field of the session.  Each lemma depends on the
    hypotheses its function needs. *)
Section Preserved.

Variable P : @World E -> Prop.

Hypothesis P_pins : forall w e ev,
  is_frame ev = false -> P w -> P (mkWorld (card w) e (trace w ++ [ev])).
Hypothesis P_frame : forall w e wr,
  P w -> P (mkWorld (card w) e (trace w ++ [EvTx wr None])).
Hypothesis P_clock : forall w e, P w -> P (mkWorld (card w) e (trace w)).
Hypothesis P_timers : forall w v,
  P w -> P (mkWorld (with_timers v (card w)) (env w) (trace w)).
Hypothesis P_bufTok : forall w v,
  P w -> P (mkWorld (with_bufTok v (card w)) (env w) (trace w)).
Hypothesis P_bufcmd : forall w v,
  P w -> P (mkWorld (with_bufcmd v (card w)) (env w) (trace w)).
Hypothesis P_buf : forall w v,
  P w -> P (mkWorld (with_buf v (card w)) (env w) (trace w)).
Hypothesis P_lastCRC : forall w v,
  P w -> P (mkWorld (with_lastCRC v (card w)) (env w) (trace w)).

Lemma csEnable_keeps b : post P (csEnable io b) (fun _ => P).
Proof. intros w Hw. apply P_pins; [reflexivity | exact Hw]. Qed.

Lemma Transfer_keeps b : post P (Transfer io b) (fun _ => P).
Proof.
  intros w Hw. unfold Transfer.
  destruct (bus_Transfer io b (env w)) as [[rx err] e'].
  apply P_pins; [reflexivity | exact Hw].
Qed.

Lemma Tx_read_keeps wr r : post P (Tx io wr (Some r)) (fun _ => P).
Proof.
  intros w Hw. unfold Tx.
  destruct (bus_Tx io wr (Some r) (env w)) as [[rx err] e'].
  apply P_pins; [reflexivity | exact Hw].
Qed.

Lemma Tx_frame_keeps wr : post P (Tx io wr None) (fun _ => P).
Proof.
  intros w Hw. unfold Tx.
  destruct (bus_Tx io wr None (env w)) as [[rx err] e'].
  apply P_frame, Hw.
Qed.

Lemma Now_keeps : post P (Now io) (fun _ => P).
Proof.
  intros w Hw. unfold Now. destruct (time_Now io (env w)) as [t e'].
  apply P_clock, Hw.
Qed.

Lemma yield_keeps : post P (yield io) (fun _ => P).
Proof. intros w Hw. apply P_clock, Hw. Qed.

Hint Resolve csEnable_keeps Transfer_keeps Tx_read_keeps Tx_frame_keeps
  Now_keeps yield_keeps : sd_card.

Hint Extern 1 (post _ (set_card _) _) =>
  apply post_set_card; intros ? ?; cbv beta;
  first [apply P_timers | apply P_bufTok | apply P_bufcmd | apply P_buf
        | apply P_lastCRC]; assumption : sd_card.

Lemma setTimeout_keeps i t : post P (setTimeout io i t) (fun _ => P).
Proof. unfold setTimeout. run. Qed.

Lemma expired_keeps i : post P (expired io i) (fun _ => P).
Proof. unfold expired. run. Qed.

Hint Resolve setTimeout_keeps expired_keeps : sd_card.

Lemma waitNotBusy_loop_keeps fuel :
  post P (waitNotBusy_loop io fuel) (fun _ => P).
Proof. induction fuel as [|f IH]; cbn [waitNotBusy_loop]; run. Qed.

Hint Resolve waitNotBusy_loop_keeps : sd_card.

Lemma waitNotBusy_keeps fuel t : post P (waitNotBusy io fuel t) (fun _ => P).
Proof. unfold waitNotBusy. run. Qed.

Lemma waitStartBlock_loop_keeps fuel st :
  post P (waitStartBlock_loop io fuel st) (fun _ => P).
Proof.
  revert st. induction fuel as [|f IH]; intros st;
    cbn [waitStartBlock_loop]; run.
Qed.

Hint Resolve waitNotBusy_keeps waitStartBlock_loop_keeps : sd_card.

Lemma waitStartBlock_keeps fuel : post P (waitStartBlock io fuel) (fun _ => P).
Proof. unfold waitStartBlock. run. Qed.

Lemma cmd_poll_keeps n : post P (cmd_poll io n) (fun _ => P).
Proof. induction n as [|n IH]; cbn [cmd_poll]; run. Qed.

Hint Resolve waitStartBlock_keeps cmd_poll_keeps : sd_card.

Lemma cmd_ready_keeps fuel c : post P (cmd_ready io fuel c) (fun _ => P).
Proof. unfold cmd_ready. run. Qed.

Lemma cmd_response_keeps c : post P (cmd_response io c) (fun _ => P).
Proof. unfold cmd_response. run. Qed.

Hint Resolve cmd_ready_keeps cmd_response_keeps : sd_card.

Lemma cmd_exchange_keeps c arg crc :
  post P (cmd_exchange io c arg crc) (fun _ => P).
Proof. unfold cmd_exchange. run. Qed.

Hint Resolve cmd_exchange_keeps : sd_card.

Lemma cmd_keeps fuel c arg crc : post P (cmd io fuel c arg crc) (fun _ => P).
Proof. unfold cmd. run. Qed.

Hint Resolve cmd_keeps : sd_card.

Lemma appCmd_keeps fuel c arg : post P (appCmd io fuel c arg) (fun _ => P).
Proof. unfold appCmd. run. Qed.

Lemma cmdEnsure0Status_keeps fuel c arg crc :
  post P (cmdEnsure0Status io fuel c arg crc) (fun _ => P).
Proof. unfold cmdEnsure0Status. run. Qed.

Hint Resolve appCmd_keeps cmdEnsure0Status_keeps : sd_card.

Lemma readRegister_bytes_keeps n off :
  post P (readRegister_bytes io n off) (fun _ => P).
Proof.
  revert off. induction n as [|n IH]; intros off;
    cbn [readRegister_bytes]; run.
Qed.

Hint Resolve readRegister_bytes_keeps : sd_card.

Lemma readRegister_keeps fuel c off :
  post P (readRegister io fuel c off) (fun _ => P).
Proof. unfold readRegister. run. Qed.

Hint Resolve readRegister_keeps : sd_card.

Lemma readCID_keeps fuel : post P (readCID io fuel) (fun _ => P).
Proof. unfold readCID. run. Qed.

Lemma readCSD_keeps fuel : post P (readCSD io fuel) (fun _ => P).
Proof. unfold readCSD. run. Qed.

Lemma WriteBlock_busy_keeps fuel : post P (WriteBlock_busy io fuel) (fun _ => P).
Proof. unfold WriteBlock_busy. run. Qed.

Hint Resolve WriteBlock_busy_keeps : sd_card.

Lemma ReadBlock_keeps fuel block dst :
  post P (ReadBlock io fuel block dst) (fun _ => P).
Proof. unfold ReadBlock. run. Qed.

Lemma WriteBlock_keeps fuel block src :
  post P (WriteBlock io fuel block src) (fun _ => P).
Proof. unfold WriteBlock. run. Qed.

Lemma Init_idle_loop_keeps fuel loops :
  post P (Init_idle_loop io fuel loops) (fun _ => P).
Proof. induction loops as [|l IH]; cbn [Init_idle_loop]; run. Qed.

Lemma Init_r7_bytes_keeps n st : post P (Init_r7_bytes io n st) (fun _ => P).
Proof.
  revert st. induction n as [|n IH]; intros st; cbn [Init_r7_bytes]; run.
Qed.

Lemma Init_opcond_loop_keeps fuel loops arg r1 :
  post P (Init_opcond_loop io fuel loops arg r1) (fun _ => P).
Proof.
  revert r1. induction loops as [|l IH]; intros r1;
    cbn [Init_opcond_loop]; run.
Qed.

End Preserved.

Hint Resolve csEnable_keeps Transfer_keeps Tx_read_keeps Tx_frame_keeps
  Now_keeps yield_keeps setTimeout_keeps expired_keeps waitNotBusy_loop_keeps
  waitNotBusy_keeps waitStartBlock_loop_keeps waitStartBlock_keeps
  cmd_poll_keeps cmd_ready_keeps cmd_response_keeps cmd_exchange_keeps
  cmd_keeps appCmd_keeps cmdEnsure0Status_keeps readRegister_bytes_keeps
  readRegister_keeps readCID_keeps readCSD_keeps WriteBlock_busy_keeps
  ReadBlock_keeps WriteBlock_keeps Init_idle_loop_keeps Init_r7_bytes_keeps
  Init_opcond_loop_keeps : sd_card.

(** Assertions on the recorded identity of the card do not read the
    buffers, the timers, the snapshots or the pins. *)
Ltac on_card_side :=
  unfold on_card, same_numblocks, same_identity, v2_kind, any_card in *;
  cbn in *;
  first [assumption | exact Logic.I | right; reflexivity].

Hint Extern 1 (on_card _ (mkWorld _ _ _)) => on_card_side : sd_card.

Hint Extern 1 (post _ (set_card _) _) =>
  apply post_set_card; intros ? ?; cbv beta; on_card_side : sd_card.

(** *** The block count through [Init] *)

(** The one assignment to [numblocks] is followed by [return nil]. *)
Ltac last_step :=
  lazymatch goal with
  | |- post _ (bind (set_card (with_numblocks _)) _) _ =>
      apply (post_bind _ (fun _ _ => True));
      [intros ? _; exact Logic.I
      | intros; apply post_ret; intros ? _ Hn; exfalso; apply Hn; reflexivity]
  end.

Lemma Init_count_failed n :
  post (E:=E) (on_card (same_numblocks n)) Init_count
       (fun r w => r <> None -> same_numblocks n (card w)).
Proof. unfold Init_count. repeat first [last_step | run_step]. Qed.

Hint Resolve Init_count_failed : sd_card.

Lemma Init_registers_failed n fuel :
  post (on_card (same_numblocks n)) (Init_registers io fuel)
       (fun r w => r <> None -> same_numblocks n (card w)).
Proof. unfold Init_registers. run. Qed.

Hint Resolve Init_registers_failed : sd_card.

Lemma Init_negotiate_failed n fuel r1 :
  post (on_card (same_numblocks n)) (Init_negotiate io fuel r1)
       (fun r w => r <> None -> same_numblocks n (card w)).
Proof. unfold Init_negotiate. run. Qed.

Hint Resolve Init_negotiate_failed : sd_card.

Lemma Init_body_failed n fuel :
  post (on_card (same_numblocks n)) (Init_body io fuel)
       (fun r w => r <> None -> same_numblocks n (card w)).
Proof. unfold Init_body. run. Qed.

Lemma Init_failed n fuel :
  post (on_card (same_numblocks n)) (Init io fuel)
       (fun r w => r <> None -> same_numblocks n (card w)).
Proof.
  unfold Init.
  apply (post_bind _ (fun _ => on_card (same_numblocks n))); [auto with sd_card|].
  intros _.
  apply (post_bind _ (fun r w => r <> None -> same_numblocks n (card w)));
    [apply Init_body_failed|].
  intros r.
  apply (post_bind _ (fun _ w => r <> None -> same_numblocks n (card w)));
    [intros w Hw; exact Hw|].
  intros _. apply post_ret. auto.
Qed.

(** *** What a successful [Init] records *)

Lemma NumberOfBlocks_nonneg (c : CSD) (nb : Z) :
  NumberOfBlocks c = Some nb -> 0 <= nb.
Proof.
  unfold NumberOfBlocks, DeviceCapacity, MustV1, MustV2.
  assert (Hr : 0 <= ReadBlockLen c).
  { unfold ReadBlockLen, u16. apply Z.mod_pos_bound. lia. }
  destruct (Z.eqb_spec (ReadBlockLen c) 0) as [_|Hne]; [intros [= <-]; lia|].
  assert (Hd : forall cap, 0 <= cap -> 0 <= cap / ReadBlockLen c).
  { intros cap Hc. apply Z.div_pos; lia. }
  destruct (CSDStructure c =? 0).
  - intros [= <-]. apply Hd. unfold CSDv1_DeviceCapacity, u32.
    apply Z.mod_pos_bound. lia.
  - destruct (CSDStructure c =? 1).
    + intros [= <-]. apply Hd. unfold CSDv2_DeviceCapacity, u64.
      apply Z.mod_pos_bound. lia.
    + intros [= <-]. apply Hd. lia.
Qed.

Lemma i64_small (x : Z) : 0 <= x <= MaxUint32 -> i64 x = x.
Proof.
  unfold MaxUint32, i64. intros H. rewrite Z.mod_small by lia. lia.
Qed.

Lemma Init_count_ok :
  post (E:=E) (on_card v2_kind) Init_count
       (fun r w => r = None -> initialized (card w)).
Proof.
  intros w Hw. unfold Init_count, bind, get_card, or_panic.
  destruct (NumberOfBlocks (csd (card w))) as [nb|] eqn:Hnb; [|exact Logic.I].
  destruct (Z.ltb_spec MaxUint32 nb) as [Hgt|Hle]; [intros; discriminate|].
  destruct (Z.eqb_spec nb 0) as [H0|H0]; [intros; discriminate|].
  cbn. intros _. pose proof (NumberOfBlocks_nonneg _ _ Hnb) as Hpos.
  unfold initialized. cbn [with_numblocks csd numblocks].
  rewrite i64_small by lia.
  split; [exact Hw|]. split; [exact Hnb | lia].
Qed.

Hint Resolve Init_count_ok : sd_card.

Lemma Init_registers_ok fuel :
  post (on_card v2_kind) (Init_registers io fuel)
       (fun r w => r = None -> initialized (card w)).
Proof. unfold Init_registers. run. Qed.

Hint Resolve Init_registers_ok : sd_card.

Lemma Init_negotiate_ok fuel r1 :
  post (on_card v2_kind) (Init_negotiate io fuel r1)
       (fun r w => r = None -> initialized (card w)).
Proof. unfold Init_negotiate. run. Qed.

Hint Resolve Init_negotiate_ok : sd_card.

(** [d.kind = TypeSD2] opens the part of [Init] that can succeed. *)
Ltac v2_step :=
  lazymatch goal with
  | |- post _ (bind (set_card (with_kind TypeSD2)) _) _ =>
      apply (post_bind _ (fun _ => on_card v2_kind));
      [intros ? _; left; reflexivity | intros; auto with sd_card]
  end.

Lemma Init_body_ok fuel :
  post (on_card any_card) (Init_body io fuel)
       (fun r w => r = None -> initialized (card w)).
Proof. unfold Init_body. repeat first [v2_step | run_step]. Qed.

Lemma Init_ok fuel :
  post (on_card any_card) (Init io fuel)
       (fun r w => r = None -> initialized (card w)).
Proof.
  unfold Init.
  apply (post_bind _ (fun _ => on_card any_card)); [auto with sd_card|].
  intros _.
  apply (post_bind _ (fun r w => r = None -> initialized (card w)));
    [apply Init_body_ok|].
  intros r.
  apply (post_bind _ (fun _ w => r = None -> initialized (card w)));
    [intros w Hw; exact Hw|].
  intros _. apply post_ret. auto.
Qed.

(** *** The identity of the card through the block transfers *)

Lemma ReadBlock_identity k n fuel block dst :
  post (on_card (same_identity k n)) (ReadBlock io fuel block dst)
       (fun _ => on_card (same_identity k n)).
Proof. auto with sd_card. Qed.

Lemma WriteBlock_identity k n fuel block src :
  post (on_card (same_identity k n)) (WriteBlock io fuel block src)
       (fun _ => on_card (same_identity k n)).
Proof. auto with sd_card. Qed.

(** C8, as amended: [ReadBlock] and [WriteBlock] leave the card kind and
    the block count as they are; an [Init] that fails leaves the block
    count as it is; an [Init] that succeeds leaves a version 2 kind and
    the block count of the CSD it read, between 1 and 2^32 - 1.  The card
    kind is assigned inside [Init] before its outcome is known, so it is
    not claimed to survive a failed [Init]. *)
Theorem identity_fields_assigned_by_Init (fuel : nat) (w : @World E) :
  (forall block dst r w',
      ReadBlock io fuel block dst w = Ret r w' ->
      kind (card w') = kind (card w) /\ numblocks (card w') = numblocks (card w))
  /\ (forall block src r w',
      WriteBlock io fuel block src w = Ret r w' ->
      kind (card w') = kind (card w) /\ numblocks (card w') = numblocks (card w))
  /\ (forall e w',
      Init io fuel w = Ret (Some e) w' ->
      numblocks (card w') = numblocks (card w))
  /\ (forall w',
      Init io fuel w = Ret None w' -> initialized (card w')).
Proof.
  split; [|split; [|split]].
  - intros block dst r w' H.
    pose proof (ReadBlock_identity (kind (card w)) (numblocks (card w))
                  fuel block dst w (conj eq_refl eq_refl)) as H'.
    rewrite H in H'. exact H'.
  - intros block src r w' H.
    pose proof (WriteBlock_identity (kind (card w)) (numblocks (card w))
                  fuel block src w (conj eq_refl eq_refl)) as H'.
    rewrite H in H'. exact H'.
  - intros e w' H.
    pose proof (Init_failed (numblocks (card w)) fuel w eq_refl) as H'.
    rewrite H in H'. apply H'. discriminate.
  - intros w' H.
    pose proof (Init_ok fuel w Logic.I) as H'.
    rewrite H in H'. apply H'. reflexivity.
Qed.

(** *** Frames on the bus *)

Lemma quiet_refl (w : @World E) : quiet (trace w) w.
Proof. exists []. rewrite app_nil_r. split; reflexivity. Qed.

Lemma quiet_same t0 (w w' : @World E) :
  trace w' = trace w -> quiet t0 w -> quiet t0 w'.
Proof. intros Ht [l [Hl Hq]]. exists l. rewrite Ht. split; assumption. Qed.

Lemma quiet_event t0 (w w' : @World E) ev :
  is_frame ev = false -> trace w' = trace w ++ [ev] ->
  quiet t0 w -> quiet t0 w'.
Proof.
  intros Hev Ht [l [Hl Hq]]. exists (l ++ [ev]).
  rewrite Ht, Hl, app_assoc. split; [reflexivity|].
  rewrite forallb_app, Hq. cbn. rewrite Hev. reflexivity.
Qed.

Hint Extern 1 (quiet _ (mkWorld _ _ _)) =>
  first [eapply quiet_event; [eassumption | reflexivity | eassumption]
        | eapply quiet_same; [reflexivity | eassumption]] : sd_card.

Lemma store_length i v l : length (store i v l) = length l.
Proof.
  revert i. induction l as [|h t IH]; intros [|i]; cbn; try reflexivity.
  rewrite IH. reflexivity.
Qed.

(** Whatever [putCmd] computes for the last byte, the frame that [cmd]
    hands to the bus ends with the [crc] argument. *)
Lemma putCmd_frame dst c arg crc b :
  putCmd dst c arg = Some b -> (length dst <= 6)%nat ->
  store 5 crc b = frame c arg crc.
Proof.
  unfold putCmd. destruct (Nat.ltb_spec (length dst) 6) as [Hlt|Hge];
    [discriminate|].
  intros [= <-] Hle.
  destruct dst as [|b0 [|b1 [|b2 [|b3 [|b4 [|b5 [|b6 tl]]]]]]];
    cbn [length] in *; try lia.
  reflexivity.
Qed.

Lemma putCmd_total d c arg :
  wf_card d -> exists b, putCmd (firstn 6 (bufcmd d)) c arg = Some b.
Proof.
  intros [Hc _]. unfold putCmd. rewrite firstn_all2 by lia. rewrite Hc.
  cbn [Nat.ltb Nat.leb]. eexists. reflexivity.
Qed.

Lemma cmd_exchange_frame t0 c arg crc :
  post (fun w => trace w = t0) (cmd_exchange io c arg crc)
       (fun _ => quiet (t0 ++ [EvTx (frame c arg crc) None])).
Proof.
  intros w Hw. unfold cmd_exchange. cbv [bind get_card or_panic set_card].
  destruct (putCmd (firstn 6 (bufcmd (card w))) c arg) as [b|] eqn:Hp;
    [|exact Logic.I].
  rewrite (putCmd_frame _ _ _ crc _ Hp (firstn_le_length 6 _)).
  unfold Tx. cbn [env card trace].
  destruct (bus_Tx io (frame c arg crc) None (env w)) as [[rx err] e'].
  cbn [option_map]. rewrite Hw.
  destruct err as [e|].
  - unfold ret. apply quiet_refl.
  - apply (cmd_response_keeps (quiet (t0 ++ [EvTx (frame c arg crc) None])));
      [intros; auto with sd_card ..|].
    apply quiet_refl.
Qed.

(** C10: every call to [cmd] that returns has put exactly one frame on
    the bus, after pin events that carry no frame and before pin events
    that carry no frame, and that frame is the command byte, the
    big-endian argument and the [crc] argument of the caller: its sixth
    byte is [crc], not the byte [putCmd] derived from [CRC7]. *)
Theorem cmd_sends_caller_crc fuel c arg crc (w w' : @World E) res :
  cmd io fuel c arg crc w = Ret res w' ->
  nth 5 (frame c arg crc) 0 = crc
  /\ exists pre post,
       trace w' = trace w ++ pre ++ EvTx (frame c arg crc) None :: post
       /\ forallb (fun ev => negb (is_frame ev)) pre = true
       /\ forallb (fun ev => negb (is_frame ev)) post = true.
Proof.
  intros H. split; [reflexivity|].
  unfold cmd, bind in H.
  pose proof (cmd_ready_keeps (quiet (trace w))) as Hr.
  specialize (Hr ltac:(intros; auto with sd_card) ltac:(intros; auto with sd_card)
                 ltac:(intros; auto with sd_card) fuel c w (quiet_refl w)).
  destruct (cmd_ready io fuel c w) as [[] w1| |]; try discriminate.
  destruct Hr as [pre [Hpre Hq1]].
  pose proof (cmd_exchange_frame (trace w1) c arg crc w1 eq_refl) as Hx.
  rewrite H in Hx. destruct Hx as [post [Hpost Hq2]].
  exists pre, post. rewrite Hpost, Hpre, <- !app_assoc.
  split; [reflexivity | split; assumption].
Qed.

(** *** The response poll *)

Lemma cmd_poll_unanswered :
  forall n (w : @World E),
    firstn 1 (bufcmd (card w)) = [255] ->
    forallb (fun t => negb (Z.eqb (Z.land t 128) 0))
            (poll_tokens io n (bufTok (card w)) (env w)) = true ->
    exists w',
      cmd_poll io n w = Ret None w'
      /\ trace w' = trace w ++ repeat (EvTx [255] (Some 1%nat)) n.
Proof.
  induction n as [|n IH]; intros w Hb Htok.
  - exists w. cbn. rewrite app_nil_r. split; reflexivity.
  - cbn [cmd_poll]. cbv [bind get_card set_card]. unfold Tx. rewrite Hb.
    cbn [poll_tokens] in Htok.
    destruct (bus_Tx io [255] (Some [bufTok (card w)]) (env w)) as [[rx err] e'].
    cbn [forallb] in Htok. apply andb_prop in Htok as [Hbit Hrest].
    apply negb_true_iff in Hbit.
    cbn [card env trace option_map length]. rewrite Hbit.
    match goal with
    | |- exists w', cmd_poll io n ?w1 = _ /\ _ =>
        destruct (IH w1 Hb Hrest) as [w' [Hrun Htr]]
    end.
    exists w'. split; [exact Hrun|].
    rewrite Htr. cbn [trace repeat]. rewrite <- app_assoc. reflexivity.
Qed.

Lemma store_first l : l <> [] -> firstn 1 (store 0 255 l) = [255].
Proof. destruct l; [congruence | reflexivity]. Qed.

(** The response poll always comes back: it is bounded. *)
Lemma cmd_poll_returns n (w : @World E) :
  exists r w', cmd_poll io n w = Ret r w'.
Proof.
  revert w. induction n as [|n IH]; intros w.
  - exists None, w. reflexivity.
  - cbn [cmd_poll]. cbv [bind get_card set_card]. unfold Tx.
    destruct (bus_Tx io (firstn 1 (bufcmd (card w))) (Some [bufTok (card w)]) (env w))
      as [[rx err] e'].
    cbn [card env trace].
    destruct (Z.land (nth 0 (received [bufTok (card w)] rx) (bufTok (card w))) 128 =? 0).
    + eexists. eexists. reflexivity.
    + apply IH.
Qed.

Lemma cmd_response_returns c (w : @World E) :
  exists r w', cmd_response io c w = Ret r w'.
Proof.
  unfold cmd_response.
  assert (Hskip : exists w1,
             (if Z.eqb c 12 then bind (Transfer io 255) (fun _ => ret tt)
              else ret tt) w = Ret tt w1).
  { destruct (Z.eqb c 12).
    - unfold bind, Transfer.
      destruct (bus_Transfer io 255 (env w)) as [[rx err] e'].
      eexists. reflexivity.
    - exists w. reflexivity. }
  destruct Hskip as [w1 Hrun1].
  unfold bind at 1. rewrite Hrun1.
  unfold bind at 1. unfold set_card at 1.
  match goal with
  | |- exists r w', bind (cmd_poll io ?n) _ ?w2 = _ =>
      destruct (cmd_poll_returns n w2) as [r [w3 Hrun3]]
  end.
  unfold bind at 1. rewrite Hrun3. destruct r as [response|].
  - eexists. eexists. reflexivity.
  - unfold bind, csEnable, Transfer. cbn [env card trace].
    destruct (bus_Transfer io 255 (cs_pin io (negb false) (env w3)))
      as [[rx err] e'].
    eexists. eexists. reflexivity.
Qed.

Lemma cmd_ready_bufcmd fuel c (w w1 : @World E) :
  cmd_ready io fuel c w = Ret tt w1 -> bufcmd (card w1) = bufcmd (card w).
Proof.
  intros H.
  pose proof (cmd_ready_keeps (fun x => bufcmd (card x) = bufcmd (card w))) as Hk.
  specialize (Hk ltac:(intros; assumption) ltac:(intros; assumption)
                 ltac:(intros; assumption) fuel c w eq_refl).
  rewrite H in Hk. exact Hk.
Qed.

(** Once the wait before the command has returned, [cmd] returns. *)
Lemma cmd_returns fuel c arg crc (w w1 : @World E) :
  wf_card (card w) -> cmd_ready io fuel c w = Ret tt w1 ->
  exists res w', cmd io fuel c arg crc w = Ret res w'.
Proof.
  intros Hwf Hr.
  pose proof (cmd_ready_bufcmd _ _ _ _ Hr) as Hb.
  unfold cmd. unfold bind at 1. rewrite Hr.
  unfold cmd_exchange. cbv [bind get_card or_panic set_card].
  destruct (putCmd_total (card w) c arg Hwf) as [b Hp]. rewrite Hb, Hp.
  unfold Tx. cbn [env card trace].
  destruct (bus_Tx io (store 5 crc b) None (env w1)) as [[rx err] e'].
  destruct err as [e|]; [eexists; eexists; reflexivity|].
  apply cmd_response_returns.
Qed.

Lemma cmd_ready_bufTok fuel c (w w1 : @World E) :
  cmd_ready io fuel c w = Ret tt w1 -> bufTok (card w1) = bufTok (card w).
Proof.
  intros H.
  pose proof (cmd_ready_keeps (fun x => bufTok (card x) = bufTok (card w))) as Hk.
  specialize (Hk ltac:(intros; assumption) ltac:(intros; assumption)
                 ltac:(intros; assumption) fuel c w eq_refl).
  rewrite H in Hk. exact Hk.
Qed.

(** C9: once the wait before the command has returned and the frame has
    gone out without an error, if none of the bytes that arrive in the
    0xFFFF polls has a clear top bit, [cmd] deasserts chip select (drives
    the pin high), clocks one filler byte and returns the status 0xFF
    with a nil error. *)
Theorem cmd_timeout_is_status_FF fuel c arg crc (w w1 : @World E) :
  wf_card (card w) ->
  cmd_ready io fuel c w = Ret tt w1 ->
  snd (fst (bus_Tx io (frame c arg crc) None (env w1))) = None ->
  no_response io c arg crc (bufTok (card w)) (env w1) = true ->
  exists w',
    cmd io fuel c arg crc w = Ret (255, None) w'
    /\ trace w' =
         trace w1 ++ [EvTx (frame c arg crc) None]
           ++ (if Z.eqb c 12 then [EvTransfer 255] else [])
           ++ repeat (EvTx [255] (Some 1%nat)) (Z.to_nat 65535)
           ++ [EvCS true; EvTransfer 255].
Proof.
  intros Hwf Hr Hok Hno.
  pose proof (cmd_ready_bufcmd _ _ _ _ Hr) as Hb.
  pose proof (cmd_ready_bufTok _ _ _ _ Hr) as Htok.
  unfold cmd. unfold bind at 1. rewrite Hr.
  unfold cmd_exchange. cbv [bind get_card or_panic set_card].
  destruct (putCmd_total (card w) c arg Hwf) as [b Hp]. rewrite Hb, Hp.
  rewrite (putCmd_frame _ _ _ crc _ Hp (firstn_le_length 6 _)).
  unfold no_response, poll_start in Hno.
  unfold Tx. cbn [env card trace].
  destruct (bus_Tx io (frame c arg crc) None (env w1)) as [[rx err] e1].
  cbn [fst snd] in Hok, Hno. subst err. cbn [option_map].
  unfold cmd_response.
  match goal with
  | |- exists w', bind _ _ ?w2 = _ /\ _ => set (wa := w2)
  end.
  assert (Hskip : exists wb,
             (if Z.eqb c 12 then bind (Transfer io 255) (fun _ => ret tt)
              else ret tt) wa = Ret tt wb
             /\ card wb = card wa
             /\ env wb = (if Z.eqb c 12 then snd (bus_Transfer io 255 e1) else e1)
             /\ trace wb = trace wa ++ (if Z.eqb c 12 then [EvTransfer 255] else [])).
  { destruct (Z.eqb c 12).
    - unfold bind, Transfer. cbn [env wa].
      destruct (bus_Transfer io 255 e1) as [[rx' err'] e2].
      eexists. split; [reflexivity|]. repeat split.
    - exists wa. rewrite app_nil_r. repeat split. }
  destruct Hskip as [wb [Hrunb [Hcb [Heb Htb]]]].
  unfold bind at 1. rewrite Hrunb.
  unfold bind at 1. unfold set_card at 1.
  match goal with
  | |- exists w', bind (cmd_poll io ?n) _ ?w2 = _ /\ _ =>
      destruct (cmd_poll_unanswered n w2) as [w3 [Hrun3 Ht3]]
  end.
  { cbn [card]. apply store_first. rewrite Hcb. cbn [wa card with_bufcmd bufcmd].
    discriminate. }
  { cbn [card env with_bufcmd bufTok]. rewrite Hcb, Heb.
    cbn [wa card with_bufcmd bufTok]. rewrite Htok. exact Hno. }
  unfold bind at 1. rewrite Hrun3.
  unfold bind, csEnable, Transfer. cbn [env card trace].
  destruct (bus_Transfer io 255 (cs_pin io (negb false) (env w3)))
    as [[rx' err'] e'].
  eexists. split; [reflexivity|].
  cbn [trace negb]. rewrite Ht3. cbn [trace]. rewrite Htb. cbn [wa trace].
  rewrite <- !app_assoc. reflexivity.
Qed.

(** *** Transport errors *)


(** *** The deadline of [waitNotBusy] *)

(** [waitNotBusy] returns an error only when the transport does: when the
    deadline passes it returns nil. *)
Lemma waitNotBusy_loop_nil fuel :
  Transfer_never_fails io ->
  post (E:=E) (fun _ => True) (waitNotBusy_loop io fuel) (fun r _ => r = None).
Proof.
  intros Hok. induction fuel as [|f IH]; cbn [waitNotBusy_loop].
  - apply post_spent.
  - intros w _. unfold bind at 1.
    destruct (expired io true w) as [ex w1| |]; try exact Logic.I.
    destruct ex; [reflexivity|].
    unfold bind at 1. unfold Transfer.
    pose proof (Hok 255 (env w1)) as Hn.
    destruct (bus_Transfer io 255 (env w1)) as [[rx err] e'].
    cbn [fst snd] in Hn. subst err.
    destruct (Z.eqb (u8 rx) 255); [reflexivity|].
    unfold bind, yield. apply IH. exact Logic.I.
Qed.

(** So on a transport that reports no error the end of [WriteBlock]
    never produces [errWriteTimeout], however long the card stays busy. *)
Lemma WriteBlock_busy_nil fuel :
  Transfer_never_fails io ->
  post (E:=E) (fun _ => True) (WriteBlock_busy io fuel) (fun r _ => r = None).
Proof.
  intros Hok w _. unfold WriteBlock_busy, waitNotBusy. unfold bind at 1 2.
  destruct (setTimeout io true (600 * Millisecond) w) as [[] w1| |];
    try exact Logic.I.
  pose proof (waitNotBusy_loop_nil fuel Hok w1 Logic.I) as H.
  destruct (waitNotBusy_loop io fuel w1) as [r w2| |]; try exact Logic.I.
  subst r. reflexivity.
Qed.

(** *** The bounds check of the block transfers *)

(** An index at or above the block count, with a 512-byte slice, is
    rejected before anything is done on the pins. *)
Lemma ReadBlock_rejects_high fuel block dst (w : @World E) :
  length dst = 512%nat -> numblocks (card w) <= block ->
  ReadBlock io fuel block dst w = Ret (Some errOOB, dst) w.
Proof.
  intros Hl Hb. unfold ReadBlock, bind, get_card. rewrite Hl.
  cbn [Nat.eqb negb]. apply Z.leb_le in Hb. rewrite Hb. reflexivity.
Qed.

Lemma WriteBlock_rejects_high fuel block src (w : @World E) :
  length src = 512%nat -> numblocks (card w) <= block ->
  WriteBlock io fuel block src w = Ret (Some errOOB) w.
Proof.
  intros Hl Hb. unfold WriteBlock, bind, get_card. rewrite Hl.
  cbn [Nat.eqb negb]. apply Z.leb_le in Hb. rewrite Hb. reflexivity.
Qed.

(** *** The guards of the block transfers *)

(** X14: a block transfer whose slice is not 512 bytes long, or whose
    index is at or above the block count, is refused before anything is
    done: [ReadBlock] and [WriteBlock] return [errNeed512] in the first
    case (whatever the index) and [errOOB] in the second, and the
    session, the collaborators and the pins are as they were. *)
Theorem block_transfer_refused_untouched fuel block sl (w : @World E) :
  length sl <> 512%nat \/ numblocks (card w) <= block ->
  exists e,
    ReadBlock io fuel block sl w = Ret (Some e, sl) w
    /\ WriteBlock io fuel block sl w = Ret (Some e) w
    /\ e = (if Nat.eqb (length sl) 512 then errOOB else errNeed512).
Proof.
  intros H. unfold ReadBlock, WriteBlock, bind, get_card.
  destruct (Nat.eqb_spec (length sl) 512) as [Hl|Hl]; cbn [negb].
  - destruct H as [H|H]; [contradiction|].
    apply Z.leb_le in H. rewrite H. exists errOOB. repeat split.
  - exists errNeed512. repeat split.
Qed.

(** X15: an [Init] that fails leaves the bounds test of the block
    transfers as it was: every index at or above the block count the
    session had before is still refused with [errOOB]; on a new session
    that is every index from 0 up. *)
Theorem failed_Init_keeps_the_bounds fuel block sl (w w' : @World E) e :
  Init io fuel w = Ret (Some e) w' ->
  length sl = 512%nat -> numblocks (card w) <= block ->
  ReadBlock io fuel block sl w' = Ret (Some errOOB, sl) w'
  /\ WriteBlock io fuel block sl w' = Ret (Some errOOB) w'.
Proof.
  intros Hi Hl Hb.
  pose proof (Init_failed (numblocks (card w)) fuel w eq_refl) as Hn.
  rewrite Hi in Hn. specialize (Hn ltac:(discriminate)).
  unfold same_numblocks in Hn.
  split; [apply ReadBlock_rejects_high | apply WriteBlock_rejects_high];
    try exact Hl; rewrite Hn; exact Hb.
Qed.

(** *** What [cmd] returns *)

Lemma cmd_poll_answer :
  forall n (w w' : @World E) r,
    cmd_poll io n w = Ret (Some r) w' ->
    Z.land r 128 = 0
    /\ exists t, trace w' = t ++ [EvTx (firstn 1 (bufcmd (card w))) (Some 1%nat)].
Proof.
  induction n as [|n IH]; intros w w' r H; [discriminate|].
  cbn [cmd_poll] in H. cbv [bind get_card set_card] in H. unfold Tx in H.
  destruct (bus_Tx io (firstn 1 (bufcmd (card w))) (Some [bufTok (card w)]) (env w))
    as [[rx err] e'].
  cbn [card env trace option_map length] in H.
  destruct (Z.eqb_spec
              (Z.land (nth 0 (received [bufTok (card w)] rx) (bufTok (card w))) 128) 0)
    as [Hz|Hnz].
  - injection H as <- <-. split; [exact Hz|].
    eexists. cbn [trace]. reflexivity.
  - apply IH in H. exact H.
Qed.

Lemma cmd_response_outcome c (w w' : @World E) r err :
  cmd_response io c w = Ret (r, err) w' -> bufcmd (card w) <> [] ->
  err = None
  /\ ((Z.land r 128 = 0 /\ exists t, trace w' = t ++ [EvTx [255] (Some 1%nat)])
      \/ (r = 255 /\ exists t, trace w' = t ++ [EvCS true; EvTransfer 255])).
Proof.
  intros H Hb. unfold cmd_response in H.
  assert (Hskip : exists w1,
             (if Z.eqb c 12 then bind (Transfer io 255) (fun _ => ret tt)
              else ret tt) w = Ret tt w1 /\ card w1 = card w).
  { destruct (Z.eqb c 12).
    - unfold bind, Transfer.
      destruct (bus_Transfer io 255 (env w)) as [[rx e1] e'].
      eexists. split; reflexivity.
    - exists w. split; reflexivity. }
  destruct Hskip as [w1 [Hrun1 Hc1]].
  unfold bind at 1 in H. rewrite Hrun1 in H.
  unfold bind at 1 in H. unfold set_card at 1 in H.
  unfold bind at 1 in H.
  match type of H with
  | match cmd_poll io ?n ?w2 with _ => _ end = _ =>
      destruct (cmd_poll io n w2) as [[resp|] w3| |] eqn:Hp; try discriminate
  end.
  - injection H as <- <- <-. split; [reflexivity|]. left.
    apply cmd_poll_answer in Hp. cbn [card with_bufcmd bufcmd] in Hp.
    rewrite store_first in Hp by (rewrite Hc1; exact Hb). exact Hp.
  - unfold bind, csEnable, Transfer in H. cbn [env card trace] in H.
    destruct (bus_Transfer io 255 (cs_pin io (negb false) (env w3)))
      as [[rx e1] e'].
    injection H as <- <- <-. split; [reflexivity|]. right.
    split; [reflexivity|]. exists (trace w3). cbn [trace negb].
    rewrite <- app_assoc. reflexivity.
Qed.

(** X16: what a [cmd] that returns has done.  With an error it returns
    the status 0 and the last thing on the pins is the frame, which the
    transport refused.  Without an error it returns either a status with
    a clear top bit, and the last thing on the pins is the poll that
    brought it, the card still selected, or 0xFF after it has deselected
    the card and clocked one byte: 0xFF stands for the timeout alone. *)
Theorem cmd_outcome fuel c arg crc (w w' : @World E) r err :
  cmd io fuel c arg crc w = Ret (r, err) w' ->
  match err with
  | Some _ => r = 0 /\ exists t, trace w' = t ++ [EvTx (frame c arg crc) None]
  | None =>
      (Z.land r 128 = 0 /\ exists t, trace w' = t ++ [EvTx [255] (Some 1%nat)])
      \/ (r = 255 /\ exists t, trace w' = t ++ [EvCS true; EvTransfer 255])
  end.
Proof.
  intros H. unfold cmd in H. unfold bind at 1 in H.
  destruct (cmd_ready io fuel c w) as [[] w1| |]; try discriminate.
  unfold cmd_exchange in H. cbv [bind get_card or_panic set_card] in H.
  destruct (putCmd (firstn 6 (bufcmd (card w1))) c arg) as [b|] eqn:Hp;
    [|discriminate].
  rewrite (putCmd_frame _ _ _ crc _ Hp (firstn_le_length 6 _)) in H.
  unfold Tx in H. cbn [env card trace] in H.
  destruct (bus_Tx io (frame c arg crc) None (env w1)) as [[rx e1] e'].
  destruct e1 as [e|].
  - injection H as <- <- <-. split; [reflexivity|].
    exists (trace w1). reflexivity.
  - apply cmd_response_outcome in H; [|cbn [card with_bufcmd bufcmd]; discriminate].
    destruct H as [-> H]. exact H.
Qed.

(** *** Frames of an application command *)

Lemma filter_quiet (l : list event) :
  forallb (fun ev => negb (is_frame ev)) l = true -> filter is_frame l = [].
Proof.
  induction l as [|ev l IH]; cbn [forallb filter]; [reflexivity|].
  intros H. apply andb_prop in H as [H1 H2].
  apply negb_true_iff in H1. rewrite H1. apply IH, H2.
Qed.

Lemma cmd_one_frame fuel c arg crc (w w' : @World E) res :
  cmd io fuel c arg crc w = Ret res w' ->
  exists l, trace w' = trace w ++ l
            /\ filter is_frame l = [EvTx (frame c arg crc) None].
Proof.
  intros H. unfold cmd, bind in H.
  pose proof (cmd_ready_keeps (quiet (trace w))) as Hr.
  specialize (Hr ltac:(intros; auto with sd_card) ltac:(intros; auto with sd_card)
                 ltac:(intros; auto with sd_card) fuel c w (quiet_refl w)).
  destruct (cmd_ready io fuel c w) as [[] w1| |]; try discriminate.
  destruct Hr as [pre [Hpre Hq1]].
  pose proof (cmd_exchange_frame (trace w1) c arg crc w1 eq_refl) as Hx.
  rewrite H in Hx. destruct Hx as [post [Hpost Hq2]].
  exists (pre ++ EvTx (frame c arg crc) None :: post).
  split.
  - rewrite Hpost, Hpre, <- !app_assoc. reflexivity.
  - rewrite filter_app. cbn [filter is_frame].
    rewrite (filter_quiet _ Hq1), (filter_quiet _ Hq2). reflexivity.
Qed.



(** *** The wait for the start token *)

Lemma expired_run i (w : @World E) :
  exists ex e', expired io i w = Ret ex (mkWorld (card w) e' (trace w)).
Proof.
  unfold expired, bind, get_card, Now.
  destruct (time_Now io (env w)) as [t e']. eexists. eexists. reflexivity.
Qed.

Lemma setTimeout_run i t0 (w : @World E) :
  exists t e',
    setTimeout io i t0 w = Ret tt (mkWorld (with_timers t (card w)) e' (trace w)).
Proof.
  unfold setTimeout, bind, Now, set_card.
  destruct (time_Now io (env w)) as [t e']. cbn [card env trace].
  eexists. eexists. reflexivity.
Qed.

Lemma waitStartBlock_loop_trace :
  forall fuel st (w w' : @World E) st' err,
    waitStartBlock_loop io fuel st w = Ret (st', err) w' ->
    match err with
    | Some _ => exists t, trace w' = t ++ [EvCS true]
    | None => exists n, trace w' = trace w ++ repeat (EvTransfer 255) n
                        /\ (n = O -> st' = st)
    end.
Proof.
  induction fuel as [|f IH]; intros st w w' st' err H; [discriminate|].
  cbn [waitStartBlock_loop] in H. unfold bind at 1 in H.
  destruct (expired_run false w) as [ex [e1 Hex]]. rewrite Hex in H.
  destruct ex.
  - injection H as <- <- <-. exists O. cbn. rewrite app_nil_r. split; auto.
  - unfold bind at 1 in H. unfold Transfer in H. cbn [env card trace] in H.
    destruct (bus_Transfer io 255 e1) as [[rx er] e2].
    destruct er as [e|].
    + unfold bind, csEnable in H. cbn [env card trace] in H.
      injection H as <- <- <-. eexists. cbn [trace negb]. reflexivity.
    + destruct (negb (u8 rx =? 255)).
      * injection H as <- <- <-. exists 1%nat. cbn [trace repeat].
        split; [reflexivity | discriminate].
      * unfold bind at 1 in H. unfold yield at 1 in H. cbn [env card trace] in H.
        apply IH in H. destruct err as [e|]; [exact H|].
        destruct H as [n [Ht _]]. exists (S n). cbn [trace] in Ht.
        rewrite Ht, <- app_assoc. split; [reflexivity | discriminate].
Qed.

Lemma waitStartBlock_trace fuel (w w' : @World E) r :
  waitStartBlock io fuel w = Ret r w' ->
  match r with
  | Some _ => exists t, trace w' = t ++ [EvCS true]
  | None => exists n, (1 <= n)%nat
                      /\ trace w' = trace w ++ repeat (EvTransfer 255) n
  end.
Proof.
  intros H. unfold waitStartBlock in H. unfold bind at 1 in H.
  destruct (setTimeout_run false (300 * Millisecond) w) as [t [e1 Hs]].
  rewrite Hs in H. unfold bind at 1 in H.
  match type of H with
  | match waitStartBlock_loop io fuel 255 ?w1 with _ => _ end = _ =>
      destruct (waitStartBlock_loop io fuel 255 w1) as [[st err] w2| |] eqn:Hl;
        try discriminate
  end.
  apply waitStartBlock_loop_trace in Hl. cbn [trace] in Hl.
  destruct err as [e|].
  - injection H as <- <-. exact Hl.
  - destruct Hl as [n [Ht Hn]].
    destruct (Z.eqb_spec st 254) as [H254|Hne]; cbn [negb] in H.
    + injection H as <- <-. exists n. split; [|exact Ht].
      destruct n; [|lia]. specialize (Hn eq_refl). lia.
    + unfold bind, csEnable in H. injection H as <- <-.
      eexists. cbn [trace negb]. reflexivity.
Qed.

(** X18: a [waitStartBlock] that returns an error, the transport's or
    [errWaitStartBlock], has deselected the card as the last thing it did;
    one that returns nil has done nothing on the pins but clock bytes, at
    least one. *)
Theorem waitStartBlock_outcome fuel (w w' : @World E) r :
  waitStartBlock io fuel w = Ret r w' ->
  match r with
  | Some _ => exists t, trace w' = t ++ [EvCS true]
  | None => exists n, (1 <= n)%nat
                      /\ trace w' = trace w ++ repeat (EvTransfer 255) n
  end.
Proof. apply waitStartBlock_trace. Qed.

(** X19: the deferred [csEnable(false)].  Whatever [Init] returns, the
    last thing it did was to deselect the card; and a [ReadBlock] or a
    [WriteBlock] whose command got the status 0 ends by deselecting the
    card, whatever it returns. *)
Theorem deferred_deselect fuel (w : @World E) :
  (forall r w', Init io fuel w = Ret r w' -> exists t, trace w' = t ++ [EvCS true])
  /\ (forall block dst w1 r w',
         length dst = 512%nat -> block < numblocks (card w) ->
         cmdEnsure0Status io fuel CMD17_READ_SINGLE_BLOCK
           (block_address (kind (card w)) block) 255 w = Ret None w1 ->
         ReadBlock io fuel block dst w = Ret r w' ->
         exists t, trace w' = t ++ [EvCS true])
  /\ (forall block src w1 r w',
         length src = 512%nat -> block < numblocks (card w) ->
         cmdEnsure0Status io fuel CMD24_WRITE_BLOCK
           (block_address (kind (card w)) block) 255 w = Ret None w1 ->
         WriteBlock io fuel block src w = Ret r w' ->
         exists t, trace w' = t ++ [EvCS true]).
Proof.
  split; [|split].
  - intros r w' H. unfold Init in H. unfold bind at 1 in H.
    unfold set_card at 1 in H. unfold bind at 1 in H.
    match type of H with
    | match Init_body io fuel ?w1 with _ => _ end = _ =>
        destruct (Init_body io fuel w1) as [r1 w2| |]; try discriminate
    end.
    unfold bind, csEnable in H. injection H as <- <-.
    exists (trace w2). reflexivity.
  - intros block dst w1 r w' Hl Hb Hc H.
    unfold ReadBlock in H. unfold bind at 1 in H. unfold get_card at 1 in H.
    rewrite Hl in H. cbn [Nat.eqb negb] in H.
    apply Z.leb_gt in Hb. rewrite Hb in H.
    unfold bind at 1 in H. rewrite Hc in H. unfold bind at 1 in H.
    match type of H with
    | match ?m w1 with _ => _ end = _ =>
        destruct (m w1) as [r2 w2| |]; try discriminate
    end.
    unfold bind, csEnable in H. injection H as <- <-.
    exists (trace w2). reflexivity.
  - intros block src w1 r w' Hl Hb Hc H.
    unfold WriteBlock in H. unfold bind at 1 in H. unfold get_card at 1 in H.
    rewrite Hl in H. cbn [Nat.eqb negb] in H.
    apply Z.leb_gt in Hb. rewrite Hb in H.
    unfold bind at 1 in H. rewrite Hc in H. unfold bind at 1 in H.
    match type of H with
    | match ?m w1 with _ => _ end = _ =>
        destruct (m w1) as [r2 w2| |]; try discriminate
    end.
    unfold bind, csEnable in H. injection H as <- <-.
    exists (trace w2). reflexivity.
Qed.

(** *** What a block transfer that succeeds has done *)

Lemma waitNotBusy_loop_trace :
  forall fuel (w w' : @World E) r,
    waitNotBusy_loop io fuel w = Ret r w' ->
    exists n, trace w' = trace w ++ repeat (EvTransfer 255) n.
Proof.
  induction fuel as [|f IH]; intros w w' r H; [discriminate|].
  cbn [waitNotBusy_loop] in H. unfold bind at 1 in H.
  destruct (expired_run true w) as [ex [e1 Hex]]. rewrite Hex in H.
  destruct ex.
  - injection H as <- <-. exists O. cbn. rewrite app_nil_r. reflexivity.
  - unfold bind at 1 in H. unfold Transfer in H. cbn [env card trace] in H.
    destruct (bus_Transfer io 255 e1) as [[rx er] e2].
    destruct er as [e|].
    + injection H as <- <-. exists 1%nat. reflexivity.
    + destruct (u8 rx =? 255).
      * injection H as <- <-. exists 1%nat. reflexivity.
      * unfold bind at 1 in H. unfold yield at 1 in H. cbn [env card trace] in H.
        apply IH in H. destruct H as [n Ht]. exists (S n). cbn [trace] in Ht.
        rewrite Ht, <- app_assoc. reflexivity.
Qed.

Lemma waitNotBusy_trace fuel t0 (w w' : @World E) r :
  waitNotBusy io fuel t0 w = Ret r w' ->
  exists n, trace w' = trace w ++ repeat (EvTransfer 255) n.
Proof.
  intros H. unfold waitNotBusy in H. unfold bind at 1 in H.
  destruct (setTimeout_run true t0 w) as [t [e1 Hs]]. rewrite Hs in H.
  apply waitNotBusy_loop_trace in H. exact H.
Qed.

Lemma received_length (old rx : list Z) : length (received old rx) = length old.
Proof.
  unfold received. rewrite length_firstn, length_app, length_map, length_skipn.
  lia.
Qed.

Lemma cmdEnsure0Status_buf fuel c arg crc (w w' : @World E) r :
  cmdEnsure0Status io fuel c arg crc w = Ret r w' -> buf (card w') = buf (card w).
Proof.
  intros H.
  assert (Hk : post (fun x => buf (card x) = buf (card w))
                    (cmdEnsure0Status io fuel c arg crc)
                    (fun _ x => buf (card x) = buf (card w))).
  { apply cmdEnsure0Status_keeps; intros; assumption. }
  specialize (Hk w eq_refl). rewrite H in Hk. exact Hk.
Qed.

Lemma waitStartBlock_buf fuel (w w' : @World E) r :
  waitStartBlock io fuel w = Ret r w' -> buf (card w') = buf (card w).
Proof.
  intros H.
  assert (Hk : post (fun x => buf (card x) = buf (card w))
                    (waitStartBlock io fuel)
                    (fun _ x => buf (card x) = buf (card w))).
  { apply waitStartBlock_keeps; intros; assumption. }
  specialize (Hk w eq_refl). rewrite H in Hk. exact Hk.
Qed.

(** X20: a [ReadBlock] that returns nil had a 512-byte slice and an
    index below the block count, got the status 0 for CMD17 with the
    translated address and last byte 0xFF, and then did exactly this on
    the pins: at least one byte clocked for the start token, one exchange
    that writes the 512 bytes of the scratch buffer and reads into the
    slice, two bytes clocked for the CRC, and the card deselected.  The
    slice it hands back is 512 bytes long. *)
Theorem ReadBlock_success_sequence fuel block dst (w w' : @World E) dst' :
  ReadBlock io fuel block dst w = Ret (None, dst') w' ->
  length dst = 512%nat /\ block < numblocks (card w) /\ length dst' = 512%nat
  /\ exists w1 n,
       cmdEnsure0Status io fuel CMD17_READ_SINGLE_BLOCK
         (block_address (kind (card w)) block) 255 w = Ret None w1
       /\ (1 <= n)%nat
       /\ trace w' =
            trace w1 ++ repeat (EvTransfer 255) n
              ++ [EvTx (buf (card w)) (Some 512%nat); EvTransfer 255;
                  EvTransfer 255; EvCS true].
Proof.
  intros H. unfold ReadBlock in H. unfold bind at 1 in H. unfold get_card at 1 in H.
  destruct (Nat.eqb_spec (length dst) 512) as [Hl|Hl]; cbn [negb] in H;
    [|discriminate].
  destruct (Z.leb_spec (numblocks (card w)) block) as [Hb|Hb]; [discriminate|].
  unfold bind at 1 in H.
  destruct (cmdEnsure0Status io fuel CMD17_READ_SINGLE_BLOCK
              (block_address (kind (card w)) block) 255 w)
    as [[e|] w1| |] eqn:Hc; try discriminate.
  pose proof (cmdEnsure0Status_buf _ _ _ _ _ _ _ Hc) as Hbuf1.
  unfold bind at 1 in H. unfold bind at 1 in H.
  destruct (waitStartBlock io fuel w1) as [[e|] w2| |] eqn:Hw;
    try discriminate; try (unfold bind, csEnable, ret in H; discriminate).
  pose proof (waitStartBlock_buf _ _ _ _ Hw) as Hbuf2.
  apply waitStartBlock_trace in Hw. destruct Hw as [n [Hn Ht2]].
  unfold bind at 1 in H. unfold get_card at 1 in H.
  unfold bind at 1 in H. unfold Tx at 1 in H.
  destruct (bus_Tx io (buf (card w2)) (Some dst) (env w2)) as [[rx er] e3].
  destruct er as [e|];
    [try discriminate; unfold bind, csEnable, ret in H; discriminate|].
  unfold bind at 1 in H. unfold Transfer at 1 in H. cbn [env card trace] in H.
  destruct (bus_Transfer io 255 e3) as [[hi er1] e4].
  unfold bind at 1 in H. unfold Transfer at 1 in H. cbn [env card trace] in H.
  destruct (bus_Transfer io 255 e4) as [[lo er2] e5].
  unfold bind, set_card, csEnable, ret in H. cbn [env card trace] in H.
  injection H as <- <-.
  split; [exact Hl|]. split; [exact Hb|].
  split; [rewrite received_length; exact Hl|].
  exists w1, n. split; [reflexivity|]. split; [exact Hn|].
  cbn [trace negb option_map]. rewrite Ht2, Hbuf2, Hbuf1, Hl.
  rewrite <- !app_assoc. reflexivity.
Qed.

(** X21: a [WriteBlock] that returns nil had a 512-byte slice and an
    index below the block count, got the status 0 for CMD24 with the
    translated address and last byte 0xFF, and then did exactly this on
    the pins: the start token 0xFE, the 512 bytes of the slice, two bytes
    0xFF in place of a CRC, one byte clocked for the data response, any
    number of busy polls, and the card deselected. *)
Theorem WriteBlock_success_sequence fuel block src (w w' : @World E) :
  WriteBlock io fuel block src w = Ret None w' ->
  length src = 512%nat /\ block < numblocks (card w)
  /\ exists w1 n,
       cmdEnsure0Status io fuel CMD24_WRITE_BLOCK
         (block_address (kind (card w)) block) 255 w = Ret None w1
       /\ trace w' =
            trace w1 ++ [EvTransfer 254; EvTx src None; EvTransfer 255;
                         EvTransfer 255; EvTransfer 255]
              ++ repeat (EvTransfer 255) n ++ [EvCS true].
Proof.
  intros H. unfold WriteBlock in H. unfold bind at 1 in H. unfold get_card at 1 in H.
  destruct (Nat.eqb_spec (length src) 512) as [Hl|Hl]; cbn [negb] in H;
    [|discriminate].
  destruct (Z.leb_spec (numblocks (card w)) block) as [Hb|Hb]; [discriminate|].
  unfold bind at 1 in H.
  destruct (cmdEnsure0Status io fuel CMD24_WRITE_BLOCK
              (block_address (kind (card w)) block) 255 w)
    as [[e|] w1| |] eqn:Hc; try discriminate.
  rewrite firstn_all2 in H by lia.
  unfold bind at 1 in H. unfold bind at 1 in H. unfold Transfer at 1 in H.
  destruct (bus_Transfer io 254 (env w1)) as [[r0 er0] e2].
  unfold bind at 1 in H. unfold Tx at 1 in H. cbn [env card trace] in H.
  destruct (bus_Tx io src None e2) as [[rx er] e3].
  destruct er as [e|];
    [try discriminate; unfold bind, csEnable, ret in H; discriminate|].
  unfold bind at 1 in H. unfold Transfer at 1 in H. cbn [env card trace] in H.
  destruct (bus_Transfer io 255 e3) as [[r1 er1] e4].
  unfold bind at 1 in H. unfold Transfer at 1 in H. cbn [env card trace] in H.
  destruct (bus_Transfer io 255 e4) as [[r2 er2] e5].
  unfold bind at 1 in H. unfold Transfer at 1 in H. cbn [env card trace] in H.
  destruct (bus_Transfer io 255 e5) as [[r3 er3] e6].
  destruct er3 as [e|];
    [try discriminate; unfold bind, csEnable, ret in H; discriminate|].
  match type of H with
  | context [negb ?b] => destruct (negb b)
  end; [try discriminate; unfold bind, csEnable, ret in H; discriminate|].
  unfold WriteBlock_busy in H. unfold bind at 1 in H. unfold bind at 1 in H.
  match type of H with
  | match (match waitNotBusy io fuel ?t ?wa with _ => _ end) with _ => _ end = _ =>
      destruct (waitNotBusy io fuel t wa) as [[e|] wb| |] eqn:Hwb;
        try discriminate;
        try (unfold bind, csEnable, ret in H; discriminate)
  end.
  apply waitNotBusy_trace in Hwb. destruct Hwb as [n Htb].
  unfold bind, csEnable, ret in H. injection H as <-.
  split; [exact Hl|]. split; [exact Hb|].
  exists w1, n. split; [reflexivity|].
  cbn [trace negb option_map] in *. rewrite Htb.
  rewrite <- !app_assoc. reflexivity.
Qed.

(** *** The checksum of the last block read *)

Ltac crc_step :=
  lazymatch goal with
  | |- post _ (bind (set_card (with_lastCRC _)) _) _ =>
      apply (post_bind _ (fun _ _ => True));
      [intros ? _; exact Logic.I
      | intros; apply post_ret; intros ? _ Hn; exfalso; apply Hn; reflexivity]
  end.

Lemma Init_count_lastCRC x :
  post (E:=E) (on_card (same_lastCRC x)) Init_count
       (fun _ => on_card (same_lastCRC x)).
Proof. unfold Init_count. run. Qed.

Hint Resolve Init_count_lastCRC : sd_card.

Lemma Init_registers_lastCRC x fuel :
  post (on_card (same_lastCRC x)) (Init_registers io fuel)
       (fun _ => on_card (same_lastCRC x)).
Proof. unfold Init_registers. run. Qed.

Hint Resolve Init_registers_lastCRC : sd_card.

Lemma Init_negotiate_lastCRC x fuel r1 :
  post (on_card (same_lastCRC x)) (Init_negotiate io fuel r1)
       (fun _ => on_card (same_lastCRC x)).
Proof. unfold Init_negotiate. run. Qed.

Hint Resolve Init_negotiate_lastCRC : sd_card.

Lemma Init_body_lastCRC x fuel :
  post (on_card (same_lastCRC x)) (Init_body io fuel)
       (fun _ => on_card (same_lastCRC x)).
Proof. unfold Init_body. run. Qed.

Hint Resolve Init_body_lastCRC : sd_card.

Lemma Init_lastCRC x fuel :
  post (on_card (same_lastCRC x)) (Init io fuel)
       (fun _ => on_card (same_lastCRC x)).
Proof. unfold Init. run. Qed.

Lemma ReadBlock_failed_lastCRC x fuel block dst :
  post (on_card (same_lastCRC x)) (ReadBlock io fuel block dst)
       (fun r w => fst r <> None -> same_lastCRC x (card w)).
Proof.
  unfold ReadBlock.
  apply (post_bind _ (fun _ => on_card (same_lastCRC x))); [auto with sd_card|].
  intros d. destruct (negb _); [run_step|]. destruct (_ <=? _); [run_step|].
  apply (post_bind _ (fun _ => on_card (same_lastCRC x))); [auto with sd_card|].
  intros [e|]; [run_step|].
  apply (post_bind _ (fun r w => fst r <> None -> same_lastCRC x (card w))).
  - repeat first [crc_step | run_step].
  - intros r w Hw. unfold bind, csEnable, ret. cbn [card]. exact Hw.
Qed.

(** X22: the checksum that [LastReadCRC] reports is written by a
    [ReadBlock] that returns nil and by nothing else: [Init],
    [WriteBlock] and a [ReadBlock] that returns an error leave it as it
    was. *)
Theorem LastReadCRC_written_by_successful_read_only fuel (w : @World E) :
  (forall r w', Init io fuel w = Ret r w' ->
                LastReadCRC (card w') = LastReadCRC (card w))
  /\ (forall block src r w',
         WriteBlock io fuel block src w = Ret r w' ->
         LastReadCRC (card w') = LastReadCRC (card w))
  /\ (forall block dst e dst' w',
         ReadBlock io fuel block dst w = Ret (Some e, dst') w' ->
         LastReadCRC (card w') = LastReadCRC (card w)).
Proof.
  split; [|split].
  - intros r w' H.
    pose proof (Init_lastCRC (lastCRC (card w)) fuel w eq_refl) as Hk.
    rewrite H in Hk. exact Hk.
  - intros block src r w' H.
    assert (Hk : post (on_card (same_lastCRC (lastCRC (card w))))
                      (WriteBlock io fuel block src)
                      (fun _ => on_card (same_lastCRC (lastCRC (card w)))))
      by auto with sd_card.
    specialize (Hk w eq_refl). rewrite H in Hk. exact Hk.
  - intros block dst e dst' w' H.
    pose proof (ReadBlock_failed_lastCRC (lastCRC (card w)) fuel block dst w eq_refl)
      as Hk.
    rewrite H in Hk. apply Hk. discriminate.
Qed.

(** X23: whatever they return, [ReadBlock] and [WriteBlock] leave the
    card kind, the block count, the decoded CID and CSD and the scratch
    buffer of the session as they were. *)
Theorem block_transfers_keep_the_registers fuel block sl (w : @World E) :
  (forall r w', ReadBlock io fuel block sl w = Ret r w' ->
                same_registers (card w) (card w'))
  /\ (forall r w', WriteBlock io fuel block sl w = Ret r w' ->
                   same_registers (card w) (card w')).
Proof.
  assert (H0 : same_registers (card w) (card w)).
  { unfold same_registers. repeat split; reflexivity. }
  split; intros r w' H.
  - assert (Hk : post (fun x => same_registers (card w) (card x))
                      (ReadBlock io fuel block sl)
                      (fun _ x => same_registers (card w) (card x))).
    { apply ReadBlock_keeps; intros; assumption. }
    specialize (Hk w H0). rewrite H in Hk. exact Hk.
  - assert (Hk : post (fun x => same_registers (card w) (card x))
                      (WriteBlock io fuel block sl)
                      (fun _ x => same_registers (card w) (card x))).
    { apply WriteBlock_keeps; intros; assumption. }
    specialize (Hk w H0). rewrite H in Hk. exact Hk.
Qed.

(** *** The scratch buffer through [Init] *)

Lemma bytes_store i v l : is_byte v -> bytes l -> bytes (store i v l).
Proof.
  unfold bytes. intros Hv. revert i. induction l as [|h t IH]; intros i Hl.
  - destruct i; constructor.
  - inversion Hl; subst. destruct i as [|i]; cbn [store];
      constructor; auto.
Qed.

Lemma firstn_store_high k i v l :
  (k <= i)%nat -> firstn k (store i v l) = firstn k l.
Proof.
  revert k i. induction l as [|h t IH]; intros k i Hk.
  - destruct i; reflexivity.
  - destruct k as [|k]; [reflexivity|]. destruct i as [|i]; [lia|].
    cbn [store firstn]. rewrite IH by lia. reflexivity.
Qed.

Lemma u8_is_byte x : is_byte (u8 x).
Proof. unfold is_byte, u8. apply Z.mod_pos_bound. lia. Qed.

Lemma scratch_store d off v :
  (496 <= off)%nat -> is_byte v -> scratch_ok d ->
  scratch_ok (with_buf (store off v (buf d)) d).
Proof.
  intros Ho Hv [Hl [Hb Hf]]. unfold scratch_ok. cbn [with_buf buf].
  split; [rewrite store_length; exact Hl|].
  split; [apply bytes_store; assumption|].
  rewrite firstn_store_high by exact Ho. exact Hf.
Qed.

Lemma readRegister_bytes_scratch n off :
  (496 <= off)%nat ->
  post (on_card scratch_ok) (readRegister_bytes io n off)
       (fun _ => on_card scratch_ok).
Proof.
  revert off. induction n as [|n IH]; intros off Ho; cbn [readRegister_bytes].
  - apply post_ret. auto.
  - intros w Hw. unfold bind at 1. unfold Transfer.
    destruct (bus_Transfer io 255 (env w)) as [[rx er] e'].
    destruct er as [e|]; [exact Hw|].
    unfold bind at 1. unfold set_card. cbn [card env trace].
    apply (IH (S off)); [lia|].
    unfold on_card. cbn [card].
    apply scratch_store; [exact Ho | apply u8_is_byte | exact Hw].
Qed.

Hint Resolve readRegister_bytes_scratch : sd_card.

Lemma readRegister_scratch fuel c off :
  (496 <= off)%nat ->
  post (on_card scratch_ok) (readRegister io fuel c off)
       (fun _ => on_card scratch_ok).
Proof. intros Ho. unfold readRegister. run. Qed.

Lemma readCID_scratch fuel :
  post (on_card scratch_ok) (readCID io fuel) (fun _ => on_card scratch_ok).
Proof.
  intros w Hw. unfold readCID. unfold bind at 1. unfold get_card at 1.
  pose proof Hw as [Hl _]. rewrite Hl. change (512 - 16)%nat with 496%nat.
  pose proof (readRegister_scratch fuel CMD10_SEND_CID 496 (le_n _) w Hw) as Hr.
  unfold bind at 1.
  destruct (readRegister io fuel CMD10_SEND_CID 496 w) as [[e|] w1| |];
    try exact Logic.I; exact Hr.
Qed.

Lemma skipn_scratch d :
  scratch_ok d ->
  length (skipn 496 (buf d)) = 16%nat /\ bytes (skipn 496 (buf d))
  /\ buf d = repeat 255 496 ++ skipn 496 (buf d).
Proof.
  intros [Hl [Hb Hf]]. split; [rewrite length_skipn; lia|]. split.
  - unfold bytes in *. rewrite <- (firstn_skipn 496 (buf d)) in Hb.
    apply Forall_app in Hb. apply Hb.
  - rewrite <- Hf. symmetry. apply firstn_skipn.
Qed.

Lemma readCSD_scratch fuel :
  post (on_card scratch_ok) (readCSD io fuel)
       (fun r w => scratch_ok (card w)
                   /\ (snd r = None -> fst r = mkCSD (skipn 496 (buf (card w))))).
Proof.
  intros w Hw. unfold readCSD. unfold bind at 1. unfold get_card at 1.
  pose proof Hw as [Hl _]. rewrite Hl. change (512 - 16)%nat with 496%nat.
  pose proof (readRegister_scratch fuel CMD9_SEND_CSD 496 (le_n _) w Hw) as Hr.
  unfold bind at 1.
  destruct (readRegister io fuel CMD9_SEND_CSD 496 w) as [[e|] w1| |];
    try exact Logic.I.
  - split; [exact Hr | intros; discriminate].
  - unfold bind, get_card, ret. split; [exact Hr|]. intros _.
    destruct (skipn_scratch _ Hr) as [H16 _].
    unfold DecodeCSD. rewrite H16. cbn [Nat.ltb Nat.leb fst].
    rewrite firstn_all2 by lia. reflexivity.
Qed.

Lemma Init_registers_scratch fuel :
  post (on_card scratch_ok) (Init_registers io fuel)
       (fun r w => r = None -> csd_in_scratch (card w)).
Proof.
  unfold Init_registers.
  apply (post_bind _ (fun _ => on_card scratch_ok)); [auto with sd_card|].
  intros [e|]; [apply post_ret; intros; discriminate|].
  apply (post_bind _ (fun _ => on_card scratch_ok)); [apply readCID_scratch|].
  intros [c err].
  apply (post_bind _ (fun _ => on_card scratch_ok));
    [apply post_set_card; intros ? Hs; exact Hs|].
  intros _. destruct err as [e|]; [apply post_ret; intros; discriminate|].
  apply (post_bind _
           (fun r w => scratch_ok (card w)
                       /\ (snd r = None -> fst r = mkCSD (skipn 496 (buf (card w))))));
    [apply readCSD_scratch|].
  intros [c2 err2] w [Hs Hc]. unfold bind at 1. unfold set_card. cbn [card env trace].
  destruct err2 as [e|]; [intros; discriminate|].
  specialize (Hc eq_refl). cbn [fst] in Hc. subst c2.
  unfold Init_count, bind, get_card, or_panic. cbn [card with_csd csd].
  destruct (NumberOfBlocks _) as [nb|]; [|exact Logic.I].
  destruct (MaxUint32 <? nb); [intros; discriminate|].
  destruct (nb =? 0); [intros; discriminate|].
  unfold set_card, ret. cbn [card]. intros _.
  destruct (skipn_scratch _ Hs) as [H16 [Hb Hbuf]].
  unfold csd_in_scratch, wf_CSD. cbn [with_numblocks with_csd csd buf data].
  repeat split; assumption.
Qed.

Hint Resolve Init_registers_scratch : sd_card.

Lemma Init_negotiate_scratch fuel r1 :
  post (on_card scratch_ok) (Init_negotiate io fuel r1)
       (fun r w => r = None -> csd_in_scratch (card w)).
Proof. unfold Init_negotiate. run. Qed.

Hint Resolve Init_negotiate_scratch : sd_card.

Lemma Init_body_scratch fuel :
  post (on_card scratch_ok) (Init_body io fuel)
       (fun r w => r = None -> csd_in_scratch (card w)).
Proof. unfold Init_body. run. Qed.

Lemma scratch_fresh : scratch_ok (with_buf (repeat 255 512) NewSPICard).
Proof.
  unfold scratch_ok. cbn [with_buf buf]. split; [reflexivity|].
  split; [|reflexivity].
  unfold bytes. apply Forall_forall. intros x Hx.
  apply repeat_spec in Hx. subst x. unfold is_byte. lia.
Qed.

Lemma Init_scratch fuel (w w' : @World E) :
  length (buf (card w)) = 512%nat ->
  Init io fuel w = Ret None w' -> csd_in_scratch (card w').
Proof.
  intros Hl H. unfold Init in H. unfold bind at 1 in H. unfold set_card in H.
  rewrite Hl in H.
  match type of H with
  | bind _ _ ?w0 = _ =>
      assert (Hs : on_card scratch_ok w0) by
        (unfold on_card; cbn [card]; destruct scratch_fresh as [A [B C]];
         unfold scratch_ok; cbn [with_buf buf] in *; auto);
      pose proof (Init_body_scratch fuel w0 Hs) as Hb
  end.
  unfold bind at 1 in H.
  destruct (Init_body io fuel _) as [r w1| |]; try discriminate.
  unfold bind, csEnable, ret in H. injection H as -> <-. cbn [card].
  apply Hb. reflexivity.
Qed.

(** X24: after an [Init] that returns nil on a session whose scratch
    buffer has its 512 bytes, the CSD that [CSD()] returns is 16 bytes
    long and is what the scratch buffer holds in its last 16 bytes, after
    496 bytes 0xFF; its structure decodes a block count, and that count is
    what [NumberOfBlocks()] returns. *)
Theorem Init_publishes_the_CSD_it_read fuel (w w' : @World E) :
  length (buf (card w)) = 512%nat ->
  Init io fuel w = Ret None w' ->
  wf_CSD (SPICard_CSD (card w'))
  /\ buf (card w') = repeat 255 496 ++ RawCopy (SPICard_CSD (card w'))
  /\ NumberOfBlocks (SPICard_CSD (card w')) = Some (SPICard_NumberOfBlocks (card w'))
  /\ 0 < SPICard_NumberOfBlocks (card w') <= MaxUint32.
Proof.
  intros Hl H.
  destruct (Init_scratch fuel w w' Hl H) as [Hwf Hbuf].
  pose proof (Init_ok fuel w Logic.I) as Hi. rewrite H in Hi.
  destruct (Hi eq_refl) as [_ [Hn Hr]].
  assert (Hu : SPICard_NumberOfBlocks (card w') = numblocks (card w')).
  { unfold SPICard_NumberOfBlocks, u64. unfold MaxUint32 in Hr.
    apply Z.mod_small. lia. }
  unfold SPICard_CSD, RawCopy. rewrite Hu.
  repeat split; try assumption; try apply Hwf; apply Hr.
Qed.

(** *** The order of the commands of [Init] *)

Lemma progress_card k t0 fs (w : @World E) (d : SPICard) (e : E) :
  kind d = kind (card w) -> progress (E:=E) k t0 fs w ->
  progress k t0 fs (mkWorld d e (trace w)).
Proof. intros Hd [Hk Hs]. split; [cbn [card]; congruence | exact Hs]. Qed.

Lemma progress_pins k t0 fs :
  forall (w : @World E) (e : E) ev,
    is_frame ev = false -> progress (E:=E) k t0 fs w ->
    progress k t0 fs (mkWorld (card w) e (trace w ++ [ev])).
Proof.
  intros w e ev Hev [Hk [l [Ht Hf]]]. split; [exact Hk|].
  exists (l ++ [ev]). cbn [trace]. split; [rewrite Ht, app_assoc; reflexivity|].
  rewrite filter_app, Hf. cbn [filter]. rewrite Hev. apply app_nil_r.
Qed.

Lemma progress_frame k t0 fs (w : @World E) (e : E) wr :
  progress (E:=E) k t0 fs w ->
  progress k t0 (fs ++ [EvTx wr None]) (mkWorld (card w) e (trace w ++ [EvTx wr None])).
Proof.
  intros [Hk [l [Ht Hf]]]. split; [exact Hk|].
  exists (l ++ [EvTx wr None]). cbn [trace].
  split; [rewrite Ht, app_assoc; reflexivity|].
  rewrite filter_app, Hf. reflexivity.
Qed.

Lemma progress_clock k t0 fs :
  forall (w : @World E) (e : E), progress (E:=E) k t0 fs w ->
                           progress k t0 fs (mkWorld (card w) e (trace w)).
Proof. intros. apply progress_card; [reflexivity | assumption]. Qed.

Lemma progress_timers k t0 fs :
  forall (w : @World E) v,
    progress (E:=E) k t0 fs w ->
    progress k t0 fs (mkWorld (with_timers v (card w)) (env w) (trace w)).
Proof. intros. apply progress_card; [reflexivity | assumption]. Qed.

Lemma progress_bufTok k t0 fs :
  forall (w : @World E) v,
    progress (E:=E) k t0 fs w ->
    progress k t0 fs (mkWorld (with_bufTok v (card w)) (env w) (trace w)).
Proof. intros. apply progress_card; [reflexivity | assumption]. Qed.

Lemma progress_bufcmd k t0 fs :
  forall (w : @World E) v,
    progress (E:=E) k t0 fs w ->
    progress k t0 fs (mkWorld (with_bufcmd v (card w)) (env w) (trace w)).
Proof. intros. apply progress_card; [reflexivity | assumption]. Qed.

Lemma progress_buf k t0 fs :
  forall (w : @World E) v,
    progress (E:=E) k t0 fs w ->
    progress k t0 fs (mkWorld (with_buf v (card w)) (env w) (trace w)).
Proof. intros. apply progress_card; [reflexivity | assumption]. Qed.

Hint Resolve progress_pins progress_clock progress_timers progress_bufTok
  progress_bufcmd progress_buf : sd_card.

Lemma post_run {A} (P : @World E -> Prop) (m : M A) Q (w w' : @World E) r :
  post P m Q -> P w -> m w = Ret r w' -> Q r w'.
Proof. intros H Hw Hr. specialize (H w Hw). rewrite Hr in H. exact H. Qed.

Lemma cmd_progress k t0 fs fuel c arg crc :
  post (progress k t0 fs) (cmd io fuel c arg crc)
       (fun _ => progress k t0 (fs ++ [sent_frame c arg crc])).
Proof.
  intros w [Hk [l [Ht Hf]]].
  destruct (cmd io fuel c arg crc w) as [r w'| |] eqn:H; try exact Logic.I.
  split.
  - assert (Hp : post (fun x => kind (card x) = k) (cmd io fuel c arg crc)
                      (fun _ x => kind (card x) = k)).
    { apply cmd_keeps; intros; assumption. }
    exact (post_run _ _ _ _ _ _ Hp Hk H).
  - destruct (cmd_one_frame _ _ _ _ _ _ _ H) as [l2 [Ht2 Hf2]].
    exists (l ++ l2). split; [rewrite Ht2, Ht, app_assoc; reflexivity|].
    rewrite filter_app, Hf, Hf2. reflexivity.
Qed.

Lemma cmdEnsure0Status_progress k t0 fs fuel c arg crc :
  post (progress k t0 fs) (cmdEnsure0Status io fuel c arg crc)
       (fun _ => progress k t0 (fs ++ [sent_frame c arg crc])).
Proof.
  unfold cmdEnsure0Status.
  apply (post_bind _ (fun _ => progress k t0 (fs ++ [sent_frame c arg crc])));
    [apply cmd_progress|].
  intros. run.
Qed.

Lemma post_weaken {A} (P : @World E -> Prop) (m : M A) (Q Q' : A -> @World E -> Prop) :
  post P m Q -> (forall r w, Q r w -> Q' r w) -> post P m Q'.
Proof.
  intros H HQ w Hw. specialize (H w Hw).
  destruct (m w) as [r w'| |]; [apply HQ, H | exact Logic.I | exact Logic.I].
Qed.

Lemma post_pre {A} (P P' : @World E -> Prop) (m : M A) Q :
  (forall w, P' w -> P w) -> post P m Q -> post P' m Q.
Proof. intros HP H w Hw. apply H, HP, Hw. Qed.

Lemma post_ex {A X} (P : X -> @World E -> Prop) (m : M A) Q :
  (forall x, post (P x) m Q) -> post (fun w => exists x, P x w) m Q.
Proof. intros H w [x Hx]. apply (H x w Hx). Qed.

Lemma post_assume {A} (phi : Prop) (P : @World E -> Prop) (m : M A) Q :
  (phi -> post P m Q) -> post (fun w => P w /\ phi) m Q.
Proof. intros H w [Hw Hphi]. apply (H Hphi w Hw). Qed.

Hint Extern 1 (post (progress _ _ _) (set_card _) _) =>
  apply post_set_card; intros ? ?; cbv beta;
  apply progress_card; [reflexivity | assumption] : sd_card.

Lemma Tx_frame_progress k t0 fs wr :
  post (progress k t0 fs) (Tx io wr None)
       (fun _ => progress k t0 (fs ++ [EvTx wr None])).
Proof.
  intros w Hw. unfold Tx.
  destruct (bus_Tx io wr None (env w)) as [[rx err] e'].
  apply progress_frame, Hw.
Qed.

Ltac frame_step :=
  lazymatch goal with
  | |- post (progress ?k ?t0 ?fs) (bind (cmd _ _ ?c ?a ?crc) _) _ =>
      apply (post_bind _ (fun _ => progress k t0 (fs ++ [sent_frame c a crc])));
      [apply cmd_progress | intros]
  | |- post (progress ?k ?t0 ?fs) (bind (cmdEnsure0Status _ _ ?c ?a ?crc) _) _ =>
      apply (post_bind _ (fun _ => progress k t0 (fs ++ [sent_frame c a crc])));
      [apply cmdEnsure0Status_progress | intros]
  | |- post (progress ?k ?t0 ?fs) (bind (Tx _ ?wr None) _) _ =>
      apply (post_bind _ (fun _ => progress k t0 (fs ++ [EvTx wr None])));
      [apply Tx_frame_progress | intros]
  end.

Lemma appCmd_progress k t0 fs fuel c arg :
  post (progress k t0 fs) (appCmd io fuel c arg)
       (fun r w => snd r = None ->
                   progress k t0 (fs ++ [sent_frame CMD55_APP_CMD 0 255;
                                         sent_frame c arg 255]) w).
Proof.
  unfold appCmd. frame_step. destruct a as [st [e|]].
  - apply post_ret. intros w _ Hn. discriminate Hn.
  - eapply post_weaken; [apply cmd_progress|].
    intros r w Hw _. rewrite <- app_assoc in Hw. exact Hw.
Qed.

Lemma readRegister_progress k t0 fs fuel c off :
  post (progress k t0 fs) (readRegister io fuel c off)
       (fun _ => progress k t0 (fs ++ [sent_frame c 0 255])).
Proof. unfold readRegister. frame_step. run. Qed.

Lemma readCID_progress k t0 fs fuel :
  post (progress k t0 fs) (readCID io fuel)
       (fun _ => progress k t0 (fs ++ [sent_frame CMD10_SEND_CID 0 255])).
Proof.
  unfold readCID. run_step.
  apply (post_bind _ (fun _ => progress k t0 (fs ++ [sent_frame CMD10_SEND_CID 0 255])));
    [apply readRegister_progress|].
  intros. run.
Qed.

Lemma readCSD_progress k t0 fs fuel :
  post (progress k t0 fs) (readCSD io fuel)
       (fun _ => progress k t0 (fs ++ [sent_frame CMD9_SEND_CSD 0 255])).
Proof.
  unfold readCSD. run_step.
  apply (post_bind _ (fun _ => progress k t0 (fs ++ [sent_frame CMD9_SEND_CSD 0 255])));
    [apply readRegister_progress|].
  intros. run.
Qed.

Lemma Init_count_progress k t0 fs :
  post (E:=E) (progress k t0 fs) Init_count (fun _ => progress k t0 fs).
Proof. unfold Init_count. run. Qed.

Lemma Init_registers_progress k t0 fs fuel :
  post (progress k t0 fs) (Init_registers io fuel)
       (fun r w => r = None ->
                   progress k t0 (fs ++ [sent_frame CMD16_SET_BLOCKLEN 512 255;
                                         sent_frame CMD10_SEND_CID 0 255;
                                         sent_frame CMD9_SEND_CSD 0 255]) w).
Proof.
  unfold Init_registers. frame_step. destruct a as [e|]; [run_step|].
  apply (post_bind _ (fun _ => progress k t0
           ((fs ++ [sent_frame CMD16_SET_BLOCKLEN 512 255])
            ++ [sent_frame CMD10_SEND_CID 0 255])));
    [apply readCID_progress|].
  intros [c err]. run_step. destruct err as [e|]; [run_step|].
  apply (post_bind _ (fun _ => progress k t0
           (((fs ++ [sent_frame CMD16_SET_BLOCKLEN 512 255])
             ++ [sent_frame CMD10_SEND_CID 0 255])
            ++ [sent_frame CMD9_SEND_CSD 0 255])));
    [apply readCSD_progress|].
  intros [c2 err2]. run_step. destruct err2 as [e|]; [run_step|].
  eapply post_weaken; [apply Init_count_progress|].
  intros r w Hw _. rewrite <- !app_assoc in Hw. exact Hw.
Qed.

Lemma Init_idle_loop_progress k t0 fuel :
  forall loops fs,
    post (progress k t0 fs) (Init_idle_loop io fuel loops)
         (fun r w => snd r = true ->
                     exists n, (1 <= n)%nat
                               /\ progress k t0
                                    (fs ++ repeat (sent_frame CMD0_GO_IDLE_STATE 0 149) n) w).
Proof.
  induction loops as [|l IH]; intros fs; cbn [Init_idle_loop]; [apply post_spent|].
  run_step. destruct a.
  - apply post_ret. intros w _ Hn. discriminate Hn.
  - frame_step. destruct a as [result [e|]].
    + apply post_ret. intros w _ Hn. discriminate Hn.
    + destruct (result =? _R1_IDLE_STATE).
      * apply post_ret. intros w Hw _. exists 1%nat. split; [lia | exact Hw].
      * eapply post_weaken; [apply IH|].
        intros r w Hw Hr. destruct (Hw Hr) as [n [Hn Hp]].
        exists (S n). split; [lia|].
        rewrite <- app_assoc in Hp. exact Hp.
Qed.

Lemma Init_opcond_loop_progress k t0 fuel arg :
  forall loops fs r1,
    post (progress k t0 fs) (Init_opcond_loop io fuel loops arg r1)
         (fun r w => snd r = None ->
                     exists m,
                       progress k t0
                         (fs ++ concat (repeat [sent_frame CMD55_APP_CMD 0 255;
                                                sent_frame ACMD41_SD_APP_OP_COND arg 255]
                                               m)) w).
Proof.
  induction loops as [|l IH]; intros fs r1; cbn [Init_opcond_loop];
    [apply post_spent|].
  run_step. destruct a.
  - apply post_ret. intros w Hw _. exists 0%nat. cbn [repeat concat].
    rewrite app_nil_r. exact Hw.
  - apply (post_bind _ (fun r w => snd r = None ->
                          progress k t0
                            (fs ++ [sent_frame CMD55_APP_CMD 0 255;
                                    sent_frame ACMD41_SD_APP_OP_COND arg 255]) w));
      [apply appCmd_progress|].
    intros [r [e|]].
    + apply post_ret. intros w _ Hn. discriminate Hn.
    + apply (post_pre (progress k t0
                         (fs ++ [sent_frame CMD55_APP_CMD 0 255;
                                 sent_frame ACMD41_SD_APP_OP_COND arg 255])));
        [intros w Hw; apply Hw; reflexivity|].
      destruct (r =? 0).
      * apply post_ret. intros w Hw _. exists 1%nat. cbn [repeat concat].
        rewrite app_nil_r. exact Hw.
      * eapply post_weaken; [apply IH|].
        intros r' w Hw Hr. destruct (Hw Hr) as [m Hp].
        exists (S m). cbn [repeat concat]. rewrite <- app_assoc in Hp. exact Hp.
Qed.

Lemma Init_negotiate_progress t0 fs fuel r1 :
  post (progress TypeSD2 t0 fs) (Init_negotiate io fuel r1)
       (fun r w => r = None ->
                   exists m k',
                     progress k' t0
                       (fs ++ concat (repeat [sent_frame CMD55_APP_CMD 0 255;
                                              sent_frame ACMD41_SD_APP_OP_COND
                                                1073741824 255] m)
                           ++ [sent_frame CMD58_READ_OCR 0 255;
                               sent_frame CMD16_SET_BLOCKLEN 512 255;
                               sent_frame CMD10_SEND_CID 0 255;
                               sent_frame CMD9_SEND_CSD 0 255]) w).
Proof.
  unfold Init_negotiate.
  apply (post_bind _ (fun d w => progress TypeSD2 t0 fs w /\ kind d = TypeSD2));
    [intros w Hw; split; [exact Hw | exact (proj1 Hw)]|].
  intros d. apply post_assume. intros ->. rewrite Z.eqb_refl.
  run_step.
  apply (post_bind _ (fun r w => snd r = None ->
           exists m,
             progress TypeSD2 t0
               (fs ++ concat (repeat [sent_frame CMD55_APP_CMD 0 255;
                                      sent_frame ACMD41_SD_APP_OP_COND
                                        1073741824 255] m)) w));
    [apply Init_opcond_loop_progress|].
  intros [r1' [e|]].
  { apply post_ret. intros w _ Hn. discriminate Hn. }
  apply (post_pre (fun w => exists m,
             progress TypeSD2 t0
               (fs ++ concat (repeat [sent_frame CMD55_APP_CMD 0 255;
                                      sent_frame ACMD41_SD_APP_OP_COND
                                        1073741824 255] m)) w));
    [intros w Hw; apply Hw; reflexivity|].
  apply post_ex. intros m.
  destruct (negb (r1' =? 0)).
  { apply post_ret. intros w _ Hn. discriminate Hn. }
  set (fs1 := fs ++ concat (repeat [sent_frame CMD55_APP_CMD 0 255;
                                    sent_frame ACMD41_SD_APP_OP_COND
                                      1073741824 255] m)).
  apply (post_bind _ (fun d w => progress TypeSD2 t0 fs1 w /\ kind d = TypeSD2));
    [intros w Hw; split; [exact Hw | exact (proj1 Hw)]|].
  intros d'. apply post_assume. intros ->. rewrite Z.eqb_refl.
  frame_step. destruct a0 as [e|]; [run_step|].
  run_step. destruct a0 as [statusb [e|]]; [run_step|].
  apply (post_bind _ (fun _ w => exists k',
            progress k' t0 (fs1 ++ [sent_frame CMD58_READ_OCR 0 255]) w)).
  { destruct (Z.land statusb 192 =? 192).
    - apply post_set_card. intros w [Hk Hs]. exists TypeSDHC.
      split; [reflexivity | exact Hs].
    - apply post_ret. intros w Hw. exists TypeSD2. exact Hw. }
  intros _. apply post_ex. intros k'.
  run_step. run_step. run_step.
  eapply post_weaken; [apply Init_registers_progress|].
  intros r w Hw Hr. exists m, k'. specialize (Hw Hr).
  unfold fs1 in Hw. rewrite <- !app_assoc in Hw. exact Hw.
Qed.

Lemma progress_buf_pins k t0 fs b :
  forall (w : @World E) (e : E) ev,
    is_frame ev = false ->
    progress (E:=E) k t0 fs w /\ buf (card w) = b ->
    progress k t0 fs (mkWorld (card w) e (trace w ++ [ev]))
    /\ buf (card (mkWorld (card w) e (trace w ++ [ev]))) = b.
Proof.
  intros w e ev Hev [Hp Hb]. split; [apply progress_pins; assumption | exact Hb].
Qed.

Lemma Init_body_progress k0 t0 fuel :
  post (fun w => progress k0 t0 [] w /\ buf (card w) = repeat 255 512)
       (Init_body io fuel)
       (fun r w => r = None ->
                   exists k m k', (1 <= k)%nat /\ progress k' t0 (Init_frames k m) w).
Proof.
  unfold Init_body.
  apply (post_bind _ (fun _ w => progress k0 t0 [] w /\ buf (card w) = repeat 255 512)).
  { apply csEnable_keeps. apply progress_buf_pins. }
  intros _.
  apply (post_bind _ (fun d w => progress k0 t0 [] w /\ buf d = repeat 255 512));
    [intros w Hw; exact Hw|].
  intros d. apply post_assume. intros ->.
  change (firstn 10 (repeat 255 512)) with (repeat 255 10).
  frame_step. run_step. frame_step. run_step.
  apply (post_bind _ (fun r w => snd r = true ->
           exists n, (1 <= n)%nat
                     /\ progress k0 t0
                          (([] ++ [EvTx (repeat 255 10) None])
                             ++ [EvTx (repeat 255 512) None]
                           ++ repeat (sent_frame CMD0_GO_IDLE_STATE 0 149) n) w)).
  { eapply post_weaken; [apply Init_idle_loop_progress|].
    intros r w Hw Hr. destruct (Hw Hr) as [n [Hn Hp]]. exists n.
    split; [exact Hn|]. rewrite <- app_assoc in Hp. exact Hp. }
  intros [[e|] ok].
  { apply post_ret. intros w _ Hn. discriminate Hn. }
  destruct ok; cbn [negb];
    [|apply post_ret; intros w _ Hn; discriminate Hn].
  apply (post_pre (fun w => exists n,
                     progress k0 t0
                       (([] ++ [EvTx (repeat 255 10) None])
                          ++ [EvTx (repeat 255 512) None]
                        ++ repeat (sent_frame CMD0_GO_IDLE_STATE 0 149) n) w
                     /\ (1 <= n)%nat));
    [intros w Hw; destruct (Hw eq_refl) as [n [Hn Hp]]; exists n; split; assumption|].
  apply post_ex. intros n. apply post_assume. intros Hn.
  set (fs0 := ([] ++ [EvTx (repeat 255 10) None])
                ++ [EvTx (repeat 255 512) None]
                ++ repeat (sent_frame CMD0_GO_IDLE_STATE 0 149) n).
  frame_step. destruct a3 as [r1 [e|]]; [run_step|].
  destruct (IllegalCmdError r1).
  { apply (post_bind _ (fun _ _ => True)); [intros ? _; exact Logic.I|].
    intros _. apply post_ret. intros w _ Hn'. discriminate Hn'. }
  apply (post_bind _ (fun _ => progress k0 t0
                                 (fs0 ++ [sent_frame CMD8_SEND_IF_COND 426 135])));
    [apply Init_r7_bytes_keeps; auto with sd_card|].
  intros [status [e|]]; [run_step|].
  destruct (negb (Z.land status 15 =? 1)); [run_step|].
  apply (post_bind _ (fun _ => progress k0 t0
                                 (fs0 ++ [sent_frame CMD8_SEND_IF_COND 426 135])));
    [apply Init_r7_bytes_keeps; auto with sd_card|].
  intros [status' [e|]]; [run_step|].
  destruct (negb (status' =? 170)); [run_step|].
  apply (post_bind _ (fun _ => progress TypeSD2 t0
                                 (fs0 ++ [sent_frame CMD8_SEND_IF_COND 426 135]))).
  { apply post_set_card. intros w [Hk Hs]. split; [reflexivity | exact Hs]. }
  intros _.
  eapply post_weaken; [apply Init_negotiate_progress|].
  intros r w Hw Hr. destruct (Hw Hr) as [m [k' Hp]].
  exists n, m, k'. split; [exact Hn|].
  unfold fs0 in Hp. unfold Init_frames.
  rewrite <- !app_assoc in Hp. exact Hp.
Qed.

(** X27: the transmissions of an [Init] that returns nil on a session
    whose scratch buffer has its 512 bytes, in the order they were made:
    10 bytes 0xFF (the card not selected), 512 bytes 0xFF, CMD0 with
    last byte 0x95 once or more, CMD8 with argument 0x1AA and last byte
    0x87, CMD55 followed by ACMD41 with the high-capacity bit any number
    of times, then CMD58, CMD16 with argument 512, CMD10 and CMD9, each
    once; nothing else is transmitted without a read slice. *)
Theorem Init_command_order fuel (w w' : @World E) :
  length (buf (card w)) = 512%nat ->
  Init io fuel w = Ret None w' ->
  exists l k m,
    (1 <= k)%nat /\ trace w' = trace w ++ l
    /\ filter is_frame l = Init_frames k m.
Proof.
  intros Hl H. unfold Init in H. unfold bind at 1 in H. unfold set_card in H.
  rewrite Hl in H. unfold bind at 1 in H.
  match type of H with
  | match Init_body io fuel ?w0 with _ => _ end = _ =>
      assert (Hp : progress (kind (card w)) (trace w) [] w0
                   /\ buf (card w0) = repeat 255 512)
        by (split; [split; [reflexivity | exists []; split;
                                           [cbn [trace]; rewrite app_nil_r; reflexivity
                                           | reflexivity]]
                   | reflexivity]);
      pose proof (Init_body_progress (kind (card w)) (trace w) fuel w0 Hp) as Hb;
      destruct (Init_body io fuel w0) as [r w1| |]; try discriminate
  end.
  unfold bind, csEnable, ret in H. injection H as -> <-.
  destruct (Hb eq_refl) as [k [m [k' [Hk [_ [l [Ht Hf]]]]]]].
  exists (l ++ [EvCS (negb false)]), k, m. split; [exact Hk|]. cbn [trace].
  split; [rewrite Ht, app_assoc; reflexivity|].
  rewrite filter_app, Hf. cbn [filter is_frame]. apply app_nil_r.
Qed.

End Runs.

(** ** Runs on the scripted card *)

Lemma wf_card_NewSPICard : wf_card NewSPICard.
Proof. split; reflexivity. Qed.

Lemma wf_card_ready : wf_card card_ready.
Proof. split; reflexivity. Qed.

(** C2, on the code: a card accepts the block (data response 0xE5) and
    then stays busy, answering 0x00 to every byte, and the transport
    reports no error.  [WriteBlock] polls 589 times, until the deadline
    of 600 ms has passed, deasserts chip select and returns nil, not
    [errWriteTimeout]. *)
Theorem WriteBlock_busy_past_deadline_returns_nil :
  let run := WriteBlock Sim.io 1000 0 block_512
               (Sim.world card_ready (write_script []) 0) in
  result run = Some None
  /\ option_map (fun w => trace w) (final run) =
     Some ([EvCS false; EvTransfer 255; EvTx [0x58; 0; 0; 0; 0; 255] None;
            EvTx [255] (Some 1%nat); EvTransfer 254; EvTx block_512 None;
            EvTransfer 255; EvTransfer 255; EvTransfer 255]
           ++ repeat (EvTransfer 255) 589 ++ [EvCS true])
  /\ option_map (fun w => (Sim.script (env w), Sim.rest_ (env w))) (final run) =
     Some ([], 0)
  /\ option_map (fun w => snd (timers (card w)) <=? Sim.clock (env w)) (final run) =
     Some true.
Proof. vm_compute. repeat split; reflexivity. Qed.



(** C4, on the code: with a 512-byte slice and the index -1 on a session
    of 7529000 blocks, neither [ReadBlock] nor [WriteBlock] returns
    [errOOB]: each selects the card and sends its command with the
    address 0xFFFFFFFF, and returns what the card makes of it, here the
    address-error status 0x20. *)
Theorem negative_index_reaches_the_bus :
  let w0 := Sim.world card_ready (Sim.ok (Sim.answer 0x20)) 255 in
  numblocks card_ready = 7529000
  /\ length block_512 = 512%nat
  /\ result (ReadBlock Sim.io 10 (-1) block_512 w0)
     = Some (Some (response1Err 0x20), block_512)
  /\ option_map (fun w => trace w) (final (ReadBlock Sim.io 10 (-1) block_512 w0))
     = Some [EvCS false; EvTransfer 255;
             EvTx [0x51; 255; 255; 255; 255; 255] None; EvTx [255] (Some 1%nat)]
  /\ result (WriteBlock Sim.io 10 (-1) block_512 w0)
     = Some (Some (response1Err 0x20))
  /\ option_map (fun w => trace w) (final (WriteBlock Sim.io 10 (-1) block_512 w0))
     = Some [EvCS false; EvTransfer 255;
             EvTx [0x58; 255; 255; 255; 255; 255] None; EvTx [255] (Some 1%nat)].
Proof. vm_compute. repeat split; reflexivity. Qed.

(** C8 as stated fails: on a card that answers CMD8 with the illegal
    command flag, [Init] fails with [errCardNotSupported] and has changed
    the card kind from its zero value to [TypeSD1]. *)
Lemma failed_Init_changes_kind :
  let run := Init Sim.io 10 (Sim.world NewSPICard init_v1_script 255) in
  kind NewSPICard = 0
  /\ result run = Some (Some errCardNotSupported)
  /\ option_map (fun w => kind (card w)) (final run) = Some TypeSD1
  /\ option_map (fun w => numblocks (card w)) (final run) = Some 0.
Proof. vm_compute. repeat split; reflexivity. Qed.

Lemma identity_fields_assigned_by_Init_witness :
  (exists w', Init Sim.io 10 (Sim.world NewSPICard init_v1_script 255)
              = Ret (Some errCardNotSupported) w'
              /\ numblocks (card w') = 0)
  /\ (exists w', Init Sim.io 10 (Sim.world NewSPICard init_sdhc_script 255)
                 = Ret None w'
                 /\ initialized (card w')).
Proof.
  split.
  - eexists. split; [vm_compute; reflexivity|].
    apply (proj1 (proj2 (proj2
             (identity_fields_assigned_by_Init Sim.io 10
                (Sim.world NewSPICard init_v1_script 255))))
             errCardNotSupported).
    vm_compute. reflexivity.
  - eexists. split; [vm_compute; reflexivity|].
    apply (proj2 (proj2 (proj2
             (identity_fields_assigned_by_Init Sim.io 10
                (Sim.world NewSPICard init_sdhc_script 255))))).
    vm_compute. reflexivity.
Defined.

Lemma cmd_sends_caller_crc_witness :
  exists res w',
    cmd Sim.io 10 CMD0_GO_IDLE_STATE 0 0x95
      (Sim.world NewSPICard (Sim.ok (Sim.answer 1)) 255) = Ret res w'
    /\ nth 5 (frame CMD0_GO_IDLE_STATE 0 0x95) 0 = 0x95
    /\ exists pre post,
         trace w' = [] ++ pre ++ EvTx (frame CMD0_GO_IDLE_STATE 0 0x95) None :: post
         /\ forallb (fun ev => negb (is_frame ev)) pre = true
         /\ forallb (fun ev => negb (is_frame ev)) post = true.
Proof.
  eexists. eexists. split; [vm_compute; reflexivity|].
  eapply (cmd_sends_caller_crc Sim.io 10 CMD0_GO_IDLE_STATE 0 0x95
            (Sim.world NewSPICard (Sim.ok (Sim.answer 1)) 255)).
  vm_compute. reflexivity.
Defined.

Lemma cmd_timeout_is_status_FF_witness :
  exists w1,
    cmd_ready Floating.io 10 CMD0_GO_IDLE_STATE (Floating.world NewSPICard)
    = Ret tt w1
    /\ exists w',
         cmd Floating.io 10 CMD0_GO_IDLE_STATE 0 0x95 (Floating.world NewSPICard)
         = Ret (255, None) w'
         /\ trace w' =
              trace w1 ++ [EvTx (frame CMD0_GO_IDLE_STATE 0 0x95) None]
                ++ (if Z.eqb CMD0_GO_IDLE_STATE 12 then [EvTransfer 255] else [])
                ++ repeat (EvTx [255] (Some 1%nat)) (Z.to_nat 65535)
                ++ [EvCS true; EvTransfer 255].
Proof.
  eexists. split; [vm_compute; reflexivity|].
  apply (cmd_timeout_is_status_FF Floating.io 10 CMD0_GO_IDLE_STATE 0 0x95
           (Floating.world NewSPICard)).
  - split; reflexivity.
  - vm_compute. reflexivity.
  - vm_compute. reflexivity.
  - vm_compute. reflexivity.
Defined.

(** ** The driver's properties on the scripted card *)

Lemma block_transfer_refused_untouched_witness :
  exists e,
    ReadBlock Sim.io 10 0 [1; 2; 3] (Sim.world card_ready [] 255)
    = Ret (Some e, [1; 2; 3]) (Sim.world card_ready [] 255)
    /\ WriteBlock Sim.io 10 0 [1; 2; 3] (Sim.world card_ready [] 255)
       = Ret (Some e) (Sim.world card_ready [] 255)
    /\ e = errNeed512.
Proof.
  apply (block_transfer_refused_untouched Sim.io 10 0 [1; 2; 3]
           (Sim.world card_ready [] 255)).
  left. cbn [length]. lia.
Defined.

Lemma failed_Init_keeps_the_bounds_witness :
  exists w',
    Init Sim.io 10 (Sim.world NewSPICard init_v1_script 255)
    = Ret (Some errCardNotSupported) w'
    /\ ReadBlock Sim.io 10 0 block_512 w' = Ret (Some errOOB, block_512) w'
    /\ WriteBlock Sim.io 10 0 block_512 w' = Ret (Some errOOB) w'.
Proof.
  eexists. split; [vm_compute; reflexivity|].
  apply (failed_Init_keeps_the_bounds Sim.io 10 0 block_512
           (Sim.world NewSPICard init_v1_script 255) _ errCardNotSupported).
  - vm_compute. reflexivity.
  - reflexivity.
  - vm_compute. discriminate.
Defined.

Lemma cmd_outcome_witness :
  (exists w',
      cmd Sim.io 10 CMD0_GO_IDLE_STATE 0 0x95
        (Sim.world NewSPICard (Sim.ok (Sim.answer 1)) 255) = Ret (1, None) w'
      /\ ((Z.land 1 128 = 0 /\ exists t, trace w' = t ++ [EvTx [255] (Some 1%nat)])
          \/ (1 = 255 /\ exists t, trace w' = t ++ [EvCS true; EvTransfer 255])))
  /\ (exists w',
         cmd Sim.io 10 17 0 255
           (Sim.world card_ready [(255, None); (255, Some (errTransport 7))] 255)
         = Ret (0, Some (errTransport 7)) w'
         /\ 0 = 0 /\ exists t, trace w' = t ++ [EvTx (frame 17 0 255) None]).
Proof.
  split.
  - eexists. split; [vm_compute; reflexivity|].
    apply (cmd_outcome Sim.io 10 CMD0_GO_IDLE_STATE 0 0x95
             (Sim.world NewSPICard (Sim.ok (Sim.answer 1)) 255) _ 1 None).
    vm_compute. reflexivity.
  - eexists. split; [vm_compute; reflexivity|].
    apply (cmd_outcome Sim.io 10 17 0 255
             (Sim.world card_ready [(255, None); (255, Some (errTransport 7))] 255)
             _ 0 (Some (errTransport 7))).
    vm_compute. reflexivity.
Defined.


Lemma waitStartBlock_outcome_witness :
  (exists w',
      waitStartBlock Sim.io 10 (Sim.world card_ready (Sim.ok [255; 254]) 255)
      = Ret None w'
      /\ exists n, (1 <= n)%nat /\ trace w' = [] ++ repeat (EvTransfer 255) n)
  /\ (exists w',
         waitStartBlock Sim.io 10 (Sim.world card_ready (Sim.ok [255; 9]) 255)
         = Ret (Some errWaitStartBlock) w'
         /\ exists t, trace w' = t ++ [EvCS true]).
Proof.
  split.
  - eexists. split; [vm_compute; reflexivity|].
    apply (waitStartBlock_outcome Sim.io 10
             (Sim.world card_ready (Sim.ok [255; 254]) 255) _ None).
    vm_compute. reflexivity.
  - eexists. split; [vm_compute; reflexivity|].
    apply (waitStartBlock_outcome Sim.io 10
             (Sim.world card_ready (Sim.ok [255; 9]) 255) _ (Some errWaitStartBlock)).
    vm_compute. reflexivity.
Defined.

Lemma deferred_deselect_witness :
  (exists w',
      Init Sim.io 10 (Sim.world NewSPICard init_v1_script 255)
      = Ret (Some errCardNotSupported) w'
      /\ exists t, trace w' = t ++ [EvCS true])
  /\ (exists w',
         WriteBlock Sim.io 10 0 block_512
           (Sim.world card_ready (Sim.ok (Sim.answer 0 ++ [255] ++ repeat 255 514 ++ [0xEB])) 255)
         = Ret (Some errWrite) w'
         /\ exists t, trace w' = t ++ [EvCS true]).
Proof.
  split.
  - eexists. split; [vm_compute; reflexivity|].
    apply (proj1 (deferred_deselect Sim.io 10
                    (Sim.world NewSPICard init_v1_script 255))
             (Some errCardNotSupported)).
    vm_compute. reflexivity.
  - eexists. split; [vm_compute; reflexivity|].
    eapply (proj2 (proj2 (deferred_deselect Sim.io 10
                    (Sim.world card_ready
                       (Sim.ok (Sim.answer 0 ++ [255] ++ repeat 255 514 ++ [0xEB])) 255)))
              0 block_512 _ (Some errWrite)).
    + reflexivity.
    + vm_compute. reflexivity.
    + vm_compute. reflexivity.
    + vm_compute. reflexivity.
Defined.

Lemma ReadBlock_success_sequence_witness :
  exists dst' w',
    ReadBlock Sim.io 10 3 block_512
      (Sim.world card_ready (read_script (repeat 7 512) 0x12 0x34) 255)
    = Ret (None, dst') w'
    /\ length block_512 = 512%nat /\ 3 < numblocks card_ready
    /\ length dst' = 512%nat
    /\ exists w1 n,
         cmdEnsure0Status Sim.io 10 CMD17_READ_SINGLE_BLOCK
           (block_address (kind card_ready) 3) 255
           (Sim.world card_ready (read_script (repeat 7 512) 0x12 0x34) 255)
         = Ret None w1
         /\ (1 <= n)%nat
         /\ trace w' =
              trace w1 ++ repeat (EvTransfer 255) n
                ++ [EvTx (buf card_ready) (Some 512%nat); EvTransfer 255;
                    EvTransfer 255; EvCS true].
Proof.
  eexists. eexists. split; [vm_compute; reflexivity|].
  apply (ReadBlock_success_sequence Sim.io 10 3 block_512
           (Sim.world card_ready (read_script (repeat 7 512) 0x12 0x34) 255)).
  vm_compute. reflexivity.
Defined.

Lemma WriteBlock_success_sequence_witness :
  exists w',
    WriteBlock Sim.io 10 3 block_512 (Sim.world card_ready (write_script []) 255)
    = Ret None w'
    /\ length block_512 = 512%nat /\ 3 < numblocks card_ready
    /\ exists w1 n,
         cmdEnsure0Status Sim.io 10 CMD24_WRITE_BLOCK
           (block_address (kind card_ready) 3) 255
           (Sim.world card_ready (write_script []) 255)
         = Ret None w1
         /\ trace w' =
              trace w1 ++ [EvTransfer 254; EvTx block_512 None; EvTransfer 255;
                           EvTransfer 255; EvTransfer 255]
                ++ repeat (EvTransfer 255) n ++ [EvCS true].
Proof.
  eexists. split; [vm_compute; reflexivity|].
  apply (WriteBlock_success_sequence Sim.io 10 3 block_512
           (Sim.world card_ready (write_script []) 255)).
  vm_compute. reflexivity.
Defined.

Lemma LastReadCRC_written_by_successful_read_only_witness :
  (exists w',
      Init Sim.io 10 (Sim.world NewSPICard init_sdhc_script 255) = Ret None w'
      /\ LastReadCRC (card w') = LastReadCRC NewSPICard)
  /\ (exists w',
         WriteBlock Sim.io 10 3 block_512 (Sim.world card_ready (write_script []) 255)
         = Ret None w'
         /\ LastReadCRC (card w') = LastReadCRC card_ready)
  /\ (exists w',
         ReadBlock Sim.io 10 3 block_512
           (Sim.world card_ready (Sim.ok (Sim.answer 0 ++ [255; 9])) 255)
         = Ret (Some errWaitStartBlock, block_512) w'
         /\ LastReadCRC (card w') = LastReadCRC card_ready).
Proof.
  split; [|split].
  - eexists. split; [vm_compute; reflexivity|].
    apply (proj1 (LastReadCRC_written_by_successful_read_only Sim.io 10
                    (Sim.world NewSPICard init_sdhc_script 255)) None).
    vm_compute. reflexivity.
  - eexists. split; [vm_compute; reflexivity|].
    apply (proj1 (proj2 (LastReadCRC_written_by_successful_read_only Sim.io 10
                    (Sim.world card_ready (write_script []) 255)))
             3 block_512 None).
    vm_compute. reflexivity.
  - eexists. split; [vm_compute; reflexivity|].
    apply (proj2 (proj2 (LastReadCRC_written_by_successful_read_only Sim.io 10
                    (Sim.world card_ready (Sim.ok (Sim.answer 0 ++ [255; 9])) 255)))
             3 block_512 errWaitStartBlock block_512).
    vm_compute. reflexivity.
Defined.

Lemma block_transfers_keep_the_registers_witness :
  (exists dst' w',
      ReadBlock Sim.io 10 3 block_512
        (Sim.world card_ready (read_script (repeat 7 512) 0x12 0x34) 255)
      = Ret (None, dst') w'
      /\ same_registers card_ready (card w'))
  /\ (exists w',
         WriteBlock Sim.io 10 3 block_512 (Sim.world card_ready (write_script []) 255)
         = Ret None w'
         /\ same_registers card_ready (card w')).
Proof.
  split.
  - eexists. eexists. split; [vm_compute; reflexivity|].
    eapply (proj1 (block_transfers_keep_the_registers Sim.io 10 3 block_512
                     (Sim.world card_ready (read_script (repeat 7 512) 0x12 0x34) 255))).
    vm_compute. reflexivity.
  - eexists. split; [vm_compute; reflexivity|].
    eapply (proj2 (block_transfers_keep_the_registers Sim.io 10 3 block_512
                     (Sim.world card_ready (write_script []) 255))).
    vm_compute. reflexivity.
Defined.

Lemma Init_publishes_the_CSD_it_read_witness :
  exists w',
    Init Sim.io 10 (Sim.world NewSPICard init_sdhc_script 255) = Ret None w'
    /\ wf_CSD (SPICard_CSD (card w'))
    /\ buf (card w') = repeat 255 496 ++ RawCopy (SPICard_CSD (card w'))
    /\ NumberOfBlocks (SPICard_CSD (card w')) = Some (SPICard_NumberOfBlocks (card w'))
    /\ 0 < SPICard_NumberOfBlocks (card w') <= MaxUint32.
Proof.
  eexists. split; [vm_compute; reflexivity|].
  apply (Init_publishes_the_CSD_it_read Sim.io 10
           (Sim.world NewSPICard init_sdhc_script 255)).
  - reflexivity.
  - vm_compute. reflexivity.
Defined.

Lemma Init_command_order_witness :
  exists w',
    Init Sim.io 10 (Sim.world NewSPICard init_sdhc_script 255) = Ret None w'
    /\ exists l k m,
         (1 <= k)%nat /\ trace w' = [] ++ l
         /\ filter is_frame l = Init_frames k m.
Proof.
  eexists. split; [vm_compute; reflexivity|].
  apply (Init_command_order Sim.io 10 (Sim.world NewSPICard init_sdhc_script 255)).
  - reflexivity.
  - vm_compute. reflexivity.
Defined.

(** ** A block read from the scripted card *)

Lemma read_script_split blk hi lo :
  read_script blk hi lo
  = Sim.ok (Sim.answer 0)
      ++ (255, None) :: (254, None) :: Sim.ok blk ++ [(hi, None); (lo, None)].
Proof.
  unfold read_script, Sim.ok. rewrite !map_app. reflexivity.
Qed.

Lemma Sim_exchange_ok blk :
  forall rest r c t p,
    exists c',
      Sim.exchange (length blk) (Sim.mk (Sim.ok blk ++ rest) r c t p)
      = ((blk, None), Sim.mk rest r c' t p).
Proof.
  induction blk as [|b blk IH]; intros rest r c t p.
  - exists c. reflexivity.
  - cbn [length Sim.exchange Sim.ok map app]. unfold Sim.exchange1 at 1.
    cbn [Sim.script Sim.rest_ Sim.clock Sim.tick Sim.pause].
    destruct (IH rest r (c + t) t p) as [c' Hc]. unfold Sim.ok in Hc.
    rewrite Hc. exists c'. reflexivity.
Qed.

Lemma ReadBlock_start (a : Z) (rest : list (Z * option error)) :
  exists d1 t1 c1 d2 t2 c2,
    cmdEnsure0Status Sim.io 10 CMD17_READ_SINGLE_BLOCK a 255
      (Sim.world card_ready
         (Sim.ok (Sim.answer 0) ++ (255, None) :: (254, None) :: rest) 255)
    = Ret None (mkWorld d1 (Sim.mk ((255, None) :: (254, None) :: rest)
                              255 c1 20000 1000000) t1)
    /\ waitStartBlock Sim.io 10
         (mkWorld d1 (Sim.mk ((255, None) :: (254, None) :: rest)
                        255 c1 20000 1000000) t1)
       = Ret None (mkWorld d2 (Sim.mk rest 255 c2 20000 1000000) t2)
    /\ buf d2 = repeat 255 512.
Proof.
  eexists. eexists. eexists. eexists. eexists. eexists.
  split; [vm_compute; reflexivity|].
  split; [vm_compute; reflexivity | reflexivity].
Qed.

Lemma map_u8_bytes l : bytes l -> map u8 l = l.
Proof.
  unfold bytes. induction 1 as [|b l Hb _ IH]; [reflexivity|].
  cbn [map]. rewrite IH. unfold u8, is_byte in *. rewrite Z.mod_small by lia.
  reflexivity.
Qed.

(** X28: a block read from the scripted card.  Whatever 512 bytes the
    card sends after the start token and whatever two bytes follow them,
    [ReadBlock] returns nil and hands back exactly those 512 bytes: the
    two bytes are kept for [LastReadCRC], high byte first, and are not
    compared with the CRC16 of the data. *)
Theorem ReadBlock_delivers_unchecked (block : Z) (dst blk : list Z) (hi lo : Z) :
  block < 7529000 -> length dst = 512%nat ->
  length blk = 512%nat -> bytes blk -> is_byte hi -> is_byte lo ->
  exists w',
    ReadBlock Sim.io 10 block dst (Sim.world card_ready (read_script blk hi lo) 255)
    = Ret (None, blk) w'
    /\ LastReadCRC (card w') = hi * 256 + lo.
Proof.
  intros Hb Hd Hl Hbytes Hhi Hlo.
  rewrite read_script_split.
  destruct (ReadBlock_start (block_address TypeSDHC block)
              (Sim.ok blk ++ [(hi, None); (lo, None)]))
    as [d1 [t1 [c1 [d2 [t2 [c2 [H1 [H2 Hbuf]]]]]]]].
  unfold ReadBlock. unfold bind at 1. unfold get_card at 1.
  rewrite Hd. cbn [Nat.eqb negb].
  change (numblocks (card (Sim.world card_ready _ 255))) with 7529000.
  change (kind (card (Sim.world card_ready _ 255))) with TypeSDHC.
  apply Z.leb_gt in Hb. rewrite Hb.
  unfold bind at 1. rewrite H1.
  unfold bind at 1. unfold bind at 1. rewrite H2.
  unfold bind at 1. unfold get_card at 1. cbn [card].
  unfold bind at 1. unfold Tx. cbn [env]. rewrite Hbuf.
  change (bus_Tx Sim.io (repeat 255 512) (Some dst)
            (Sim.mk (Sim.ok blk ++ [(hi, None); (lo, None)]) 255 c2 20000 1000000))
    with (Sim.exchange 512
            (Sim.mk (Sim.ok blk ++ [(hi, None); (lo, None)]) 255 c2 20000 1000000)).
  destruct (Sim_exchange_ok blk [(hi, None); (lo, None)] 255 c2 20000 1000000)
    as [c3 H3].
  rewrite Hl in H3. rewrite H3.
  unfold bind, Transfer, set_card, csEnable, ret.
  cbn [bus_Transfer cs_pin Sim.io env card trace Sim.exchange1
       Sim.script Sim.rest_ Sim.clock Sim.tick Sim.pause].
  eexists. split.
  - f_equal. f_equal. unfold received. rewrite Hd, Hl.
    rewrite map_u8_bytes by exact Hbytes.
    rewrite firstn_app, firstn_all2 by lia.
    rewrite Hl. cbn [Nat.sub firstn]. apply app_nil_r.
  - unfold LastReadCRC. cbn [card lastCRC with_lastCRC].
    unfold u8, u16, is_byte in *.
    rewrite (Z.mod_small hi) by lia. rewrite (Z.mod_small lo) by lia.
    rewrite Z.shiftl_mul_pow2 by lia. change (2 ^ 8) with 256.
    rewrite Z.mod_small by lia.
    pose proof (lor_low_add hi lo 8) as Hor. change (2 ^ 8) with 256 in Hor.
    apply Hor; lia.
Qed.

Lemma ReadBlock_delivers_unchecked_witness :
  exists w',
    ReadBlock Sim.io 10 3 block_512
      (Sim.world card_ready (read_script (repeat 7 512) 0x12 0x34) 255)
    = Ret (None, repeat 7 512) w'
    /\ LastReadCRC (card w') = 0x12 * 256 + 0x34.
Proof.
  apply (ReadBlock_delivers_unchecked 3 block_512 (repeat 7 512) 0x12 0x34).
  - lia.
  - reflexivity.
  - reflexivity.
  - apply bytesb_ok. reflexivity.
  - unfold is_byte. lia.
  - unfold is_byte. lia.
Defined.
